(** * duplicity / alicloud-duplicity: naming codec, backends and GnuPG wait

    A shallow embedding of the parts of the repository that its
    specification talks about:

    - [Base36] and [FileNaming]: the archive naming codec
      (duplicity/file_naming.py, exercised by testing/unit/test_file_naming.py);
    - [AliCloud]: duplicity/backends/alicloudbackend.py;
    - [WebDAV] and [WebDAVAuth]: duplicity/backends/webdavbackend.py, the
      backend and its authorization headers;
    - [GpgInterface]: duplicity/gpginterface.py, that is [Process.wait] and
      [threaded_waitpid], the arguments that [Options] generates, and
      [GnuPG.run] as the parent process goes through it.

    The theorems come in two groups: the properties that the
    specification states, and further properties of the same code (listing
    and round trips of the AliCloud backend, paths, connections, requests,
    listings and transfers of the WebDAV backend, and the start of GnuPG).

    Python integers are [Z], Python strings are [string], dictionaries are
    [gmap]s, and a Python call that may raise returns a [result]. *)

From Stdlib Require Import ZArith String Ascii List Bool Lia.
From Stdlib Require Import DecimalString DecimalPos DecimalZ.
From Equations Require Import Equations.
From stdpp Require Import base option list sorting gmap strings.

Local Open Scope string_scope.
Local Open Scope Z_scope.

(** ** Exceptions and results *)

(** The exception classes the embedded code raises or catches.  The two
    backend classes come from duplicity.errors; the others are raised by the
    libraries the code calls. *)
Inductive exn : Type :=
| BackendException (msg : string)
| FatalBackendException (msg : string)
| IOError (msg : string)
| AttributeError (msg : string)
| NoSuchKey
| NoSuchBucket
| NoSectionError (section : string)
| NoOptionError (option section : string)
| OtherError (cls : string).

Inductive result (A : Type) : Type :=
| Ok (a : A)
| Raise (e : exn).
Arguments Ok {A} a.
Arguments Raise {A} e.

#[global] Instance result_ret : MRet result := fun A a => Ok a.
#[global] Instance result_bind : MBind result := fun A B k r =>
  match r with
  | Ok a => k a
  | Raise e => Raise e
  end.

(** State threaded through calls that may raise: an exception leaves the
    state as it was when it was raised, as in Python. *)
Definition M (S A : Type) : Type := S -> result A * S.

#[global] Instance M_ret {S} : MRet (M S) := fun A a s => (Ok a, s).
#[global] Instance M_bind {S} : MBind (M S) := fun A B k m s =>
  match m s with
  | (Ok a, s') => k a s'
  | (Raise e, s') => (Raise e, s')
  end.

Definition raise {S A} (e : exn) : M S A := fun s => (Raise e, s).
Definition get_state {S} : M S S := fun s => (Ok s, s).
Definition put_state {S} (s : S) : M S unit := fun _ => (Ok tt, s).
Definition lift {S A} (r : result A) : M S A := fun s => (r, s).

(** [try m except handler]: the handler sees the exception and either
    handles it or re-raises. *)
Definition try_except {S A} (m : M S A) (handler : exn -> option (M S A)) : M S A :=
  fun s =>
    match m s with
    | (Ok a, s') => (Ok a, s')
    | (Raise e, s') =>
        match handler e with
        | Some h => h s'
        | None => (Raise e, s')
        end
    end.

Definition returns_normally {A} (r : result A) : Prop :=
  exists a, r = Ok a.

(** duplicity.errors distinguishes the plain [BackendException] from
    [FatalBackendException]; only the latter is the fatal class. *)
Definition is_fatal (e : exn) : bool :=
  match e with FatalBackendException _ => true | _ => false end.


(** ** Python string operations *)

Module PyStr.

(** [s.split(sep)] for a one-character separator: never empty, and an empty
    field for every adjacent pair of separators. *)
Fixpoint split (sep : ascii) (s : string) : list string :=
  match s with
  | EmptyString => [EmptyString]
  | String c s' =>
      if Ascii.eqb c sep then EmptyString :: split sep s'
      else match split sep s' with
           | [] => [String c EmptyString]
           | field :: fields => String c field :: fields
           end
  end.

(** [sep.join(l)] *)
Fixpoint join (sep : string) (l : list string) : string :=
  match l with
  | [] => EmptyString
  | [x] => x
  | x :: xs => x +:+ sep +:+ join sep xs
  end.

Definition nonempty (s : string) : bool :=
  match s with EmptyString => false | _ => true end.

(** [s.startswith(p)] *)
Definition startswith (p s : string) : bool := String.prefix p s.

Fixpoint drop (n : nat) (s : string) : string :=
  match n, s with
  | O, _ => s
  | S n', String _ s' => drop n' s'
  | S _, EmptyString => EmptyString
  end.

(** [s.replace(old, new, 1)]: the leftmost occurrence only. *)
Fixpoint replace_first (old new s : string) : string :=
  if String.prefix old s then new +:+ drop (String.length old) s
  else match s with
       | EmptyString => EmptyString
       | String c s' => String c (replace_first old new s')
       end.

(** [c in s] *)
Fixpoint has_char (c : ascii) (s : string) : bool :=
  match s with
  | EmptyString => false
  | String a s' => Ascii.eqb a c || has_char c s'
  end.

(** [re.sub('/+', '/', s)] *)
Fixpoint fold_slashes (s : string) : string :=
  match s with
  | EmptyString => EmptyString
  | String c s' =>
      if Ascii.eqb c "/" then
        match s' with
        | String c' _ =>
            if Ascii.eqb c' "/" then fold_slashes s' else String c (fold_slashes s')
        | EmptyString => String c EmptyString
        end
      else String c (fold_slashes s')
  end.

Definition is_space (c : ascii) : bool :=
  let n := nat_of_ascii c in
  (n =? 32)%nat || ((9 <=? n)%nat && (n <=? 13)%nat).

Fixpoint lstrip (s : string) : string :=
  match s with
  | String c s' => if is_space c then lstrip s' else s
  | EmptyString => EmptyString
  end.

Fixpoint rstrip (s : string) : string :=
  match s with
  | EmptyString => EmptyString
  | String c s' =>
      match rstrip s' with
      | EmptyString => if is_space c then EmptyString else String c EmptyString
      | r => String c r
      end
  end.

(** [s.strip()] *)
Definition strip (s : string) : string := rstrip (lstrip s).

(** [str(n)] and ["%s" % n] for an integer *)
Definition str_of_Z (n : Z) : string := NilZero.string_of_int (Z.to_int n).

(** ["%s" % x] for a string that may be [None] *)
Definition str_of_option (o : option string) : string :=
  match o with Some x => x | None => "None" end.

(** [s[-1]], when there is one *)
Fixpoint last_char (s : string) : option ascii :=
  match s with
  | EmptyString => None
  | String c EmptyString => Some c
  | String _ s' => last_char s'
  end.

(** [s.split(sep, 1)]: cut at the first separator only. *)
Fixpoint split_once (sep : ascii) (s : string) : list string :=
  match s with
  | EmptyString => [EmptyString]
  | String c s' =>
      if Ascii.eqb c sep then [EmptyString; s']
      else match split_once sep s' with
           | [] => [String c EmptyString]
           | field :: fields => String c field :: fields
           end
  end.

(** [s.lower()] on ASCII letters *)
Definition lower_char (c : ascii) : ascii :=
  let n := nat_of_ascii c in
  if (65 <=? n)%nat && (n <=? 90)%nat then ascii_of_nat (n + 32) else c.

Fixpoint lower (s : string) : string :=
  match s with
  | EmptyString => EmptyString
  | String c s' => String (lower_char c) (lower s')
  end.

End PyStr.

(** ** Reduced-radix numerals *)

Module Base36.

(** Modelled from the spec: [file_naming.to_base36] and
    [file_naming.from_base36] are not among the source files; only their
    unit test [Test36.test_base36] is.  The spec asks for a positional
    numeral system with a reduced radix that encodes a timestamp and
    re-decodes it exactly.  The radix is 36 and the digits are [0-9a-z],
    most significant first, which is what the names parsed by the naming
    tests use ([h14rg0] is 1029826800). *)
Definition digit_of (d : Z) : ascii :=
  if d <=? 9 then ascii_of_nat (Z.to_nat (48 + d))
  else ascii_of_nat (Z.to_nat (97 + d - 10)).

(** Modelled from the spec: the value of a digit of [from_base36]; a
    character outside [0-9a-z] has none. *)
Definition digit_val (c : ascii) : option Z :=
  let o := Z.of_nat (nat_of_ascii c) in
  if (48 <=? o) && (o <=? 57) then Some (o - 48)
  else if (97 <=? o) && (o <=? 122) then Some (o - 97 + 10)
  else None.

(** Modelled from the spec: [to_base36], the digits of [n] from the most
    significant one.  It recurses on [n / 36]; the number of binary digits
    of [n] bounds the depth of that recursion. *)
Fixpoint to_base36_rec (depth : nat) (n : Z) : string :=
  let last_digit := String (digit_of (n mod 36)) EmptyString in
  match depth with
  | O => last_digit
  | S depth' =>
      if n <? 36 then last_digit
      else to_base36_rec depth' (n / 36) +:+ last_digit
  end.

(** Modelled from the spec: [file_naming.to_base36]. *)
Definition to_base36 (n : Z) : string :=
  to_base36_rec (Z.to_nat (Z.log2 n)) n.

(** Modelled from the spec: the loop of [from_base36] with the total read
    so far. *)
Fixpoint from_base36_acc (total : Z) (s : string) : option Z :=
  match s with
  | EmptyString => Some total
  | String c s' =>
      match digit_val c with
      | Some d => from_base36_acc (total * 36 + d) s'
      | None => None
      end
  end.

(** Modelled from the spec: [file_naming.from_base36]; [None] for a text
    that is not a radix-36 numeral. *)
Definition from_base36 (s : string) : option Z := from_base36_acc 0 s.

End Base36.

(** ** The archive naming codec *)

Module FileNaming.

(** Modelled from the spec: duplicity/file_naming.py ([get] and [parse]) and
    duplicity/dup_time.py are not among the source files; only
    testing/unit/test_file_naming.py is.  The data model is the spec's
    ChainEntry, the grammar is the spec's table of filename patterns, and the
    order of the suffix tokens is the one the spec fixes: manifest, then the
    compression token, then the encryption token, then partial. *)
Inductive SetType : Type :=
| Full
| Incremental
| FullSignature
| NewSignature
| Manifest.

Inductive TimeRange : Type :=
| Single (time : Z)
| Range (start_time end_time : Z).

Record ChainEntry : Type := {
  set_type : SetType;
  time_range : TimeRange;
  volume_number : option Z;
  manifest : bool;
  compressed : bool;
  encrypted : bool;
  partial : bool
}.

(** Modelled from the spec: the configuration of the codec, the naming mode
    and the four prefixes (global, manifest, signature, archive). *)
Record Config : Type := {
  short_names : bool;
  file_prefix : string;
  file_prefix_manifest : string;
  file_prefix_signature : string;
  file_prefix_archive : string
}.

(** Modelled from the spec: the verbose, ISO-8601-like text of a timestamp
    and its reading.  The spec leaves the exact text to the implementation
    (dup_time), so the codec takes the pair as it is. *)
Record VerboseTime : Type := {
  timetostring : Z -> string;
  stringtotime : string -> option Z
}.

Definition dot : ascii := ".".

(** [s] without the leading [p], when [s] starts with [p]. *)
Definition strip_prefix (p s : string) : option string :=
  if String.prefix p s then Some (PyStr.drop (String.length p) s) else None.

Section Codec.
Context (V : VerboseTime) (cfg : Config).

(** *** encode *)

(** Modelled from the spec: one token per set type; a manifest takes the
    token of the set it belongs to, a full set for a single timestamp and an
    incremental set for a pair. *)
Definition type_token (e : ChainEntry) : string :=
  match set_type e, time_range e with
  | Full, _ => "full"
  | Incremental, _ => "inc"
  | FullSignature, _ => "full-sig"
  | NewSignature, _ => "new-sig"
  | Manifest, Single _ => "full"
  | Manifest, Range _ _ => "inc"
  end.

(** Modelled from the spec: a timestamp is a radix-36 digit group in compact
    mode and the verbose text otherwise. *)
Definition time_text (t : Z) : string :=
  if short_names cfg then Base36.to_base36 t else timetostring V t.

(** Modelled from the spec: the literal [to] separates start and end in the
    verbose form; the compact form drops it and leaves the two digit groups
    next to each other, as in the name [dns.h112bi.h14rg0.st.g] of the
    naming tests. *)
Definition time_tokens (r : TimeRange) : list string :=
  match r with
  | Single t => [time_text t]
  | Range t1 t2 =>
      if short_names cfg then [time_text t1; time_text t2]
      else [time_text t1; "to"; time_text t2]
  end.

Definition supports_volumes (t : SetType) : bool :=
  match t with Full | Incremental => true | _ => false end.

(** Modelled from the spec: [vol<N>], only for the set types that are split
    into volumes. *)
Definition volume_tokens (e : ChainEntry) : list string :=
  match volume_number e with
  | Some n => if supports_volumes (set_type e) then ["vol" +:+ PyStr.str_of_Z n] else []
  | None => []
  end.

(** Modelled from the spec: the suffix tokens, each optional, in the fixed
    order. *)
Definition flag_tokens (e : ChainEntry) : list string :=
  (if manifest e then ["manifest"] else [])
    ++ (if compressed e then ["gz"] else [])
    ++ (if encrypted e then ["gpg"] else [])
    ++ (if partial e then ["partial"] else []).

(** Modelled from the spec: the type-specific prefix chosen by the set
    type. *)
Definition type_prefix (t : SetType) : string :=
  match t with
  | Manifest => file_prefix_manifest cfg
  | FullSignature | NewSignature => file_prefix_signature cfg
  | Full | Incremental => file_prefix_archive cfg
  end.

Definition tokens (e : ChainEntry) : list string :=
  type_token e :: time_tokens (time_range e) ++ volume_tokens e ++ flag_tokens e.

(** Modelled from the spec: the global prefix first, then the type-specific
    prefix, then the tokens joined by [.]. *)
Definition encode (e : ChainEntry) : string :=
  file_prefix cfg +:+ type_prefix (set_type e) +:+ PyStr.join "." (tokens e).

(** *** decode *)

(** Modelled from the spec: the reading of a timestamp in the mode that
    the configuration fixes. *)
Definition parse_time (tok : string) : option Z :=
  if short_names cfg then Base36.from_base36 tok else stringtotime V tok.

(** Modelled from the spec: one timestamp, or a start and an end. *)
Definition parse_single (toks : list string) : option (TimeRange * list string) :=
  match toks with
  | tok :: rest => t ← parse_time tok; Some (Single t, rest)
  | [] => None
  end.

Definition parse_range (toks : list string) : option (TimeRange * list string) :=
  if short_names cfg then
    match toks with
    | tok1 :: tok2 :: rest =>
        t1 ← parse_time tok1; t2 ← parse_time tok2; Some (Range t1 t2, rest)
    | _ => None
    end
  else
    match toks with
    | tok1 :: sep :: tok2 :: rest =>
        if String.eqb sep "to" then
          t1 ← parse_time tok1; t2 ← parse_time tok2; Some (Range t1 t2, rest)
        else None
    | _ => None
    end.

(** Modelled from the spec: the optional volume token. *)
Definition parse_volume (toks : list string) : option Z * list string :=
  match toks with
  | tok :: rest =>
      match strip_prefix "vol" tok ≫= NilZero.uint_of_string with
      | Some d => (Some (Z.of_uint d), rest)
      | None => (None, toks)
      end
  | [] => (None, [])
  end.

(** Modelled from the spec: one optional suffix token. *)
Definition optional (name : string) (toks : list string) : bool * list string :=
  match toks with
  | tok :: rest => if String.eqb tok name then (true, rest) else (false, toks)
  | [] => (false, [])
  end.

Record Flags : Type := {
  f_manifest : bool;
  f_compressed : bool;
  f_encrypted : bool;
  f_partial : bool
}.

(** Modelled from the spec: the suffix tokens in their fixed order, then
    the end of the name. *)
Definition parse_flags (toks : list string) : option Flags :=
  let '(m, toks) := optional "manifest" toks in
  let '(z, toks) := optional "gz" toks in
  let '(g, toks) := optional "gpg" toks in
  let '(p, toks) := optional "partial" toks in
  match toks with
  | [] => Some {| f_manifest := m; f_compressed := z; f_encrypted := g; f_partial := p |}
  | _ => None
  end.

Definition entry (t : SetType) (r : TimeRange) (v : option Z) (f : Flags) : ChainEntry :=
  {| set_type := t; time_range := r; volume_number := v;
     manifest := f_manifest f; compressed := f_compressed f;
     encrypted := f_encrypted f; partial := f_partial f |}.

(** Modelled from the spec: the grammar of the archive parts,
    [full.<T>.vol<N>.<suffixes>] and
    [inc.<T_start>.to.<T_end>.vol<N>.<suffixes>]. *)
Definition parse_archive (toks : list string) : option ChainEntry :=
  match toks with
  | tok :: rest =>
      '(t, times) ←
         (if String.eqb tok "full" then Some (Full, parse_single rest)
          else if String.eqb tok "inc" then Some (Incremental, parse_range rest)
          else None);
      '(r, rest) ← times;
      let '(v, rest) := parse_volume rest in
      f ← parse_flags rest;
      Some (entry t r v f)
  | [] => None
  end.

(** Modelled from the spec: the grammar of the signatures,
    [full-sig.<T>.<suffixes>] and
    [new-sig.<T_start>.to.<T_end>.<suffixes>]. *)
Definition parse_signature (toks : list string) : option ChainEntry :=
  match toks with
  | tok :: rest =>
      '(t, times) ←
         (if String.eqb tok "full-sig" then Some (FullSignature, parse_single rest)
          else if String.eqb tok "new-sig" then Some (NewSignature, parse_range rest)
          else None);
      '(r, rest) ← times;
      f ← parse_flags rest;
      Some (entry t r None f)
  | [] => None
  end.

(** Modelled from the spec: the grammar of the manifests, the time pattern
    of the full or of the
    incremental set, with the [manifest] suffix token. *)
Definition parse_manifest (toks : list string) : option ChainEntry :=
  match toks with
  | tok :: rest =>
      times ←
         (if String.eqb tok "full" then Some (parse_single rest)
          else if String.eqb tok "inc" then Some (parse_range rest)
          else None);
      '(r, rest) ← times;
      f ← parse_flags rest;
      if f_manifest f then Some (entry Manifest r None f) else None
  | [] => None
  end.

(** Modelled from the spec: one attempt, which strips the type-specific
    prefix, splits at the dots and parses. *)
Definition attempt (prefix : string) (grammar : list string -> option ChainEntry)
    (name : string) : option ChainEntry :=
  body ← strip_prefix prefix name;
  grammar (PyStr.split dot body).

Definition or_else {A} (o : option A) (other : option A) : option A :=
  match o with Some a => Some a | None => other end.

(** Modelled from the spec: strip the global prefix, then try each
    type-specific prefix in turn with the grammar of its type; anything that
    does not match is [None]. *)
Definition decode (name : string) : option ChainEntry :=
  rest ← strip_prefix (file_prefix cfg) name;
  or_else (attempt (file_prefix_manifest cfg) parse_manifest rest)
    (or_else (attempt (file_prefix_signature cfg) parse_signature rest)
       (attempt (file_prefix_archive cfg) parse_archive rest)).

End Codec.

(** The flags of an entry, as [parse_flags] returns them. *)
Definition flags_of (e : ChainEntry) : Flags :=
  {| f_manifest := manifest e; f_compressed := compressed e;
     f_encrypted := encrypted e; f_partial := partial e |}.

(** *** Valid entries *)

Definition nonnegative (r : TimeRange) : bool :=
  match r with
  | Single t => 0 <=? t
  | Range t1 t2 => (0 <=? t1) && (0 <=? t2)
  end.

(** Modelled from the spec: a single timestamp for Full and FullSignature, a
    pair for Incremental and NewSignature, either for a Manifest. *)
Definition time_shape_ok (e : ChainEntry) : bool :=
  match set_type e, time_range e with
  | (Full | FullSignature), Single _ => true
  | (Incremental | NewSignature), Range _ _ => true
  | Manifest, _ => true
  | _, _ => false
  end.

(** Modelled from the spec: the volume number is optional, positive, and
    present only on the parts of a set that is split into volumes. *)
Definition volume_ok (e : ChainEntry) : bool :=
  match volume_number e with
  | None => true
  | Some n => (0 <? n) && supports_volumes (set_type e)
  end.

(** The entries of the spec's data model. *)
Definition well_formed (e : ChainEntry) : bool :=
  time_shape_ok e && nonnegative (time_range e) && volume_ok e.

(** The manifest token belongs to the Manifest entries: a Manifest carries
    the flag, and a Full or Incremental entry carries it only next to a
    volume number. *)
Definition manifest_ok (e : ChainEntry) : bool :=
  match set_type e with
  | Manifest => manifest e
  | Full | Incremental =>
      implb (manifest e) (match volume_number e with Some _ => true | None => false end)
  | _ => true
  end.

Definition dot_free (s : string) : Prop := PyStr.has_char dot s = false.

Definition prefixes_dot_free (cfg : Config) : Prop :=
  dot_free (file_prefix_manifest cfg)
  /\ dot_free (file_prefix_signature cfg)
  /\ dot_free (file_prefix_archive cfg).

(** What the codec needs of the verbose time text. *)
Definition lossless (V : VerboseTime) : Prop :=
  forall t, 0 <= t -> stringtotime V (timetostring V t) = Some t.

Definition dot_free_times (V : VerboseTime) : Prop :=
  forall t, dot_free (timetostring V t).

(** *** Sample values *)

(** A verbose time text that meets both requirements: the seconds in
    decimal. *)
Definition epoch_seconds : VerboseTime :=
  {| timetostring := PyStr.str_of_Z;
     stringtotime := fun s => Z.of_int <$> NilZero.int_of_string s |}.

(** The prefixes of [FileNamingPrefixes] in the naming tests. *)
Definition prefixed (short : bool) : Config :=
  {| short_names := short; file_prefix := "global-"; file_prefix_manifest := "mani-";
     file_prefix_signature := "sign-"; file_prefix_archive := "arch-" |}.

(** No prefix at all, the default. *)
Definition unprefixed (short : bool) : Config :=
  {| short_names := short; file_prefix := EmptyString;
     file_prefix_manifest := EmptyString; file_prefix_signature := EmptyString;
     file_prefix_archive := EmptyString |}.

(** An archive prefix with a dot in it. *)
Definition dotted : Config :=
  {| short_names := true; file_prefix := EmptyString;
     file_prefix_manifest := EmptyString; file_prefix_signature := EmptyString;
     file_prefix_archive := "full-sig." |}.

(** The incremental volume of [test_basic]. *)
Definition inc_volume : ChainEntry :=
  {| set_type := Incremental; time_range := Range 10 20; volume_number := Some 23;
     manifest := false; compressed := false; encrypted := false; partial := false |}.

(** A Full entry without volume number that carries the manifest flag, and
    the Manifest entry of the same set. *)
Definition full_with_manifest_flag : ChainEntry :=
  {| set_type := Full; time_range := Single 20; volume_number := None;
     manifest := true; compressed := false; encrypted := false; partial := false |}.

Definition manifest_of_full : ChainEntry :=
  {| set_type := Manifest; time_range := Single 20; volume_number := None;
     manifest := true; compressed := false; encrypted := false; partial := false |}.

(** A Full entry of ten minutes past the epoch, whose digit group is [gz]. *)
Definition early_full : ChainEntry :=
  {| set_type := Full; time_range := Single 611; volume_number := None;
     manifest := false; compressed := false; encrypted := false; partial := false |}.

End FileNaming.

(** ** URLs *)

(** The attributes of a [duplicity.backend.ParsedUrl] that the backends
    read.  An absent host name, port or user is [None]. *)
Record ParsedUrl : Type := {
  url_scheme : string;
  url_hostname : option string;
  url_port : option Z;
  url_path : string;
  url_username : option string
}.

(** ** The AliCloud OSS backend (duplicity/backends/alicloudbackend.py) *)

Module AliCloud.

(** What the constructor reads from the process and the home directory:
    [os.environ], the parsed content of [~/.alicloud.cfg] when the file
    exists (section, then option, then value), and whether the optional
    modules can be imported. *)
Record Environment : Type := {
  environ : gmap string string;
  config_file : option (gmap string (gmap string string));
  has_configparser : bool;
  has_oss2 : bool
}.

(** [oss2.Auth] and [oss2.Bucket] are plain handles. *)
Record Auth : Type := { auth_key_id : string; auth_key_secret : string }.
Record Bucket : Type := {
  bucket_auth : Auth;
  bucket_endpoint : string;
  bucket_handle_name : string
}.

(** The attributes of an [AliCloudBackend] instance.  [bucket] is [None]
    while the attribute is deleted. *)
Record Backend : Type := {
  endpoint : string;
  access_key_id : string;
  access_key_secret : string;
  scheme : string;
  bucket_name : string;
  key_prefix : string;
  url_parts : list string;
  auth : option Auth;
  bucket : option Bucket
}.

(** The service and the local disk: buckets by name, each a map from key to
    content, and local files by name. *)
Record World : Type := {
  oss : gmap string (gmap string string);
  files : gmap string string
}.

Record State : Type := { self : Backend; world : World }.

Definition set_bucket (b : option Bucket) (o : Backend) : Backend :=
  {| endpoint := endpoint o; access_key_id := access_key_id o;
     access_key_secret := access_key_secret o; scheme := scheme o;
     bucket_name := bucket_name o; key_prefix := key_prefix o;
     url_parts := url_parts o; auth := auth o; bucket := b |}.

Definition set_auth (a : option Auth) (o : Backend) : Backend :=
  {| endpoint := endpoint o; access_key_id := access_key_id o;
     access_key_secret := access_key_secret o; scheme := scheme o;
     bucket_name := bucket_name o; key_prefix := key_prefix o;
     url_parts := url_parts o; auth := a; bucket := bucket o |}.

Definition set_oss (m : gmap string (gmap string string)) (w : World) : World :=
  {| oss := m; files := files w |}.

Definition set_files (m : gmap string string) (w : World) : World :=
  {| oss := oss w; files := m |}.

Definition modify_self (f : Backend -> Backend) : M State unit :=
  fun s => (Ok tt, {| self := f (self s); world := world s |}).

Definition modify_world (f : World -> World) : M State unit :=
  fun s => (Ok tt, {| self := self s; world := f (world s) |}).

Definition get_self : M State Backend := fun s => (Ok (self s), s).

(** Reading [self.bucket] raises [AttributeError] once the attribute has
    been deleted. *)
Definition self_bucket : M State Bucket :=
  fun s =>
    match bucket (self s) with
    | Some b => (Ok b, s)
    | None => (Raise (AttributeError "bucket"), s)
    end.

(** *** The calls into the oss2 SDK

    The SDK is an external library.  These are the answers of the service
    the backend relies on: a missing bucket is [NoSuchBucket], a missing key
    is [NoSuchKey] for reads, and deleting a missing key is accepted. *)
Module Oss2.

Definition bucket_content (b : Bucket) : M State (gmap string string) :=
  fun s =>
    match oss (world s) !! bucket_handle_name b with
    | Some objects => (Ok objects, s)
    | None => (Raise NoSuchBucket, s)
    end.

Definition get_bucket_acl (b : Bucket) : M State unit :=
  _ ← bucket_content b; mret tt.

Definition create_bucket (b : Bucket) : M State unit :=
  modify_world (fun w =>
    match oss w !! bucket_handle_name b with
    | Some _ => w
    | None => set_oss (<[bucket_handle_name b := ∅]> (oss w)) w
    end).

(** [get_object_meta(key).content_length] *)
Definition get_object_meta (b : Bucket) (key : string) : M State Z :=
  objects ← bucket_content b;
  match objects !! key with
  | Some content => mret (Z.of_nat (String.length content))
  | None => raise NoSuchKey
  end.

Definition delete_object (b : Bucket) (key : string) : M State unit :=
  objects ← bucket_content b;
  modify_world (fun w => set_oss (<[bucket_handle_name b := delete key objects]> (oss w)) w).

(** [get_object_to_file(key, filename)] opens the local file for writing,
    which creates or empties it, before it asks the service for the
    object. *)
Definition get_object_to_file (b : Bucket) (key filename : string) : M State unit :=
  _ ← modify_world (fun w => set_files (<[filename := EmptyString]> (files w)) w);
  objects ← bucket_content b;
  match objects !! key with
  | Some content => modify_world (fun w => set_files (<[filename := content]> (files w)) w)
  | None => raise NoSuchKey
  end.

Definition resumable_upload (b : Bucket) (key filename : string) (num_threads : Z)
  : M State unit :=
  s ← get_state;
  match files (world s) !! filename with
  | None => raise (IOError filename)
  | Some content =>
      objects ← bucket_content b;
      modify_world (fun w => set_oss (<[bucket_handle_name b := <[key := content]> objects]> (oss w)) w)
  end.

(** The service lists the keys of a bucket in alphabetical order. *)
Definition key_le (a b : string) : Prop := String.leb a b = true.

#[global] Instance key_le_dec (a b : string) : Decision (key_le a b) :=
  bool_eq_dec (String.leb a b) true.

(** [oss2.ObjectIterator(bucket, prefix=prefix)]: the keys of the objects
    whose key starts with [prefix]. *)
Definition ObjectIterator (b : Bucket) (prefix : string) : M State (list string) :=
  objects ← bucket_content b;
  mret (List.filter (PyStr.startswith prefix)
          (merge_sort key_le (map fst (map_to_list objects)))).

End Oss2.

(** *** Construction *)

Definition config_filename : string := "~/.alicloud.cfg".

(** [cfgparser.get(section, option)] *)
Definition cfg_get (cfg : gmap string (gmap string string)) (section option : string)
  : result string :=
  match cfg !! section with
  | None => Raise (NoSectionError section)
  | Some options =>
      match options !! option with
      | None => Raise (NoOptionError option section)
      | Some v => Ok v
      end
  end.

Definition is_empty (s : string) : bool := negb (PyStr.nonempty s).

(** [get_alicloud_configuration]: the endpoint, the key id and the key
    secret, in this order. *)
Definition get_alicloud_configuration (env : Environment)
  : result (string * string * string) :=
  match environ env !! "ALICLOUD_OSS_ENDPOINT",
        environ env !! "ALICLOUD_ACCESS_KEY_ID",
        environ env !! "ALICLOUD_ACCESS_KEY_SECRET" with
  | Some e, Some k, Some sec =>
      if is_empty e || is_empty k || is_empty sec
      then Raise (BackendException
        "AliCloud OSS Endpoint or AccessKeyId or AccessKeySecret got from environment variables are invalid.")
      else Ok (e, k, sec)
  | _, _, _ =>
      match config_file env with
      | None => Raise (BackendException
          ("Please set Endpoint, AccessKeyId, AccessKeySecret in the enviroment variables or in the configuration file "
             +:+ config_filename +:+ "."))
      | Some cfg =>
          if negb (has_configparser env)
          then Raise (BackendException "AliCloud backend requires configparser module.")
          else
            e ← cfg_get cfg "oss" "endpoint";
            k ← cfg_get cfg "oss" "access_key_id";
            sec ← cfg_get cfg "oss" "access_key_secret";
            if is_empty e || is_empty k || is_empty sec
            then Raise (BackendException
              ("AliCloud OSS Endpoint or AccessKeyId or AccessKeySecret in "
                 +:+ config_filename +:+ " are invalid."))
            else Ok (e, k, sec)
      end
  end.

(** The two lines of [__init__] that compute [url_parts] and [key_prefix]. *)
Definition url_parts_of (path : string) : list string :=
  List.filter PyStr.nonempty (PyStr.split "/"%char path).

Definition key_prefix_of (path : string) : string :=
  match url_parts_of path with
  | [] => EmptyString
  | parts => PyStr.join "/" parts +:+ "/"
  end.

Definition bucket_exists : M State bool :=
  b ← self_bucket;
  try_except (_ ← Oss2.get_bucket_acl b; mret true)
    (fun e => match e with NoSuchBucket => Some (mret false) | _ => None end).

Definition reset_connection : M State unit :=
  _ ← modify_self (set_bucket None);
  o ← get_self;
  let a := {| auth_key_id := access_key_id o; auth_key_secret := access_key_secret o |} in
  _ ← modify_self (set_auth (Some a));
  _ ← modify_self (set_bucket (Some
        {| bucket_auth := a; bucket_endpoint := endpoint o;
           bucket_handle_name := bucket_name o |}));
  ex ← bucket_exists;
  if negb ex then
    b ← self_bucket; Oss2.create_bucket b
  else mret tt.

(** [AliCloudBackend(parsed_url)], run against the service [w]. *)
Definition init (env : Environment) (parsed_url : ParsedUrl) (w : World)
  : result State :=
  if negb (has_oss2 env)
  then Raise (BackendException "AliCloud backend requires OSS Python SDK library.")
  else
    '(e, k, sec) ← get_alicloud_configuration env;
    match url_hostname parsed_url with
    | Some name =>
        if PyStr.nonempty name then
          let o := {| endpoint := e; access_key_id := k; access_key_secret := sec;
                      scheme := url_scheme parsed_url; bucket_name := name;
                      key_prefix := key_prefix_of (url_path parsed_url);
                      url_parts := url_parts_of (url_path parsed_url);
                      auth := None; bucket := None |} in
          match reset_connection {| self := o; world := w |} with
          | (Ok _, s) => Ok s
          | (Raise ex, _) => Raise ex
          end
        else Raise (BackendException "AliCloud OSS requires a bucket name.")
    | None => Raise (BackendException "AliCloud OSS requires a bucket name.")
    end.

(** *** Operations *)

Record SourcePath : Type := { path_name : string }.

Definition _put (source_path : SourcePath) (remote_filename : string) : M State unit :=
  o ← get_self;
  let key_name := key_prefix o +:+ remote_filename in
  let multipart_parallel := 5 in
  b ← self_bucket;
  Oss2.resumable_upload b key_name (path_name source_path) multipart_parallel.

Definition _get (remote_filename : string) (local_path : SourcePath) : M State unit :=
  o ← get_self;
  let key_name := key_prefix o +:+ remote_filename in
  b ← self_bucket;
  Oss2.get_object_to_file b key_name (path_name local_path).

Definition _delete (filename : string) : M State unit :=
  b ← self_bucket;
  o ← get_self;
  Oss2.delete_object b (key_prefix o +:+ filename).

Fixpoint _delete_list (filename_list : list string) : M State unit :=
  match filename_list with
  | [] => mret tt
  | filename :: rest => _ ← _delete filename; _delete_list rest
  end.

(** The dictionary [{'size': n}]. *)
Record QueryResult : Type := { size : Z }.

Definition _query (filename : string) : M State QueryResult :=
  o ← get_self;
  let key_name := key_prefix o +:+ filename in
  file_size ← try_except
      (b ← self_bucket; Oss2.get_object_meta b key_name)
      (fun e => match e with NoSuchKey => Some (mret (-1)) | _ => None end);
  mret {| size := file_size |}.

Fixpoint _query_list_from (query_dict : gmap string QueryResult)
    (filename_list : list string) : M State (gmap string QueryResult) :=
  match filename_list with
  | [] => mret query_dict
  | filename :: rest =>
      r ← _query filename;
      _query_list_from (<[filename := r]> query_dict) rest
  end.

Definition _query_list (filename_list : list string) : M State (gmap string QueryResult) :=
  _query_list_from ∅ filename_list.

Definition _retry_cleanup : M State unit := reset_connection.

Definition _close : M State unit := modify_self (set_bucket None).

(** [list_filenames_in_bucket]: an item of the iterator always has its
    [key], so the [except AttributeError] branch of the loop is never
    entered. *)
Definition list_filenames_in_bucket : M State (list string) :=
  b ← self_bucket;
  o ← get_self;
  items ← Oss2.ObjectIterator b (key_prefix o);
  mret (map (fun key => PyStr.replace_first (key_prefix o) EmptyString key) items).

Definition _list : M State (list string) := list_filenames_in_bucket.

(** *** Notions used to state the properties *)

(** Paths that differ only in leading, trailing or repeated slashes. *)
Inductive same_up_to_slashes : string -> string -> Prop :=
| slashes_refl (p : string) : same_up_to_slashes p p
| slashes_sym (p q : string) : same_up_to_slashes p q -> same_up_to_slashes q p
| slashes_trans (p q r : string) :
    same_up_to_slashes p q -> same_up_to_slashes q r -> same_up_to_slashes p r
| slashes_leading (p : string) : same_up_to_slashes ("/" +:+ p) p
| slashes_trailing (p : string) : same_up_to_slashes (p +:+ "/") p
| slashes_repeated (a b : string) :
    same_up_to_slashes (a +:+ "//" +:+ b) (a +:+ "/" +:+ b).

(** The session is open: the instance holds a bucket handle and the bucket
    it names exists on the service, with the objects [objects]. *)
Definition connected (s : State) (objects : gmap string string) : Prop :=
  exists b, bucket (self s) = Some b
            /\ oss (world s) !! bucket_handle_name b = Some objects.

(** The remote key that an operation on [filename] addresses. *)
Definition remote_key (s : State) (filename : string) : string :=
  key_prefix (self s) +:+ filename.

(** The state in which the open bucket holds [objects] instead. *)
Definition with_objects (s : State) (objects : gmap string string) : State :=
  match bucket (self s) with
  | Some b =>
      {| self := self s;
         world := set_oss (<[bucket_handle_name b := objects]> (oss (world s))) (world s) |}
  | None => s
  end.

Definition with_file (s : State) (filename content : string) : State :=
  {| self := self s;
     world := set_files (<[filename := content]> (files (world s))) (world s) |}.

(** The size that [_query] reports for a key of the open bucket. *)
Definition size_of (objects : gmap string string) (key : string) : Z :=
  match objects !! key with
  | Some content => Z.of_nat (String.length content)
  | None => -1
  end.

(** What [reset_connection] assigns to [self.auth] and [self.bucket]. *)
Definition fresh_auth (o : Backend) : Auth :=
  {| auth_key_id := access_key_id o; auth_key_secret := access_key_secret o |}.

Definition fresh_bucket (o : Backend) : Bucket :=
  {| bucket_auth := fresh_auth o; bucket_endpoint := endpoint o;
     bucket_handle_name := bucket_name o |}.

Definition reopened (o : Backend) : Backend :=
  set_bucket (Some (fresh_bucket o)) (set_auth (Some (fresh_auth o)) (set_bucket None o)).





(** The instance as [__init__] has filled it in when it calls
    [reset_connection]: the three configured values [v], the scheme and the
    path of the URL, and the bucket [name]. *)
Definition configured (v : string * string * string) (parsed_url : ParsedUrl)
    (name : string) : Backend :=
  let '(e, k, sec) := v in
  {| endpoint := e; access_key_id := k; access_key_secret := sec;
     scheme := url_scheme parsed_url; bucket_name := name;
     key_prefix := key_prefix_of (url_path parsed_url);
     url_parts := url_parts_of (url_path parsed_url);
     auth := None; bucket := None |}.

(** The dictionary that [_query_list] builds on an open session, starting
    from [query_dict]. *)
Definition answers (s : State) (objects : gmap string string)
    (query_dict : gmap string QueryResult) (filename_list : list string)
  : gmap string QueryResult :=
  fold_left
    (fun d filename => <[filename := {| size := size_of objects (remote_key s filename) |}]> d)
    filename_list query_dict.

(** *** Sample values *)

Definition sample_backend : Backend :=
  {| endpoint := "oss-cn-hangzhou.aliyuncs.com"; access_key_id := "id";
     access_key_secret := "secret"; scheme := "oss"; bucket_name := "bucket";
     key_prefix := key_prefix_of "///key_prefix/";
     url_parts := url_parts_of "///key_prefix/"; auth := None; bucket := None |}.

Definition sample_objects : gmap string string :=
  {[ "key_prefix/present" := "data" ]}.

(** An open session on a bucket that holds one object. *)
Definition sample_state : State :=
  {| self := reopened sample_backend;
     world := {| oss := {[ "bucket" := sample_objects ]}; files := ∅ |} |}.


Definition sample_url : ParsedUrl :=
  {| url_scheme := "oss"; url_hostname := Some "bucket"; url_port := None;
     url_path := "///key_prefix/"; url_username := None |}.

(** A volume on the local disk, next to the open session. *)
Definition sample_source : SourcePath := {| path_name := "/tmp/volume" |}.

Definition sample_target : SourcePath := {| path_name := "/tmp/restored" |}.

Definition sample_state_with_file : State :=
  with_file sample_state (path_name sample_source) "payload".

(** The three variables set, no configuration file. *)
Definition sample_environment : Environment :=
  {| environ := {[ "ALICLOUD_OSS_ENDPOINT" := "oss-cn-hangzhou.aliyuncs.com";
                   "ALICLOUD_ACCESS_KEY_ID" := "id";
                   "ALICLOUD_ACCESS_KEY_SECRET" := "secret" ]};
     config_file := None; has_configparser := true; has_oss2 := true |}.

(** A service without any bucket and an empty disk. *)
Definition empty_world : World := {| oss := ∅; files := ∅ |}.

(** The instance that the constructor builds for [sample_url] on
    [empty_world]. *)
Definition sample_session : State :=
  match init sample_environment sample_url empty_world with
  | Ok s => s
  | Raise _ => sample_state
  end.

End AliCloud.

(** ** The WebDAV backend (duplicity/backends/webdavbackend.py) *)

Module WebDAV.

Inductive ConnectionClass : Type :=
| HTTPConnection
| HTTPSConnection
| VerifiedHTTPSConnection (cacert_file : option string).

Record Connection : Type := {
  conn_host : option string;
  conn_port : option Z;
  conn_class : ConnectionClass
}.

Record Request : Type := {
  req_method : string;
  req_path : string;
  req_data : option string;
  req_headers : gmap string (option string)
}.

Record Response : Type := {
  status : Z;
  reason : string;
  resp_headers : gmap string string;
  body : string
}.

(** [response.getheader(name, None)] *)
Definition getheader (r : Response) (name : string) : option string :=
  resp_headers r !! name.

(** The part of a minidom document that [_list] reads: the child nodes of
    every [d:href] element and of every [D:href] element, in document
    order. *)
Inductive Node : Type :=
| TEXT_NODE (data : string)
| OTHER_NODE.

Record Document : Type := {
  d_href : list (list Node);
  D_href : list (list Node)
}.

(** The attributes of a [WebDAVBackend] instance. *)
Record Backend : Type := {
  headers : gmap string (option string);
  parsed_url : ParsedUrl;
  digest_challenge : option string;
  username : option string;
  password : option string;
  directory : string;
  conn : option Connection
}.

(** Everything outside the backend class: the server behind the connection,
    the libraries ([duplicity.backend.ParsedUrl], urllib, urlparse, minidom,
    the authorization helpers) and the settings in [duplicity.globals]. *)
Record Platform (Net : Type) : Type := {
  (** [conn.request(...)] followed by [conn.getresponse()] *)
  send : Connection -> Request -> Net -> result Response * Net;
  new_ParsedUrl : string -> result ParsedUrl;
  (** [urllib.quote(path, "/:~")] and [urllib.unquote] *)
  quote : string -> string;
  unquote : string -> string;
  (** [urlparse.urlparse(u)]: its [hostname] and its [path] *)
  urlparse : string -> option string * string;
  parseString : string -> result Document;
  (** the header value and the digest challenge it leaves behind *)
  get_authorization : Backend -> Response -> string -> option string * option string;
  get_digest_authorization : Backend -> string -> string;
  ssl_no_check_certificate : bool;
  ssl_cacert_file : option string;
  have_ssl : bool;
  isfile : string -> bool;
  readable : string -> bool
}.
Arguments send {Net}.
Arguments new_ParsedUrl {Net}.
Arguments quote {Net}.
Arguments unquote {Net}.
Arguments urlparse {Net}.
Arguments parseString {Net}.
Arguments get_authorization {Net}.
Arguments get_digest_authorization {Net}.
Arguments ssl_no_check_certificate {Net}.
Arguments ssl_cacert_file {Net}.
Arguments have_ssl {Net}.
Arguments isfile {Net}.
Arguments readable {Net}.

(** [sent] records the requests put on the wire, oldest first. *)
Record State (Net : Type) : Type := {
  self : Backend;
  net : Net;
  sent : list Request
}.
Arguments self {Net}.
Arguments net {Net}.
Arguments sent {Net}.

Definition dquote : string := String (ascii_of_nat 34) EmptyString.

Definition listbody : string :=
  "<?xml version=" +:+ dquote +:+ "1.0" +:+ dquote +:+ "?><D:propfind xmlns:D="
    +:+ dquote +:+ "DAV:" +:+ dquote
    +:+ "><D:prop><D:resourcetype/></D:prop></D:propfind>".

Definition sanitize_path (path : string) : string :=
  if PyStr.nonempty path then PyStr.fold_slashes (path +:+ "/") else "/".

Fixpoint getText (nodelist : list Node) : string :=
  match nodelist with
  | [] => EmptyString
  | TEXT_NODE data :: rest => data +:+ getText rest
  | OTHER_NODE :: rest => getText rest
  end.

Definition set_headers (h : gmap string (option string)) (o : Backend) : Backend :=
  {| headers := h; parsed_url := parsed_url o; digest_challenge := digest_challenge o;
     username := username o; password := password o; directory := directory o;
     conn := conn o |}.

Definition set_conn (c : option Connection) (o : Backend) : Backend :=
  {| headers := headers o; parsed_url := parsed_url o;
     digest_challenge := digest_challenge o; username := username o;
     password := password o; directory := directory o; conn := c |}.

Definition set_digest_challenge (d : option string) (o : Backend) : Backend :=
  {| headers := headers o; parsed_url := parsed_url o; digest_challenge := d;
     username := username o; password := password o; directory := directory o;
     conn := conn o |}.

(** No two adjacent slashes. *)
Fixpoint no_repeated_slash (s : string) : bool :=
  match s with
  | String a (String b _ as s') =>
      negb (Ascii.eqb a "/" && Ascii.eqb b "/") && no_repeated_slash s'
  | _ => true
  end.

(** [self.parsed_url = u; self.directory = d] *)
Definition set_target (u : ParsedUrl) (d : string) (o : Backend) : Backend :=
  {| headers := headers o; parsed_url := u; digest_challenge := digest_challenge o;
     username := username o; password := password o; directory := d;
     conn := conn o |}.

Section Transport.
Context {Net : Type} (P : Platform Net).

Definition get_self : M (State Net) Backend := fun s => (Ok (self s), s).

Definition modify_self (f : Backend -> Backend) : M (State Net) unit :=
  fun s => (Ok tt, {| self := f (self s); net := net s; sent := sent s |}).

Definition cacert_candidates : list string :=
  ["~/.duplicity/cacert.pem"; "~/duplicity_cacert.pem"; "/etc/duplicity/cacert.pem"].

(** [VerifiedHTTPSConnection.__init__]; [isfile] and [readable] are asked
    about the expanded path. *)
Definition new_VerifiedHTTPSConnection (host : option string) (port : option Z)
  : result Connection :=
  if negb (have_ssl P)
  then Raise (FatalBackendException "Missing socket or ssl python modules.")
  else
    let cacert_file :=
      match ssl_cacert_file P with
      | Some f => if PyStr.nonempty f then Some f else List.find (isfile P) cacert_candidates
      | None => List.find (isfile P) cacert_candidates
      end in
    match cacert_file with
    | Some f =>
        if PyStr.nonempty f && negb (readable P f)
        then Raise (FatalBackendException
               ("Cacert database file '" +:+ f +:+ "' is not readable."))
        else Ok {| conn_host := host; conn_port := port;
                   conn_class := VerifiedHTTPSConnection cacert_file |}
    | None => Ok {| conn_host := host; conn_port := port;
                    conn_class := VerifiedHTTPSConnection None |}
    end.

(** Closing a connection keeps the connection object. *)
Definition _close : M (State Net) unit := mret tt.

Definition in_list (x : string) (l : list string) : bool :=
  existsb (String.eqb x) l.

Definition connect (forced : bool) : M (State Net) unit :=
  o ← get_self;
  let same_host :=
    match conn o with
    | Some c => bool_decide (conn_host c = url_hostname (parsed_url o))
    | None => false
    end in
  if negb forced && same_host then mret tt
  else
    _ ← _close;
    let host := url_hostname (parsed_url o) in
    let port := url_port (parsed_url o) in
    if in_list (url_scheme (parsed_url o)) ["webdav"; "http"] then
      modify_self (set_conn (Some
        {| conn_host := host; conn_port := port; conn_class := HTTPConnection |}))
    else if in_list (url_scheme (parsed_url o)) ["webdavs"; "https"] then
      if ssl_no_check_certificate P then
        modify_self (set_conn (Some
          {| conn_host := host; conn_port := port; conn_class := HTTPSConnection |}))
      else
        c ← lift (new_VerifiedHTTPSConnection host port);
        modify_self (set_conn (Some c))
    else
      raise (FatalBackendException
        ("WebDAV Unknown URI scheme: " +:+ url_scheme (parsed_url o))).

Definition _retry_cleanup : M (State Net) unit := connect true.

(** [self.conn.request(method, path, data, self.headers)] and
    [self.conn.getresponse()] *)
Definition conn_request (method quoted_path : string) (data : option string)
  : M (State Net) Response :=
  fun s =>
    match conn (self s) with
    | None => (Raise (AttributeError "request"), s)
    | Some c =>
        let req := {| req_method := method; req_path := quoted_path;
                      req_data := data; req_headers := headers (self s) |} in
        let '(r, n) := send P c req (net s) in
        (r, {| self := self s; net := n; sent := sent s ++ [req] |})
    end.

(** The first half of [request]: up to the first response. *)
Definition first_response (method path : string) (data : option string)
  : M (State Net) (Response * string) :=
  _ ← _close;
  _ ← connect false;
  let quoted_path := quote P path in
  o ← get_self;
  _ ← match digest_challenge o with
      | Some _ =>
          modify_self (set_headers
            (<["Authorization" := Some (get_digest_authorization P o path)]> (headers o)))
      | None => mret tt
      end;
  response ← conn_request method quoted_path data;
  mret (response, quoted_path).

(** The [elif response.status == 401] branch and the final [return]. *)
Definition authorized_response (method quoted_path : string) (data : option string)
    (response : Response) : M (State Net) Response :=
  if status response =? 401 then
    o ← get_self;
    let '(hdr, challenge) := get_authorization P o response quoted_path in
    _ ← modify_self (set_digest_challenge challenge);
    o ← get_self;
    _ ← modify_self (set_headers (<["Authorization" := hdr]> (headers o)));
    conn_request method quoted_path data
  else mret response.

Inductive Redirection : Type :=
| NotRedirected
| RedirectTo (redirect_url : string)
| RedirectNowhere.

(** [response.status in [301, 302] and method == 'PROPFIND'], then
    the test [if redirect_url]. *)
Definition redirection (method : string) (response : Response) : Redirection :=
  if ((status response =? 301) || (status response =? 302)) && String.eqb method "PROPFIND"
  then match getheader response "location" with
       | Some u => if PyStr.nonempty u then RedirectTo u else RedirectNowhere
       | None => RedirectNowhere
       end
  else NotRedirected.

Equations? request (method path : string) (data : option string) (redirected : Z)
    (s : State Net) : result Response * State Net
    by wf (Z.to_nat (12 - redirected)) lt :=
  request method path data redirected s with first_response method path data s := {
    | (Raise e, s1) := (Raise e, s1);
    | (Ok (response, quoted_path), s1) with redirection method response := {
        | NotRedirected := authorized_response method quoted_path data response s1;
        | RedirectNowhere :=
            (Raise (FatalBackendException
               "WebDAV missing location header in redirect response."), s1);
        | RedirectTo redirect_url with Z_gt_dec redirected 10 := {
            | left _ :=
                (Raise (FatalBackendException "WebDAV redirected 10 times. Giving up."), s1);
            | right _ with new_ParsedUrl P redirect_url := {
                | Raise e := (Raise e, s1);
                | Ok u :=
                    let d := sanitize_path (url_path u) in
                    request method d data (redirected + 1)
                      {| self := set_target u d (self s1); net := net s1; sent := sent s1 |}
              }
          }
      }
  }.
Proof. lia. Qed.

Definition set_Depth : M (State Net) unit :=
  o ← get_self;
  modify_self (set_headers (<["Depth" := Some "1"]> (headers o))).

Definition del_Depth : M (State Net) unit :=
  o ← get_self;
  modify_self (set_headers (delete "Depth" (headers o))).

(** The body of the [for] loop of [makedir] for one index [i]. *)
Definition makedir_step (dirs : list string) (i : nat) : M (State Net) unit :=
  let d := PyStr.join "/" (take (i + 1) dirs) +:+ "/" in
  _ ← set_Depth;
  response ← (request "PROPFIND" d None 0 : M (State Net) Response);
  _ ← del_Depth;
  if status response =? 404 then
    res ← (request "MKCOL" d None 0 : M (State Net) Response);
    if negb (status res =? 201) then
      raise (BackendException
        ("WebDAV MKCOL " +:+ d +:+ " failed: " +:+ PyStr.str_of_Z (status res)
           +:+ " " +:+ reason res))
    else mret tt
  else mret tt.

Fixpoint for_each {A} (l : list A) (body : A -> M (State Net) unit) : M (State Net) unit :=
  match l with
  | [] => mret tt
  | x :: rest => _ ← body x; for_each rest body
  end.

Definition makedir : M (State Net) unit :=
  o ← get_self;
  let dirs := PyStr.split "/" (directory o) in
  let dirs :=
    match List.last dirs "x" with
    | EmptyString => removelast dirs
    | _ => dirs
    end in
  for_each (seq 1 (length dirs - 1)) (makedir_step dirs).

Definition hostname_mismatch_message (got expected : option string) : string :=
  "Received filename was in the form of a full url, but the hostname ("
    +:+ PyStr.str_of_option got
    +:+ ") did not match that of the webdav backend url ("
    +:+ PyStr.str_of_option expected
    +:+ ") - aborting as a conservative safety measure. If this happens to you, please report the problem".

(** [taste_href]: the file name below [self.directory], or [None]. *)
Definition taste_href (href : list Node) : M (State Net) (option string) :=
  let raw_filename := PyStr.strip (getText href) in
  let '(hostname, path) := urlparse P (unquote P raw_filename) in
  let filename := path in
  o ← get_self;
  match hostname with
  | Some h =>
      if negb (bool_decide (hostname = url_hostname (parsed_url o)))
      then raise (BackendException
             (hostname_mismatch_message hostname (url_hostname (parsed_url o))))
      else mret tt
  | None => mret tt
  end;;
  if PyStr.startswith (directory o) filename
  then mret (Some (PyStr.replace_first (directory o) EmptyString filename))
  else mret None.

(** The [for href in ...] loop of [_list], with [result] as built so far. *)
Fixpoint taste_all (hrefs : list (list Node)) (result : list string)
  : M (State Net) (list string) :=
  match hrefs with
  | [] => mret result
  | href :: rest =>
      filename ← taste_href href;
      match filename with
      | Some f =>
          if PyStr.nonempty f then taste_all rest (result ++ [f])
          else taste_all rest result
      | None => taste_all rest result
      end
  end.

Definition _list : M (State Net) (list string) :=
  _ ← set_Depth;
  o ← get_self;
  response ← (request "PROPFIND" (directory o) (Some listbody) 0 : M (State Net) Response);
  _ ← del_Depth;
  if status response =? 404 then
    _ ← makedir; mret []
  else if (status response =? 200) || (status response =? 207) then
    let document := body response in
    dom ← lift (parseString P document);
    taste_all (d_href dom ++ D_href dom) []
  else
    raise (BackendException
      ("Bad status code " +:+ PyStr.str_of_Z (status response)
         +:+ " reason " +:+ reason response +:+ ".")).

Definition _delete (filename : string) : M (State Net) unit :=
  o ← get_self;
  let url := directory o +:+ filename in
  response ← (request "DELETE" url None 0 : M (State Net) Response);
  if (status response =? 200) || (status response =? 204) then mret tt
  else
    raise (BackendException
      ("WebDAV DEL Bad status code " +:+ PyStr.str_of_Z (status response)
         +:+ " reason " +:+ reason response +:+ ".")).

(** The local disk next to the session: [_get] and [_put] read and write
    files by name. *)
Record Local : Type := {
  session : State Net;
  disk : gmap string string
}.

(** The [name] of a [duplicity.path.Path]. *)
Record Path : Type := { name : string }.

Definition on_session {A} (m : M (State Net) A) : M Local A :=
  fun l =>
    let '(r, s) := m (session l) in
    (r, {| session := s; disk := disk l |}).

(** [path.open("rb").read()]: a missing file raises [IOError]. *)
Definition read_file (p : Path) : M Local string :=
  fun l =>
    match disk l !! name p with
    | Some content => (Ok content, l)
    | None => (Raise (IOError (name p)), l)
    end.

(** [path.open("wb")] creates the file or empties it. *)
Definition open_wb (p : Path) : M Local unit :=
  fun l => (Ok tt, {| session := session l; disk := <[name p := EmptyString]> (disk l) |}).

(** [target_file.write(data)] on a file opened by [open_wb]. *)
Definition write_file (p : Path) (data : string) : M Local unit :=
  fun l =>
    (Ok tt, {| session := session l;
               disk := <[name p := default EmptyString (disk l !! name p) +:+ data]> (disk l) |}).

Definition _get (remote_filename : string) (local_path : Path) : M Local unit :=
  o ← on_session get_self;
  let url := directory o +:+ remote_filename in
  _ ← open_wb local_path;
  response ← on_session (request "GET" url None 0 : M (State Net) Response);
  if status response =? 200 then
    write_file local_path (body response)
  else
    raise (BackendException
      ("WebDAV GET Bad status code " +:+ PyStr.str_of_Z (status response)
         +:+ " reason " +:+ reason response +:+ ".")).

Definition _put (source_path : Path) (remote_filename : string) : M Local unit :=
  o ← on_session get_self;
  let url := directory o +:+ remote_filename in
  data ← read_file source_path;
  response ← on_session (request "PUT" url (Some data) 0 : M (State Net) Response);
  if (status response =? 200) || (status response =? 201) || (status response =? 204)
  then mret tt
  else
    raise (BackendException
      ("WebDAV PUT Bad status code " +:+ PyStr.str_of_Z (status response)
         +:+ " reason " +:+ reason response +:+ ".")).

(** *** Notions used to state the properties *)

(** The path that [taste_href] reads from an href. *)
Definition href_path (href : list Node) : string :=
  snd (urlparse P (unquote P (PyStr.strip (getText href)))).

(** The test of [connect]: there is a connection and it is one to the host
    of the URL. *)
Definition same_host (o : Backend) : bool :=
  match conn o with
  | Some c => bool_decide (conn_host c = url_hostname (parsed_url o))
  | None => false
  end.

(** What is left of [path] below [directory], when it is below it. *)
Definition below (directory path : string) : option string :=
  if PyStr.startswith directory path
  then Some (PyStr.drop (String.length directory) path)
  else None.

(** The instance as [request] has it when it sends its first request from
    the connected state [s0]: with the digest authorization for [path] when
    a challenge is known. *)
Definition ready (s0 : State Net) (path : string) : Backend :=
  match digest_challenge (self s0) with
  | Some _ =>
      set_headers (<["Authorization" := Some (get_digest_authorization P (self s0) path)]>
                     (headers (self s0))) (self s0)
  | None => self s0
  end.

(** From [s] to [s'] the log of requests has only grown, and only by
    requests whose method is one of [methods]. *)
Definition sends_only (methods : list string) (s s' : State Net) : Prop :=
  exists new,
    sent s' = (sent s ++ new)%list
    /\ Forall (fun r => in_list (req_method r) methods = true) new.

(** From [s] to [s'] no header other than [Authorization] has changed. *)
Definition keeps_headers (s s' : State Net) : Prop :=
  forall k, k <> "Authorization" -> headers (self s') !! k = headers (self s) !! k.

(** The host name that [taste_href] reads from an href. *)
Definition href_hostname (href : list Node) : option string :=
  fst (urlparse P (unquote P (PyStr.strip (getText href)))).

(** The href is a full URL whose host name is not the backend's. *)
Definition foreign (o : Backend) (href : list Node) : bool :=
  match href_hostname href with
  | Some h => negb (bool_decide (Some h = url_hostname (parsed_url o)))
  | None => false
  end.

(** The state in which [_list] reads the listing that came with
    [response]: the [Depth] header is removed again. *)
Definition after_listing (s1 : State Net) : State Net :=
  snd (del_Depth s1).

(** The state in which [_list] sends its request. *)
Definition before_listing (s : State Net) : State Net :=
  snd (set_Depth s).

End Transport.

(** *** Sample platforms *)

(** A small WebDAV server over a set of stored paths: DELETE answers 204
    for a stored path and 404 for an absent one, PROPFIND answers 207 with a
    listing, everything else 200. *)
Definition dav_server (c : Connection) (req : Request) (store : gset string)
  : result Response * gset string :=
  let answer (code : Z) (why : string) :=
    Ok {| status := code; reason := why; resp_headers := ∅; body := "listing" |} in
  if String.eqb (req_method req) "DELETE" then
    if bool_decide (req_path req ∈ store)
    then (answer 204 "No Content", store ∖ {[req_path req]})
    else (answer 404 "Not Found", store)
  else if String.eqb (req_method req) "PROPFIND" then (answer 207 "Multi-Status", store)
  else (answer 200 "OK", store).

(** A server that answers every request with a redirect. *)
Definition redirecting_server (c : Connection) (req : Request) (n : nat)
  : result Response * nat :=
  (Ok {| status := 301; reason := "Moved Permanently";
         resp_headers := {[ "location" := "http://dav.example/moved/" ]};
         body := EmptyString |}, S n).

(** The host name and the path of a URL of the form [http://host/path];
    anything else is a bare path. *)
Definition sample_urlparse (u : string) : option string * string :=
  if String.prefix "http://" u then
    match PyStr.split "/" (PyStr.drop 7 u) with
    | host :: segments => (Some host, "/" +:+ PyStr.join "/" segments)
    | [] => (None, u)
    end
  else (None, u).

(** A listing with a collection, a file, and a file under another host. *)
Definition sample_document : Document :=
  {| d_href := [];
     D_href := [[TEXT_NODE "/dir/"]; [TEXT_NODE "/dir/file1"];
                [TEXT_NODE "http://other.example/dir/file2"]] |}.

Definition sample_url : ParsedUrl :=
  {| url_scheme := "webdav"; url_hostname := Some "dav.example"; url_port := None;
     url_path := "/dir"; url_username := None |}.

Definition sample_platform {Net : Type}
    (server : Connection -> Request -> Net -> result Response * Net) : Platform Net :=
  {| send := server;
     new_ParsedUrl := fun u =>
       Ok {| url_scheme := "http"; url_hostname := fst (sample_urlparse u);
             url_port := None; url_path := snd (sample_urlparse u);
             url_username := None |};
     quote := fun p => p;
     unquote := fun p => p;
     urlparse := sample_urlparse;
     parseString := fun _ => Ok sample_document;
     get_authorization := fun _ _ _ => (None, None);
     get_digest_authorization := fun _ _ => EmptyString;
     ssl_no_check_certificate := false;
     ssl_cacert_file := None;
     have_ssl := true;
     isfile := fun _ => false;
     readable := fun _ => false |}.

Definition sample_backend : Backend :=
  {| headers := {[ "Connection" := Some "keep-alive" ]}; parsed_url := sample_url;
     digest_challenge := None; username := None; password := None;
     directory := sanitize_path (url_path sample_url); conn := None |}.

Definition sample_state {Net : Type} (n : Net) : State Net :=
  {| self := sample_backend; net := n; sent := [] |}.

Definition empty_store : gset string := ∅.

(** The answer of [dav_server] to the PROPFIND of [_list], and the state it
    arrives in. *)
Definition listed_response : Response :=
  {| status := 207; reason := "Multi-Status"; resp_headers := ∅; body := "listing" |}.

Definition listed_state : State (gset string) :=
  snd (request (sample_platform dav_server) "PROPFIND" "/dir/" (Some listbody) 0
         (before_listing (sample_state empty_store))).

(** An instance for a URL whose scheme is not a WebDAV one. *)
Definition ftp_url : ParsedUrl :=
  {| url_scheme := "ftp"; url_hostname := Some "dav.example"; url_port := None;
     url_path := "/dir"; url_username := None |}.

Definition ftp_state : State (gset string) :=
  {| self := set_target ftp_url (sanitize_path (url_path ftp_url)) sample_backend;
     net := empty_store; sent := [] |}.

(** A listing of the collection itself, of two files, one of them given as
    a full URL of the same host, and of a path outside the collection. *)
Definition local_document : Document :=
  {| d_href := [[TEXT_NODE "/dir/"]; [TEXT_NODE " /dir/file1 "; OTHER_NODE]];
     D_href := [[TEXT_NODE "http://dav.example/dir/file2"];
                [TEXT_NODE "/elsewhere/file3"]] |}.

(** [sample_platform] with a parser that reads [local_document]. *)
Definition listing_platform {Net : Type}
    (server : Connection -> Request -> Net -> result Response * Net) : Platform Net :=
  let P := sample_platform server in
  {| send := send P; new_ParsedUrl := new_ParsedUrl P; quote := quote P;
     unquote := unquote P; urlparse := urlparse P;
     parseString := fun _ => Ok local_document;
     get_authorization := get_authorization P;
     get_digest_authorization := get_digest_authorization P;
     ssl_no_check_certificate := ssl_no_check_certificate P;
     ssl_cacert_file := ssl_cacert_file P; have_ssl := have_ssl P;
     isfile := isfile P; readable := readable P |}.

Definition local_listed_state : State (gset string) :=
  snd (request (listing_platform dav_server) "PROPFIND" "/dir/" (Some listbody) 0
         (before_listing (sample_state empty_store))).

(** A server on which nothing exists yet: MKCOL creates the collection and
    answers 201, every other request is answered with 404.  The state of the
    server is the list of the collections created. *)
Definition fresh_server (c : Connection) (req : Request) (created : list string)
  : result Response * list string :=
  if String.eqb (req_method req) "MKCOL"
  then (Ok {| status := 201; reason := "Created"; resp_headers := ∅; body := EmptyString |},
        (created ++ [req_path req])%list)
  else (Ok {| status := 404; reason := "Not Found"; resp_headers := ∅;
              body := EmptyString |}, created).

Definition missing_response : Response :=
  {| status := 404; reason := "Not Found"; resp_headers := ∅; body := EmptyString |}.

Definition missing_state : State (list string) :=
  snd (request (sample_platform fresh_server) "PROPFIND" "/dir/" (Some listbody) 0
         (before_listing (sample_state []))).

(** The session of [sample_state] next to a disk with one volume. *)
Definition sample_local : @Local (gset string) :=
  {| session := sample_state empty_store; disk := {[ "/tmp/volume" := "payload" ]} |}.

Definition fetched_response : Response :=
  {| status := 200; reason := "OK"; resp_headers := ∅; body := "listing" |}.

Definition fetched_state : State (gset string) :=
  snd (request (sample_platform dav_server) "GET" "/dir/volume1" None 0
         (sample_state empty_store)).

End WebDAV.

(** ** The authorization headers of the WebDAV backend *)

Module WebDAVAuth.
Import WebDAV.

(** The libraries behind the authorization methods, each call with the
    exception it may raise: the ticket that the kerberos module gives for a
    service name (or the failure of its import); [base64.encodestring];
    urllib2's parsing of a digest challenge; and what urllib2's digest
    handler computes for the instance, its stored challenge and a path,
    [None] when the handler gives no header. *)
Record Library : Type := {
  kerberos_ticket : string -> result string;
  encodestring : string -> string;
  parse_keqv_list : string -> result string;
  digest_header : Backend -> string -> result (option string)
}.

Section Authorization.
Context (L : Library).

Definition parse_digest_challenge (challenge_string : string) : result string :=
  parse_keqv_list L challenge_string.

(** [self.conn.host] raises [AttributeError] while there is no
    connection. *)
Definition get_kerberos_authorization (o : Backend) : result string :=
  match conn o with
  | None => Raise (AttributeError "host")
  | Some c =>
      tgt ← kerberos_ticket L ("HTTP@" +:+ PyStr.str_of_option (conn_host c));
      mret ("Negotiate " +:+ tgt)
  end.

Definition get_basic_authorization (o : Backend) : string :=
  let auth_string :=
    PyStr.str_of_option (username o) +:+ ":" +:+ PyStr.str_of_option (password o) in
  "Basic " +:+ PyStr.strip (encodestring L auth_string).

(** The handler object that the method creates on its first call belongs
    to the library; ['Digest %s' % auth_string] prints a missing header as
    [None]. *)
Definition get_digest_authorization (o : Backend) (path : string) : result string :=
  auth_string ← digest_header L o path;
  mret ("Digest " +:+ PyStr.str_of_option auth_string).

(** [get_authorization]: the header value, [None] for Python's [None], or
    the exception that leaves the method, and the instance with the digest
    challenge it may have stored.  Only the Kerberos calls are inside a
    [try]. *)
Definition get_authorization (o : Backend) (response : Response) (path : string)
  : result (option string) * Backend :=
  let auth_hdr := default EmptyString (getheader response "www-authenticate") in
  match PyStr.split_once " " auth_hdr with
  | [token; challenge] =>
      if String.eqb (PyStr.lower (List.hd EmptyString (PyStr.split "," token))) "negotiate"
      then
        match get_kerberos_authorization o with
        | Ok hdr => (Ok (Some hdr), o)
        | Raise _ => (Ok (Some (get_basic_authorization o)), o)
        end
      else if String.eqb (PyStr.lower token) "basic"
      then (Ok (Some (get_basic_authorization o)), o)
      else
        match parse_digest_challenge challenge with
        | Raise e => (Raise e, o)
        | Ok parsed =>
            let o' := set_digest_challenge (Some parsed) o in
            match get_digest_authorization o' path with
            | Ok hdr => (Ok (Some hdr), o')
            | Raise e => (Raise e, o')
            end
        end
  | _ => (Ok None, o)
  end.

(** The scheme token of a [www-authenticate] header, when it has one. *)
Definition scheme_token (response : Response) : option string :=
  match PyStr.split_once " " (default EmptyString (getheader response "www-authenticate")) with
  | [token; _] => Some token
  | _ => None
  end.

Definition is_negotiate (token : string) : bool :=
  String.eqb (PyStr.lower (List.hd EmptyString (PyStr.split "," token))) "negotiate".

Definition is_basic (token : string) : bool :=
  String.eqb (PyStr.lower token) "basic".

End Authorization.

(** A library without kerberos, and an instance with credentials. *)
Definition sample_library : Library :=
  {| kerberos_ticket := fun _ => Raise (OtherError "ImportError");
     encodestring := fun s => s +:+ String (ascii_of_nat 10) EmptyString;
     parse_keqv_list := fun s => Ok s;
     digest_header := fun _ path => Ok (Some path) |}.

(** A library whose digest handler rejects the challenge. *)
Definition strict_library : Library :=
  {| kerberos_ticket := kerberos_ticket sample_library;
     encodestring := encodestring sample_library;
     parse_keqv_list := parse_keqv_list sample_library;
     digest_header := fun _ _ => Raise (OtherError "URLError") |}.

Definition digest_response : Response :=
  {| status := 401; reason := "Unauthorized";
     resp_headers := {[ "www-authenticate" := "Digest qop=x" ]};
     body := EmptyString |}.

Definition negotiate_response : Response :=
  {| status := 401; reason := "Unauthorized";
     resp_headers := {[ "www-authenticate" := "Negotiate, Basic realm=x" ]};
     body := EmptyString |}.

Definition sample_user : Backend :=
  {| headers := headers sample_backend; parsed_url := parsed_url sample_backend;
     digest_challenge := None; username := Some "user"; password := Some "secret";
     directory := directory sample_backend;
     conn := Some {| conn_host := Some "dav.example"; conn_port := None;
                     conn_class := HTTPConnection |} |}.

End WebDAVAuth.

(** ** Waiting for GnuPG (duplicity/gpginterface.py) *)

Module GpgInterface.

(** The child as the kernel holds it: its pid, the termination status word
    that [os.waitpid] would report, and whether it can still be collected
    (a child that was already reaped makes [os.waitpid] raise). *)
Record Child : Type := {
  child_pid : Z;
  wait_status : Z;
  collectable : bool
}.

(** [os.waitpid(pid, 0)] *)
Definition os_waitpid (c : Child) (pid : option Z) : result (Z * Z) :=
  match pid with
  | Some p =>
      if (p =? child_pid c) && collectable c then Ok (p, wait_status c)
      else Raise (OtherError "OSError")
  | None => Raise (OtherError "TypeError")
  end.

(** The attributes of a [Process] that [wait] and [threaded_waitpid] touch.
    [thread] is [None] until [GnuPG.run] starts the thread. *)
Record Process : Type := {
  pid : option Z;
  thread : option unit;
  returned : option Z
}.

Definition set_returned (r : option Z) (p : Process) : Process :=
  {| pid := pid p; thread := thread p; returned := r |}.

(** [Process.__init__] *)
Definition new_Process : Process :=
  {| pid := None; thread := None; returned := None |}.

Definition threaded_waitpid (c : Child) (process : Process) : Process :=
  match os_waitpid c (pid process) with
  | Ok (_, status) => set_returned (Some status) process
  | Raise _ => set_returned (Some 0) process
  end.

(** [self.thread.join()]: when it returns, the thread has run
    [threaded_waitpid] to its end. *)
Definition thread_join (c : Child) : M Process unit :=
  fun p =>
    match thread p with
    | None => (Raise (AttributeError "join"), p)
    | Some _ =>
        match returned p with
        | None => (Ok tt, threaded_waitpid c p)
        | Some _ => (Ok tt, p)
        end
    end.

Definition wait (c : Child) : M Process unit :=
  p ← get_state;
  match returned p with
  | None => thread_join c
  | Some _ => mret tt
  end;;
  p ← get_state;
  match returned p with
  | Some 0 => mret tt
  | Some r =>
      raise (IOError ("GnuPG exited non-zero, with code " +:+ PyStr.str_of_Z (Z.shiftr r 8)))
  | None => raise (OtherError "TypeError")
  end.

(** What [GnuPG.run] leaves behind for the child [c]: the pid, a started
    thread, and [returned] either still unset or already written by the
    thread. *)
Definition started (c : Child) (p : Process) : Prop :=
  pid p = Some (child_pid c)
  /\ thread p = Some tt
  /\ (returned p = None \/ returned p = returned (threaded_waitpid c p)).

(** *** The options of a call ([Options])

    The switches are the integers 0 and 1 in the source and are read by
    their truth value; a string option is [None] until it is set. *)
Record Options : Type := {
  armor : bool;
  no_greeting : bool;
  verbose : bool;
  no_verbose : bool;
  quiet : bool;
  batch : bool;
  always_trust : bool;
  rfc1991 : bool;
  openpgp : bool;
  force_v3_sigs : bool;
  no_options : bool;
  textmode : bool;
  meta_pgp_5_compatible : bool;
  meta_pgp_2_compatible : bool;
  meta_interactive : bool;
  homedir : option string;
  default_key : option string;
  comment : option string;
  compress_algo : option string;
  options : option string;
  encrypt_to : list string;
  recipients : list string;
  hidden_recipients : list string;
  extra_args : list string
}.

(** [Options.__init__] *)
Definition new_Options : Options :=
  {| armor := false; no_greeting := false; verbose := false; no_verbose := false;
     quiet := false; batch := false; always_trust := false; rfc1991 := false;
     openpgp := false; force_v3_sigs := false; no_options := false; textmode := false;
     meta_pgp_5_compatible := false; meta_pgp_2_compatible := false;
     meta_interactive := true;
     homedir := None; default_key := None; comment := None; compress_algo := None;
     options := None;
     encrypt_to := []; recipients := []; hidden_recipients := []; extra_args := [] |}.

(** [if value is not None: args.extend([flag, value])] *)
Definition extend_if_set (flag : string) (value : option string) (args : list string)
  : list string :=
  match value with
  | Some v => (args ++ [flag; v])%list
  | None => args
  end.

(** [if switch: args.append(flag)] *)
Definition append_if (switch : bool) (flag : string) (args : list string) : list string :=
  if switch then (args ++ [flag])%list else args.

(** [for r in keys: args.extend([flag, r])] *)
Definition extend_each (flag : string) (keys : list string) (args : list string)
  : list string :=
  fold_left (fun args r => (args ++ [flag; r])%list) keys args.

Definition get_standard_args (o : Options) : list string :=
  let args := [] in
  let args := extend_if_set "--homedir" (homedir o) args in
  let args := extend_if_set "--options" (options o) args in
  let args := extend_if_set "--comment" (comment o) args in
  let args := extend_if_set "--compress-algo" (compress_algo o) args in
  let args := extend_if_set "--default-key" (default_key o) args in
  let args := append_if (no_options o) "--no-options" args in
  let args := append_if (armor o) "--armor" args in
  let args := append_if (textmode o) "--textmode" args in
  let args := append_if (no_greeting o) "--no-greeting" args in
  let args := append_if (verbose o) "--verbose" args in
  let args := append_if (no_verbose o) "--no-verbose" args in
  let args := append_if (quiet o) "--quiet" args in
  let args := append_if (batch o) "--batch" args in
  let args := append_if (always_trust o) "--always-trust" args in
  let args := append_if (force_v3_sigs o) "--force-v3-sigs" args in
  let args := append_if (rfc1991 o) "--rfc1991" args in
  let args := append_if (openpgp o) "--openpgp" args in
  let args := extend_each "--recipient" (recipients o) args in
  let args := extend_each "--hidden-recipient" (hidden_recipients o) args in
  let args := extend_each "--encrypt-to" (encrypt_to o) args in
  args.

Definition get_meta_args (o : Options) : list string :=
  let args := [] in
  let args :=
    if meta_pgp_5_compatible o
    then (args ++ ["--compress-algo"; "1"; "--force-v3-sigs"])%list else args in
  let args := append_if (meta_pgp_2_compatible o) "--rfc1991" args in
  let args :=
    if negb (meta_interactive o) then (args ++ ["--batch"; "--no-tty"])%list else args in
  args.

Definition get_args (o : Options) : list string :=
  (get_meta_args o ++ get_standard_args o ++ extra_args o)%list.

(** The options of the example in the documentation of [Options], for any
    recipients and extra arguments: a new object with [armor],
    [recipients] and [extra_args] assigned. *)
Definition example_options (armored : bool) (keys extra : list string) : Options :=
  {| armor := armored; no_greeting := false; verbose := false; no_verbose := false;
     quiet := false; batch := false; always_trust := false; rfc1991 := false;
     openpgp := false; force_v3_sigs := false; no_options := false; textmode := false;
     meta_pgp_5_compatible := false; meta_pgp_2_compatible := false;
     meta_interactive := true;
     homedir := None; default_key := None; comment := None; compress_algo := None;
     options := None;
     encrypt_to := []; recipients := keys; hidden_recipients := []; extra_args := extra |}.

(** *** Starting GnuPG ([GnuPG.run], as the parent process goes through it) *)

(** "standard" filehandles attached to processes *)
Definition _stds : list string := ["stdin"; "stdout"; "stderr"].

(** the permissions each type of fh needs to be opened with *)
Definition _fd_modes : gmap string string :=
  list_to_map [("stdin", "w"); ("stdout", "r"); ("stderr", "r"); ("passphrase", "w");
               ("command", "w"); ("logger", "r"); ("status", "r")].

Record Pipe : Type := { parent : Z; child : Z; direct : bool }.

(** A file object: its descriptor and the mode it was opened with. *)
Record File : Type := { fileno : Z; mode : string }.

(** [sys.stdin], [sys.stdout] and [sys.stderr] *)
Definition sys_file (std : string) : File :=
  if String.eqb std "stdin" then {| fileno := 0; mode := "r" |}
  else if String.eqb std "stdout" then {| fileno := 1; mode := "w" |}
  else {| fileno := 2; mode := "w" |}.

Record GnuPG : Type := {
  call : string;
  passphrase : option string;
  gnupg_options : Options
}.

(** The calls that the parent process makes, in the order it makes them. *)
Inductive Syscall : Type :=
| sys_pipe (r w : Z)
| sys_fork (child_pid : Z)
| sys_close (fd : Z)
| sys_fdopen (fd : Z) (mode : string)
| sys_write (fd : Z) (data : string).

(** The operating system as the parent process meets it: [os.pipe] hands
    out the descriptors [next_fd] and [next_fd + 1], [os.fork] creates the
    child [forked], and the thread that waits for the child may have run
    already when [run] looks next ([thread_ran]) or not. *)
Record Os : Type := {
  next_fd : Z;
  trace : list Syscall;
  forked : Child;
  thread_ran : bool
}.

(** The list [create_fhs] and the dictionary [attach_fhs] are the caller's:
    [run] works on the objects it is given. *)
Record RunState : Type := {
  os : Os;
  create_fhs : list string;
  attach_fhs : gmap string File
}.

(** A [Process] with the attributes that [run] fills in; [_pipes] is
    [None] once the attribute has been deleted. *)
Record Spawned : Type := {
  base : Process;
  _pipes : option (gmap string Pipe);
  handles : gmap string File
}.

Definition set_create_fhs (l : list string) (s : RunState) : RunState :=
  {| os := os s; create_fhs := l; attach_fhs := attach_fhs s |}.

Definition set_attach_fhs (m : gmap string File) (s : RunState) : RunState :=
  {| os := os s; create_fhs := create_fhs s; attach_fhs := m |}.

Definition syscall (c : Syscall) : M RunState unit :=
  fun s =>
    (Ok tt, {| os := {| next_fd := next_fd (os s); trace := (trace (os s) ++ [c])%list;
                        forked := forked (os s); thread_ran := thread_ran (os s) |};
               create_fhs := create_fhs s; attach_fhs := attach_fhs s |}).

Definition os_pipe : M RunState (Z * Z) :=
  fun s =>
    let r := next_fd (os s) in
    (Ok (r, r + 1),
     {| os := {| next_fd := r + 2; trace := (trace (os s) ++ [sys_pipe r (r + 1)])%list;
                 forked := forked (os s); thread_ran := thread_ran (os s) |};
        create_fhs := create_fhs s; attach_fhs := attach_fhs s |}).

Definition os_fork : M RunState Z :=
  s ← get_state;
  let pid := child_pid (forked (os s)) in
  _ ← syscall (sys_fork pid);
  mret pid.

Definition os_close (fd : Z) : M RunState unit := syscall (sys_close fd).

Definition os_fdopen (fd : Z) (mode : string) : M RunState File :=
  _ ← syscall (sys_fdopen fd mode);
  mret {| fileno := fd; mode := mode |}.

Fixpoint for_each {S A} (l : list A) (body : A -> M S unit) : M S unit :=
  match l with
  | [] => mret tt
  | x :: rest => _ ← body x; for_each rest body
  end.

(** [name in create_fhs] and [name in attach_fhs] *)
Definition in_create (name : string) (s : RunState) : bool :=
  bool_decide (name ∈ create_fhs s).

Definition in_attach (name : string) (s : RunState) : bool :=
  bool_decide (is_Some (attach_fhs s !! name)).

(** The first loop of [_attach_fork_exec]. *)
Definition check_names (names : list string) : M RunState unit :=
  for_each names (fun fh_name =>
    match _fd_modes !! fh_name with
    | Some _ => mret tt
    | None => raise (OtherError "KeyError")
    end).

(** The second loop: one pipe for each name of [create_fhs]. *)
Fixpoint create_pipes (names : list string) (pipes : gmap string Pipe)
  : M RunState (gmap string Pipe) :=
  match names with
  | [] => mret pipes
  | fh_name :: rest =>
      s ← get_state;
      if in_attach fh_name s then raise (OtherError "ValueError")
      else
        pipe ← os_pipe;
        match _fd_modes !! fh_name with
        | None => raise (OtherError "KeyError")
        | Some m =>
            let pipe := if String.eqb m "w" then (snd pipe, fst pipe) else pipe in
            create_pipes rest
              (<[fh_name := {| parent := fst pipe; child := snd pipe; direct := false |}]> pipes)
        end
  end.

(** The third loop: the files of the caller are used as they are. *)
Definition attach_pipes (items : list (string * File)) (pipes : gmap string Pipe)
  : gmap string Pipe :=
  fold_left (fun pipes item =>
               <[fst item := {| parent := fileno (snd item); child := fileno (snd item);
                                direct := true |}]> pipes)
            items pipes.

(** [thread.start()]: the thread may run [threaded_waitpid] at once. *)
Definition start_thread (p : Process) : M RunState Process :=
  s ← get_state;
  let p := {| pid := pid p; thread := Some tt; returned := returned p |} in
  mret (if thread_ran (os s) then threaded_waitpid (forked (os s)) p else p).

(** The loop of [_as_parent]. *)
Fixpoint open_handles (items : list (string * Pipe)) (handles : gmap string File)
  : M RunState (gmap string File) :=
  match items with
  | [] => mret handles
  | (k, p) :: rest =>
      if direct p then open_handles rest handles
      else
        _ ← os_close (child p);
        match _fd_modes !! k with
        | None => raise (OtherError "KeyError")
        | Some m =>
            fh ← os_fdopen (parent p) m;
            open_handles rest (<[k := fh]> handles)
        end
  end.

Definition _as_parent (process : Spawned) : M RunState Spawned :=
  match _pipes process with
  | None => raise (AttributeError "_pipes")
  | Some pipes =>
      handles ← open_handles (map_to_list pipes) (handles process);
      mret {| base := base process; _pipes := None; handles := handles |}
  end.

(** [_attach_fork_exec] in the parent process, in which [os.fork] returns
    the pid of the child. *)
Definition _attach_fork_exec (self : GnuPG) (gnupg_commands args : list string)
  : M RunState Spawned :=
  let process := new_Process in
  s ← get_state;
  _ ← check_names (create_fhs s ++ map fst (map_to_list (attach_fhs s)));
  pipes ← create_pipes (create_fhs s) ∅;
  let pipes := attach_pipes (map_to_list (attach_fhs s)) pipes in
  pid ← os_fork;
  let process := {| pid := Some pid; thread := thread process;
                    returned := returned process |} in
  process ← start_thread process;
  _as_parent {| base := process; _pipes := Some pipes; handles := ∅ |}.

Definition run (self : GnuPG) (gnupg_commands args : list string) : M RunState Spawned :=
  _ ← for_each _stds (fun std =>
        s ← get_state;
        if negb (in_attach std s) && negb (in_create std s)
        then put_state (set_attach_fhs (<[std := sys_file std]> (attach_fhs s)) s)
        else mret tt);
  s ← get_state;
  let handle_passphrase :=
    match passphrase self with
    | Some _ => negb (in_attach "passphrase" s) && negb (in_create "passphrase" s)
    | None => false
    end in
  _ ← (if handle_passphrase
       then put_state (set_create_fhs (create_fhs s ++ ["passphrase"]) s)
       else mret tt);
  process ← _attach_fork_exec self gnupg_commands args;
  if handle_passphrase then
    match handles process !! "passphrase", passphrase self with
    | Some passphrase_fh, Some text =>
        _ ← syscall (sys_write (fileno passphrase_fh) text);
        _ ← os_close (fileno passphrase_fh);
        mret {| base := base process; _pipes := _pipes process;
                handles := delete "passphrase" (handles process) |}
    | _, _ => raise (OtherError "KeyError")
    end
  else mret process.

(** *** Notions used to state the properties of [run] *)

(** The dictionary [attach_fhs] after the first loop of [run]: each
    standard stream that the caller neither attaches nor asks for is
    attached to the stream of the parent. *)
Definition defaulted (create : list string) (attach : gmap string File)
  : gmap string File :=
  fold_left (fun attach std =>
               if negb (bool_decide (is_Some (attach !! std)))
                  && negb (bool_decide (std ∈ create))
               then <[std := sys_file std]> attach else attach)
            _stds attach.

(** Whether [run] takes care of the passphrase itself. *)
Definition handle_passphrase (self : GnuPG) (s : RunState) : bool :=
  match passphrase self with
  | Some _ => negb (in_attach "passphrase" s) && negb (in_create "passphrase" s)
  | None => false
  end.

(** The caller's containers as [run] hands them to [_attach_fork_exec]. *)
Definition prepared (self : GnuPG) (s : RunState) : RunState :=
  {| os := os s;
     create_fhs := if handle_passphrase self s
                   then (create_fhs s ++ ["passphrase"])%list else create_fhs s;
     attach_fhs := defaulted (create_fhs s) (attach_fhs s) |}.

(** A handle name that [_fd_modes] knows. *)
Definition known (fh_name : string) : bool := bool_decide (is_Some (_fd_modes !! fh_name)).

(** Every name that the caller asks for or attaches is known. *)
Definition all_known (s : RunState) : Prop :=
  forall fh_name,
    fh_name ∈ create_fhs s \/ is_Some (attach_fhs s !! fh_name) -> known fh_name = true.

(** No name is both asked for and attached. *)
Definition disjoint (s : RunState) : Prop :=
  forall fh_name, fh_name ∈ create_fhs s -> attach_fhs s !! fh_name = None.

(** The calls of a trace that create a process. *)
Definition forks (calls : list Syscall) : list Z :=
  omap (fun c => match c with sys_fork pid => Some pid | _ => None end) calls.

(** What the loops of [run] leave as it was: the containers, the child to
    come, the schedule of the thread, and the processes created so far. *)
Definition quiet_step (s s' : RunState) : Prop :=
  create_fhs s' = create_fhs s /\ attach_fhs s' = attach_fhs s
  /\ forked (os s') = forked (os s) /\ thread_ran (os s') = thread_ran (os s)
  /\ forks (trace (os s')) = forks (trace (os s)).

(** The handle that [_as_parent] opens for a pipe of its own. *)
Definition handle_of (k : string) (p : Pipe) : File :=
  {| fileno := parent p; mode := default EmptyString (_fd_modes !! k) |}.

(** The containers of the caller are the same in both states. *)
Definition same_containers (s s' : RunState) : Prop :=
  create_fhs s' = create_fhs s /\ attach_fhs s' = attach_fhs s.

(** *** Sample values *)

(** A child that exited with code 2 and was reaped before the thread could
    collect it, and the same child while it can still be collected. *)
Definition reaped_child : Child :=
  {| child_pid := 4242; wait_status := 512; collectable := false |}.

Definition failed_child : Child :=
  {| child_pid := 4242; wait_status := 512; collectable := true |}.

(** The process object right after [GnuPG.run]. *)
Definition running_process : Process :=
  {| pid := Some 4242; thread := Some tt; returned := None |}.

(** A child that was killed by signal 9: the status word is the signal
    number, and its high byte, the exit code, is 0. *)
Definition killed_child : Child :=
  {| child_pid := 4242; wait_status := 9; collectable := true |}.

(** A call of [run] with a passphrase, asking for the standard input and
    output of GnuPG, on a system whose next free descriptor is 3. *)
Definition sample_gnupg : GnuPG :=
  {| call := "gpg"; passphrase := Some "passphrase"; gnupg_options := new_Options |}.

Definition sample_os : Os :=
  {| next_fd := 3; trace := []; forked := failed_child; thread_ran := false |}.

Definition sample_call : RunState :=
  {| os := sample_os; create_fhs := ["stdin"; "stdout"]; attach_fhs := ∅ |}.

(** The same call with a handle name that does not exist, and with a
    standard stream that is asked for and attached at once. *)
Definition misspelt_call : RunState :=
  {| os := sample_os; create_fhs := ["stdin"; "passphase"]; attach_fhs := ∅ |}.

Definition doubled_call : RunState :=
  {| os := sample_os; create_fhs := ["stdin"];
     attach_fhs := {[ "stdin" := sys_file "stdin" ]} |}.

End GpgInterface.

(** * Theorems *)

#[local] Arguments append _ _ : simpl nomatch.

(** Unfolding of the state-and-exception monad. *)
Ltac run :=
  unfold mbind, M_bind, mret, M_ret, raise, lift, get_state, put_state, try_except.

Module PyStrFacts.
Import PyStr.

Lemma append_nil_r (s : string) : s +:+ EmptyString = s.
Proof. induction s as [|a s IH]; simpl; [reflexivity | now rewrite IH]. Qed.

Lemma append_assoc (a b c : string) : (a +:+ b) +:+ c = a +:+ (b +:+ c).
Proof. induction a as [|x a IH]; simpl; [reflexivity | now rewrite IH]. Qed.

Lemma has_char_app (c : ascii) (a b : string) :
  has_char c (a +:+ b) = has_char c a || has_char c b.
Proof.
  induction a as [|x a IH]; simpl; [reflexivity|].
  rewrite IH. now rewrite orb_assoc.
Qed.

Lemma split_not_nil (c : ascii) (s : string) : split c s <> [].
Proof.
  induction s as [|a s IH]; simpl; [discriminate|].
  destruct (Ascii.eqb a c); [discriminate|].
  destruct (split c s); discriminate.
Qed.

(** Splitting commutes with cutting the string at a separator. *)
Lemma split_app_sep (c : ascii) (a b : string) :
  split c (a +:+ String c b) = (split c a ++ split c b)%list.
Proof.
  induction a as [|x a IH]; simpl.
  - now rewrite Ascii.eqb_refl.
  - destruct (Ascii.eqb x c); [now rewrite IH|].
    rewrite IH. pose proof (split_not_nil c a) as Hne.
    destruct (split c a); [contradiction | reflexivity].
Qed.

Lemma split_free (c : ascii) (s : string) :
  has_char c s = false -> split c s = [s].
Proof.
  induction s as [|a s IH]; simpl; [reflexivity|].
  intros H. apply orb_false_elim in H as [Ha Hs].
  rewrite Ha, (IH Hs). reflexivity.
Qed.

Lemma split_fields_free (c : ascii) (s : string) :
  Forall (fun field => has_char c field = false) (split c s).
Proof.
  induction s as [|a s IH]; simpl.
  - repeat constructor.
  - destruct (Ascii.eqb a c) eqn:Ha.
    + constructor; [reflexivity | exact IH].
    + destruct (split c s) as [|f fs]; [repeat constructor; simpl; now rewrite Ha|].
      inversion IH; subst. constructor; [simpl; now rewrite Ha | assumption].
Qed.

(** Joining separator-free fields and splitting again gives the fields. *)
Lemma split_join (c : ascii) (fields : list string) :
  fields <> [] ->
  Forall (fun field => has_char c field = false) fields ->
  split c (join (String c EmptyString) fields) = fields.
Proof.
  induction fields as [|f fs IH]; [contradiction|].
  intros _ Hfree. inversion Hfree as [|? ? Hf Hfs]; subst.
  destruct fs as [|g fs].
  - simpl. now apply split_free.
  - change (join (String c EmptyString) (f :: g :: fs))
      with (f +:+ String c EmptyString +:+ join (String c EmptyString) (g :: fs)).
    change (String c EmptyString +:+ join (String c EmptyString) (g :: fs))
      with (String c (join (String c EmptyString) (g :: fs))).
    rewrite split_app_sep, split_free by assumption.
    rewrite IH by (assumption || discriminate). reflexivity.
Qed.

End PyStrFacts.

Module Base36Facts.
Import Base36.

Lemma digit_val_of (d : Z) : 0 <= d < 36 -> digit_val (digit_of d) = Some d.
Proof.
  intros Hd. unfold digit_val, digit_of.
  destruct (Z.leb_spec d 9).
  - rewrite nat_ascii_embedding by lia.
    rewrite Z2Nat.id by lia.
    replace (48 <=? 48 + d) with true by (symmetry; apply Z.leb_le; lia).
    replace (48 + d <=? 57) with true by (symmetry; apply Z.leb_le; lia).
    simpl. f_equal. lia.
  - rewrite nat_ascii_embedding by lia.
    rewrite Z2Nat.id by lia.
    replace (97 + d - 10 <=? 57) with false by (symmetry; apply Z.leb_gt; lia).
    rewrite andb_false_r.
    replace (97 <=? 97 + d - 10) with true by (symmetry; apply Z.leb_le; lia).
    replace (97 + d - 10 <=? 122) with true by (symmetry; apply Z.leb_le; lia).
    simpl. f_equal. lia.
Qed.

Lemma from_base36_acc_snoc (s : string) (c : ascii) (total : Z) :
  from_base36_acc total (s +:+ String c EmptyString)
  = match from_base36_acc total s, digit_val c with
    | Some v, Some d => Some (v * 36 + d)
    | _, _ => None
    end.
Proof.
  revert total. induction s as [|a s IH]; intros total; simpl.
  - destruct (digit_val c); reflexivity.
  - destruct (digit_val a); [apply IH | reflexivity].
Qed.

Lemma from_to_base36_rec (depth : nat) (n : Z) :
  0 <= n < 36 ^ (Z.of_nat depth + 1) ->
  from_base36 (to_base36_rec depth n) = Some n.
Proof.
  revert n. induction depth as [|depth IH]; intros n Hn.
  - simpl in *. unfold from_base36. simpl.
    rewrite Z.mod_small by lia. rewrite digit_val_of by lia. f_equal; lia.
  - cbn [to_base36_rec]. destruct (Z.ltb_spec n 36) as [Hlt|Hge].
    + unfold from_base36. simpl.
      rewrite Z.mod_small by lia. rewrite digit_val_of by lia. f_equal; lia.
    + unfold from_base36. rewrite from_base36_acc_snoc.
      fold (from_base36 (to_base36_rec depth (n / 36))).
      rewrite IH.
      * rewrite digit_val_of by (apply Z.mod_pos_bound; lia).
        f_equal. pose proof (Z.div_mod n 36). lia.
      * split; [apply Z.div_pos; lia|].
        apply Z.div_lt_upper_bound; [lia|].
        replace (Z.of_nat (S depth) + 1) with (Z.succ (Z.of_nat depth + 1)) in Hn by lia.
        rewrite Z.pow_succ_r in Hn by lia. lia.
Qed.

Lemma below_power (n : Z) : 0 <= n -> n < 36 ^ (Z.of_nat (Z.to_nat (Z.log2 n)) + 1).
Proof.
  intros Hn. rewrite Z2Nat.id by apply Z.log2_nonneg.
  destruct (Z.eq_dec n 0) as [->|Hne]; [reflexivity|].
  assert (Hlog : n < 2 ^ Z.succ (Z.log2 n)) by (apply Z.log2_spec; lia).
  eapply Z.lt_le_trans; [exact Hlog|].
  replace (Z.succ (Z.log2 n)) with (Z.log2 n + 1) by lia.
  apply Z.pow_le_mono_l. lia.
Qed.

Lemma from_to_base36 (n : Z) : 0 <= n -> from_base36 (to_base36 n) = Some n.
Proof.
  intros Hn. unfold to_base36. apply from_to_base36_rec.
  split; [exact Hn | apply below_power; exact Hn].
Qed.

(** The numbers of [Test36.test_base36]. *)
Example test_base36 :
  Forall (fun n => from_base36 (to_base36 n) = Some n)
    [0; 1; 10; 1313; 34233; 872338; 2342889; 134242234; 1204684368; 34972382455].
Proof. repeat constructor. Qed.

(** The digit groups of the names that the naming tests parse. *)
Example test_more_h14rg0 :
  from_base36 "h14rg0" = Some 1029826800 /\ from_base36 "h5dixs" = Some 1036954144.
Proof. split; reflexivity. Qed.

(** C2. Reduced-radix timestamp fidelity: every non-negative integer, so
    every UNIX timestamp from 0 up to 2^34 and beyond, is recovered exactly
    by reading back its radix-36 text. *)
Theorem base36_timestamp_fidelity (n : Z) :
  0 <= n -> from_base36 (to_base36 n) = Some n.
Proof. apply from_to_base36. Qed.

Lemma base36_timestamp_fidelity_witness :
  0 <= 1204684368 /\ from_base36 (to_base36 1204684368) = Some 1204684368.
Proof.
  split; [lia | apply (base36_timestamp_fidelity 1204684368); lia].
Defined.

End Base36Facts.

Module AliCloudFacts.
Import PyStr PyStrFacts AliCloud.

Lemma url_parts_of_cut (a b : string) :
  url_parts_of (a +:+ String "/" b) = (url_parts_of a ++ url_parts_of b)%list.
Proof.
  unfold url_parts_of. rewrite split_app_sep. apply List.filter_app.
Qed.

Lemma url_parts_of_nil : url_parts_of EmptyString = [].
Proof. reflexivity. Qed.

Lemma url_parts_of_leading (p : string) : url_parts_of ("/" +:+ p) = url_parts_of p.
Proof. apply (url_parts_of_cut EmptyString p). Qed.

Lemma url_parts_of_trailing (p : string) : url_parts_of (p +:+ "/") = url_parts_of p.
Proof.
  rewrite (url_parts_of_cut p EmptyString), url_parts_of_nil. apply app_nil_r.
Qed.

Lemma url_parts_of_repeated (a b : string) :
  url_parts_of (a +:+ "//" +:+ b) = url_parts_of (a +:+ "/" +:+ b).
Proof.
  change (a +:+ "//" +:+ b) with (a +:+ String "/" ("/" +:+ b)).
  change (a +:+ "/" +:+ b) with (a +:+ String "/" b).
  now rewrite !url_parts_of_cut, url_parts_of_leading.
Qed.

Lemma url_parts_same (p q : string) :
  same_up_to_slashes p q -> url_parts_of p = url_parts_of q.
Proof.
  induction 1 as [p|p q _ IH|p q r _ IH1 _ IH2|p|p|a b].
  - reflexivity.
  - now symmetry.
  - now rewrite IH1.
  - apply url_parts_of_leading.
  - apply url_parts_of_trailing.
  - apply url_parts_of_repeated.
Qed.

Lemma url_parts_segments (path : string) :
  Forall (fun seg => seg <> EmptyString /\ has_char "/" seg = false) (url_parts_of path).
Proof.
  unfold url_parts_of.
  pose proof (split_fields_free "/" path) as Hfree.
  induction Hfree as [|f fs Hf _ IH]; simpl; [constructor|].
  destruct f; simpl; [exact IH|].
  constructor; [split; [discriminate | exact Hf] | exact IH].
Qed.

(** A non-empty string without [c0] ends in a character other than [c0]. *)
Lemma last_char_other (c0 : ascii) (s : string) :
  s <> EmptyString -> has_char c0 s = false ->
  exists body c, s = body +:+ String c EmptyString /\ c <> c0.
Proof.
  induction s as [|a s IH]; [contradiction|].
  intros _ H. simpl in H. apply orb_false_elim in H as [Ha Hs].
  destruct s as [|a' s'].
  - exists EmptyString, a. split; [reflexivity|].
    intros ->. now rewrite Ascii.eqb_refl in Ha.
  - destruct (IH ltac:(discriminate) Hs) as (body & c & Heq & Hc).
    exists (String a body), c. split; [simpl; now rewrite <- Heq | exact Hc].
Qed.

Lemma join_last_char (c0 : ascii) (sep : string) (parts : list string) :
  parts <> [] ->
  Forall (fun seg => seg <> EmptyString /\ has_char c0 seg = false) parts ->
  exists body c, join sep parts = body +:+ String c EmptyString /\ c <> c0.
Proof.
  induction parts as [|x parts IH]; [contradiction|].
  intros _ Hall. inversion Hall as [|? ? [Hx Hfree] Hrest]; subst.
  destruct parts as [|y parts].
  - simpl. now apply last_char_other.
  - destruct (IH ltac:(discriminate) Hrest) as (body & c & Heq & Hc).
    exists (x +:+ sep +:+ body), c. split; [|exact Hc].
    change (join sep (x :: y :: parts)) with (x +:+ sep +:+ join sep (y :: parts)).
    rewrite Heq. now rewrite !append_assoc.
Qed.

Lemma filter_nonempty_id (parts : list string) :
  Forall (fun seg => seg <> EmptyString) parts -> List.filter nonempty parts = parts.
Proof.
  induction 1 as [|f fs Hf _ IH]; simpl; [reflexivity|].
  destruct f; [contradiction|]. simpl. now rewrite IH.
Qed.

(** Joining the segments and adding the slash gives a path with the same
    segments: the key prefix is a normal form. *)
Lemma url_parts_of_key_prefix (path : string) :
  url_parts_of (key_prefix_of path) = url_parts_of path.
Proof.
  unfold key_prefix_of.
  pose proof (url_parts_segments path) as Hseg.
  destruct (url_parts_of path) as [|x parts] eqn:Hparts; [reflexivity|].
  rewrite url_parts_of_trailing. unfold url_parts_of at 1.
  rewrite (split_join "/" (x :: parts)).
  - apply filter_nonempty_id.
    eapply List.Forall_impl; [|exact Hseg]. now intros f [Hf _].
  - discriminate.
  - eapply List.Forall_impl; [|exact Hseg]. now intros f [_ Hf].
Qed.

(** The fields of a split are the pieces of the string between its
    separators: joining them gives the string back. *)
Lemma join_split (c : ascii) (s : string) :
  join (String c EmptyString) (split c s) = s.
Proof.
  induction s as [|a s IH]; [reflexivity|].
  cbn [split]. pose proof (split_not_nil c s) as Hne.
  destruct (Ascii.eqb_spec a c) as [->|Hac].
  - destruct (split c s) as [|f fs]; [contradiction|].
    change (join (String c EmptyString) (EmptyString :: f :: fs))
      with (String c (join (String c EmptyString) (f :: fs))).
    now rewrite IH.
  - destruct (split c s) as [|f fs]; [contradiction|].
    destruct fs as [|g fs].
    + simpl in *. now rewrite IH.
    + change (join (String c EmptyString) (String a f :: g :: fs))
        with (String a (join (String c EmptyString) (f :: g :: fs))).
      now rewrite IH.
Qed.

(** The path made of given segments has these segments. *)
Lemma url_parts_of_join (segs : list string) :
  Forall (fun seg => seg <> EmptyString /\ has_char "/" seg = false) segs ->
  url_parts_of (join "/" segs) = segs.
Proof.
  intros Hseg. destruct segs as [|x segs]; [reflexivity|].
  unfold url_parts_of. rewrite (split_join "/" (x :: segs)).
  - apply filter_nonempty_id.
    eapply List.Forall_impl; [|exact Hseg]. now intros f [Hf _].
  - discriminate.
  - eapply List.Forall_impl; [|exact Hseg]. now intros f [_ Hf].
Qed.

(** *** The operations on an open session *)

Lemma _query_connected (s : State) (objects : gmap string string) (filename : string) :
  connected s objects ->
  _query filename s = (Ok {| size := size_of objects (remote_key s filename) |}, s).
Proof.
  intros (b & Hb & Hobj). unfold _query, size_of, remote_key, get_self, self_bucket.
  unfold Oss2.get_object_meta, Oss2.bucket_content. run.
  rewrite Hb, Hobj.
  destruct (objects !! (key_prefix (self s) +:+ filename)); reflexivity.
Qed.

Lemma _delete_connected (s : State) (objects : gmap string string) (filename : string) :
  connected s objects ->
  _delete filename s = (Ok tt, with_objects s (delete (remote_key s filename) objects)).
Proof.
  intros (b & Hb & Hobj). unfold _delete, remote_key, with_objects, get_self, self_bucket.
  unfold Oss2.delete_object, Oss2.bucket_content, modify_world. run.
  rewrite Hb, Hobj. reflexivity.
Qed.

Lemma _put_connected (s : State) (objects : gmap string string)
    (source_path : SourcePath) (remote_filename content : string) :
  connected s objects ->
  files (world s) !! path_name source_path = Some content ->
  _put source_path remote_filename s
  = (Ok tt, with_objects s (<[remote_key s remote_filename := content]> objects)).
Proof.
  intros (b & Hb & Hobj) Hfile.
  unfold _put, remote_key, with_objects, get_self, self_bucket.
  unfold Oss2.resumable_upload, Oss2.bucket_content, modify_world. run.
  rewrite Hb. simpl. rewrite Hfile, Hobj. reflexivity.
Qed.

Lemma _get_connected (s : State) (objects : gmap string string)
    (remote_filename content : string) (local_path : SourcePath) :
  connected s objects ->
  objects !! remote_key s remote_filename = Some content ->
  _get remote_filename local_path s
  = (Ok tt, with_file s (path_name local_path) content).
Proof.
  intros (b & Hb & Hobj) Hkey.
  unfold _get, remote_key, with_file, get_self, self_bucket in *.
  unfold Oss2.get_object_to_file, Oss2.bucket_content, modify_world. run.
  rewrite Hb. simpl. rewrite Hobj, Hkey. unfold set_files. simpl.
  now rewrite insert_insert_eq.
Qed.

(** *** Resetting the session *)

Lemma reset_connection_exists (s : State) (objects : gmap string string) :
  oss (world s) !! bucket_name (self s) = Some objects ->
  reset_connection s = (Ok tt, {| self := reopened (self s); world := world s |}).
Proof.
  intros Hobj. unfold reset_connection, bucket_exists, self_bucket, get_self, modify_self.
  unfold Oss2.get_bucket_acl, Oss2.bucket_content. run. simpl.
  rewrite Hobj. reflexivity.
Qed.

Lemma reset_connection_missing (s : State) :
  oss (world s) !! bucket_name (self s) = None ->
  reset_connection s
  = (Ok tt, {| self := reopened (self s);
               world := set_oss (<[bucket_name (self s) := ∅]> (oss (world s))) (world s) |}).
Proof.
  intros Hobj. unfold reset_connection, bucket_exists, self_bucket, get_self, modify_self.
  unfold Oss2.get_bucket_acl, Oss2.bucket_content, Oss2.create_bucket, modify_world.
  run. simpl. rewrite Hobj. simpl. rewrite Hobj. reflexivity.
Qed.

Lemma reopened_twice (o : Backend) : reopened (reopened o) = reopened o.
Proof. reflexivity. Qed.

Lemma with_objects_same (s : State) (objects : gmap string string) :
  connected s objects -> with_objects s objects = s.
Proof.
  intros (b & Hb & Hobj). unfold with_objects. rewrite Hb.
  rewrite insert_id by exact Hobj.
  destruct s as [o [m f]]. reflexivity.
Qed.

Lemma _delete_missing (s : State) (objects : gmap string string) (filename : string) :
  connected s objects ->
  objects !! remote_key s filename = None ->
  _delete filename s = (Ok tt, s).
Proof.
  intros Hc Hnone. rewrite (_delete_connected s objects) by exact Hc.
  rewrite delete_id by exact Hnone.
  now rewrite with_objects_same.
Qed.

(** *** The query of a list of names *)

Lemma _query_list_from_connected (s : State) (objects : gmap string string)
    (filename_list : list string) (query_dict : gmap string QueryResult) :
  connected s objects ->
  _query_list_from query_dict filename_list s
  = (Ok (answers s objects query_dict filename_list), s).
Proof.
  intros Hc. revert query_dict.
  induction filename_list as [|f l IH]; intros query_dict; [reflexivity|].
  cbn [_query_list_from]. unfold mbind, M_bind.
  rewrite (_query_connected s objects) by exact Hc.
  rewrite IH. reflexivity.
Qed.

Lemma answers_lookup (s : State) (objects : gmap string string)
    (filename_list : list string) (query_dict : gmap string QueryResult) (filename : string) :
  In filename filename_list ->
  answers s objects query_dict filename_list !! filename
  = Some {| size := size_of objects (remote_key s filename) |}.
Proof.
  revert query_dict. induction filename_list as [|f l IH]; intros query_dict; [contradiction|].
  intros Hin. unfold answers in *. cbn [fold_left].
  destruct (in_dec string_dec filename l) as [Hl|Hl]; [now apply IH|].
  destruct Hin as [->|Hin]; [|contradiction].
  clear IH. revert query_dict. induction l as [|g l IHl]; intros query_dict.
  - apply lookup_insert_eq.
  - cbn [fold_left].
    assert (Hg : g <> filename) by (intros ->; apply Hl; now left).
    rewrite insert_insert_ne by congruence.
    apply IHl. intros Hin. apply Hl. now right.
Qed.

(** *** Construction *)

Lemma reset_connection_state (s : State) :
  exists w, reset_connection s = (Ok tt, {| self := reopened (self s); world := w |}).
Proof.
  destruct (oss (world s) !! bucket_name (self s)) as [objects|] eqn:Hobj.
  - eexists. now apply (reset_connection_exists s objects).
  - eexists. now apply reset_connection_missing.
Qed.

Lemma init_key_prefix (env : Environment) (parsed_url : ParsedUrl) (w : World) (s : State) :
  init env parsed_url w = Ok s ->
  key_prefix (self s) = key_prefix_of (url_path parsed_url).
Proof.
  unfold init. destruct (negb (has_oss2 env)); [discriminate|].
  unfold mbind, result_bind.
  destruct (get_alicloud_configuration env) as [[[e k] sec]|]; [|discriminate].
  destruct (url_hostname parsed_url) as [name|]; [|discriminate].
  destruct (nonempty name); [|discriminate].
  match goal with |- context [reset_connection ?s0] =>
    destruct (reset_connection_state s0) as [w' Hreset]; rewrite Hreset end.
  intros [= <-]. reflexivity.
Qed.







End AliCloudFacts.

Module AliCloudClaims.
Import PyStr PyStrFacts AliCloud AliCloudFacts.

(** C10. Key-prefix normalization.  The path is the join of its
    slash-free fields, and the URL parts are the non-empty ones among them,
    in their order; the key prefix is the join of these segments followed by
    exactly one slash, and empty when there is no such segment.  So a path
    written from given segments with any leading, trailing or repeated
    slashes has exactly these segments and their join plus a slash as key
    prefix; the prefix is a normal form, and paths that differ only in such
    slashes give the same prefix; the constructor stores it, and put, get,
    delete and query address the key [key_prefix + filename]. *)
Theorem key_prefix_normalization :
  (forall path,
      Forall (fun seg => seg <> EmptyString /\ has_char "/" seg = false) (url_parts_of path)
      /\ (url_parts_of path = [] -> key_prefix_of path = EmptyString)
      /\ (url_parts_of path <> [] ->
          key_prefix_of path = join "/" (url_parts_of path) +:+ "/"
          /\ exists body c,
               key_prefix_of path = body +:+ String c "/" /\ c <> "/"%char)
      /\ key_prefix_of (key_prefix_of path) = key_prefix_of path)
  /\ (forall path,
        exists fields,
          join "/" fields = path
          /\ Forall (fun field => has_char "/" field = false) fields
          /\ url_parts_of path = List.filter nonempty fields)
  /\ (forall segs path,
        Forall (fun seg => seg <> EmptyString /\ has_char "/" seg = false) segs ->
        same_up_to_slashes path (join "/" segs) ->
        url_parts_of path = segs
        /\ key_prefix_of path
           = match segs with [] => EmptyString | _ => join "/" segs +:+ "/" end)
  /\ (forall p q, same_up_to_slashes p q -> key_prefix_of p = key_prefix_of q)
  /\ key_prefix_of "///key_prefix/" = key_prefix_of "/key_prefix"
  /\ key_prefix_of "///key_prefix/" = "key_prefix/"
  /\ key_prefix_of "/a//b/c" = "a/b/c/"
  /\ key_prefix_of "//" = EmptyString
  /\ (forall env parsed_url w s,
        init env parsed_url w = Ok s ->
        key_prefix (self s) = key_prefix_of (url_path parsed_url))
  /\ (forall s objects filename,
        connected s objects ->
        _query filename s
        = (Ok {| size := size_of objects (key_prefix (self s) +:+ filename) |}, s)
        /\ _delete filename s
           = (Ok tt, with_objects s (delete (key_prefix (self s) +:+ filename) objects))
        /\ (forall source_path content,
              files (world s) !! path_name source_path = Some content ->
              _put source_path filename s
              = (Ok tt, with_objects s
                          (<[key_prefix (self s) +:+ filename := content]> objects)))
        /\ (forall local_path content,
              objects !! (key_prefix (self s) +:+ filename) = Some content ->
              _get filename local_path s
              = (Ok tt, with_file s (path_name local_path) content))).
Proof.
  repeat apply conj.
  - intros path. repeat apply conj.
    + apply url_parts_segments.
    + intros H. unfold key_prefix_of. now rewrite H.
    + intros H. assert (Hkp : key_prefix_of path = join "/" (url_parts_of path) +:+ "/").
      { unfold key_prefix_of. destruct (url_parts_of path); [contradiction | reflexivity]. }
      split; [exact Hkp|].
      destruct (join_last_char "/" "/" (url_parts_of path) H (url_parts_segments path))
        as (body & c & Hjoin & Hc).
      exists body, c. split; [|exact Hc].
      rewrite Hkp, Hjoin, append_assoc. reflexivity.
    + unfold key_prefix_of at 1. now rewrite url_parts_of_key_prefix.
  - intros path. exists (split "/" path). split; [apply (join_split "/" path)|].
    split; [apply split_fields_free | reflexivity].
  - intros segs path Hseg Hsame.
    assert (Hparts : url_parts_of path = segs).
    { rewrite (url_parts_same _ _ Hsame). now apply url_parts_of_join. }
    split; [exact Hparts|].
    unfold key_prefix_of. rewrite Hparts. now destruct segs.
  - intros p q Hpq. unfold key_prefix_of. now rewrite (url_parts_same p q Hpq).
  - reflexivity.
  - reflexivity.
  - reflexivity.
  - reflexivity.
  - intros env parsed_url w s. apply init_key_prefix.
  - intros s objects filename Hc. repeat apply conj.
    + apply (_query_connected s objects filename Hc).
    + apply (_delete_connected s objects filename Hc).
    + intros source_path content. apply (_put_connected s objects _ _ _ Hc).
    + intros local_path content. apply (_get_connected s objects _ _ _ Hc).
Qed.

(** C3. [_query] does not raise for a missing object: on an open session,
    a name whose key is not in the bucket gets [{'size': -1}], and
    [_query_list] returns a dictionary that gives this answer to every
    missing name of its list. *)
Theorem query_missing_object (s : State) (objects : gmap string string) :
  connected s objects ->
  (forall filename,
      objects !! remote_key s filename = None ->
      _query filename s = (Ok {| size := -1 |}, s))
  /\ (forall filename_list,
        exists query_dict,
          _query_list filename_list s = (Ok query_dict, s)
          /\ forall filename,
               In filename filename_list ->
               objects !! remote_key s filename = None ->
               query_dict !! filename = Some {| size := -1 |}).
Proof.
  intros Hc. split.
  - intros filename Hnone.
    rewrite (_query_connected s objects filename Hc).
    unfold size_of. now rewrite Hnone.
  - intros filename_list. exists (answers s objects ∅ filename_list). split.
    + apply (_query_list_from_connected s objects filename_list ∅ Hc).
    + intros filename Hin Hnone.
      rewrite (answers_lookup s objects filename_list ∅ filename Hin).
      unfold size_of. now rewrite Hnone.
Qed.

Lemma sample_state_connected : connected sample_state sample_objects.
Proof. eexists. split; reflexivity. Qed.

Lemma query_missing_object_witness :
  connected sample_state sample_objects
  /\ _query "absent" sample_state = (Ok {| size := -1 |}, sample_state).
Proof.
  split; [exact sample_state_connected|].
  apply (proj1 (query_missing_object sample_state sample_objects sample_state_connected)).
  reflexivity.
Defined.

(** C8. The session reset is idempotent: it always completes, a second
    reset right after the first leaves the state of the first, and that
    state holds a fresh authentication context and bucket handle for a
    bucket that exists (created when it was missing, untouched when it was
    there); the retry cleanup hook is this reset. *)
Theorem reset_connection_idempotent (s : State) :
  exists s1,
    reset_connection s = (Ok tt, s1)
    /\ reset_connection s1 = (Ok tt, s1)
    /\ auth (self s1) = Some (fresh_auth (self s))
    /\ bucket (self s1) = Some (fresh_bucket (self s))
    /\ is_Some (oss (world s1) !! bucket_name (self s))
    /\ (forall objects,
          oss (world s) !! bucket_name (self s) = Some objects -> world s1 = world s)
    /\ (oss (world s) !! bucket_name (self s) = None ->
        oss (world s1) !! bucket_name (self s) = Some ∅)
    /\ _retry_cleanup = reset_connection.
Proof.
  destruct (oss (world s) !! bucket_name (self s)) as [objects|] eqn:Hobj.
  - exists {| self := reopened (self s); world := world s |}.
    split; [now apply (reset_connection_exists s objects)|].
    split; [exact (reset_connection_exists
                     {| self := reopened (self s); world := world s |} objects Hobj)|].
    split; [reflexivity|]. split; [reflexivity|].
    split; [simpl; rewrite Hobj; now eexists|].
    split; [reflexivity|]. split; [discriminate | reflexivity].
  - exists {| self := reopened (self s);
              world := set_oss (<[bucket_name (self s) := ∅]> (oss (world s))) (world s) |}.
    split; [now apply reset_connection_missing|].
    split; [exact (reset_connection_exists
                     {| self := reopened (self s);
                        world := set_oss (<[bucket_name (self s) := ∅]> (oss (world s)))
                                   (world s) |}
                     ∅ (lookup_insert_eq _ _ _))|].
    split; [reflexivity|]. split; [reflexivity|].
    split; [simpl; rewrite lookup_insert_eq; now eexists|].
    split; [discriminate|].
    split; [intros _; simpl; apply lookup_insert_eq | reflexivity].
Qed.



End AliCloudClaims.

Module WebDAVFacts.
Import PyStr WebDAV.

Section Transport.
Context {Net : Type} (P : Platform Net).


Lemma modify_self_sent (f : Backend -> Backend) (s : State Net) :
  sent (snd (modify_self f s)) = sent s.
Proof. reflexivity. Qed.

Lemma connect_sent (forced : bool) (s : State Net) :
  sent (snd (connect P forced s)) = sent s.
Proof.
  unfold connect, get_self, _close, modify_self. run. simpl.
  repeat match goal with
         | |- context [if ?b then _ else _] => destruct b; simpl
         | |- context [match ?x with _ => _ end] => destruct x; simpl
         end; reflexivity.
Qed.

Lemma conn_request_sent (method quoted_path : string) (data : option string) (s : State Net) :
  (length (sent (snd (conn_request P method quoted_path data s))) <= length (sent s) + 1)%nat.
Proof.
  unfold conn_request. destruct (conn (self s)); simpl; [|lia].
  destruct (send P _ _ _). simpl. rewrite length_app. simpl. lia.
Qed.

Lemma first_response_sent (method path : string) (data : option string) (s : State Net) :
  (length (sent (snd (first_response P method path data s))) <= length (sent s) + 1)%nat.
Proof.
  unfold first_response, _close, get_self. run. simpl.
  pose proof (connect_sent false s) as Hc.
  destruct (connect P false s) as [[[]|e] s1]; simpl in *; rewrite <- Hc; [|lia].
  destruct (digest_challenge (self s1)); simpl.
  - match goal with |- context [conn_request P ?m ?q ?d ?s2] =>
      pose proof (conn_request_sent m q d s2) as Hr;
      destruct (conn_request P m q d s2) as [[r|e] s3] end; simpl in *; lia.
  - pose proof (conn_request_sent method (quote P path) data s1) as Hr.
    destruct (conn_request P method (quote P path) data s1) as [[r|e] s3]; simpl in *; lia.
Qed.

Lemma authorized_response_sent (method quoted_path : string) (data : option string)
    (response : Response) (s : State Net) :
  (length (sent (snd (authorized_response P method quoted_path data response s)))
   <= length (sent s) + 1)%nat.
Proof.
  unfold authorized_response. destruct (status response =? 401); [|simpl; lia].
  unfold get_self, modify_self. run. simpl.
  destruct (get_authorization P (self s) response quoted_path) as [hdr challenge]. simpl.
  match goal with |- context [conn_request P ?m ?q ?d ?s2] =>
    pose proof (conn_request_sent m q d s2) as Hr end.
  simpl in Hr. exact Hr.
Qed.

(** Every call of [request] puts at most one request on the wire before it
    looks at the response, follows a redirect only while [redirected] is at
    most 10, and may repeat the last request once with an authorization. *)
Lemma request_sent (method path : string) (data : option string) (redirected : Z)
    (s : State Net) :
  redirected <= 11 ->
  (length (sent (snd (request P method path data redirected s)))
   <= length (sent s) + Z.to_nat (12 - redirected) + 1)%nat.
Proof.
  funelim (request P method path data redirected s); intros Hle;
    match goal with
    | Hfirst : first_response P ?m ?p ?d ?s0 = _ |- _ =>
        pose proof (first_response_sent m p d s0) as Hsent;
        rewrite Hfirst in Hsent; simpl in Hsent
    end; simpl.
  - lia.
  - pose proof (authorized_response_sent method quoted_path data response s1). lia.
  - lia.
  - lia.
  - match goal with IH : _ -> (_ <= _)%nat |- _ => specialize (IH ltac:(lia)); simpl in IH end.
    replace (Z.to_nat (12 - redirected)) with (S (Z.to_nat (12 - (redirected + 1)))) by lia.
    lia.
  - lia.
Qed.

(** At the hop limit a further redirect is not followed: the call raises
    the fatal error with the state in which the response arrived. *)
Lemma request_gives_up (method path : string) (data : option string) (redirected : Z)
    (s : State Net) :
  forall response quoted_path s1 redirect_url,
    first_response P method path data s = (Ok (response, quoted_path), s1) ->
    redirection method response = RedirectTo redirect_url ->
    redirected > 10 ->
    request P method path data redirected s
    = (Raise (FatalBackendException "WebDAV redirected 10 times. Giving up."), s1).
Proof.
  funelim (request P method path data redirected s);
    intros response' quoted_path' s1' redirect_url' Hfirst Hredirect Hlimit;
    try congruence; exfalso; lia.
Qed.


Lemma request_first_raises (method path : string) (data : option string) (redirected : Z)
    (s : State Net) :
  forall e s1,
    first_response P method path data s = (Raise e, s1) ->
    request P method path data redirected s = (Raise e, s1).
Proof.
  funelim (request P method path data redirected s); intros e' s1' Hfirst;
    congruence.
Qed.

(** *** Listing *)

Lemma taste_href_foreign (href : list Node) (s : State Net) :
  foreign P (self s) href = true ->
  taste_href P href s
  = (Raise (BackendException
       (hostname_mismatch_message (href_hostname P href) (url_hostname (parsed_url (self s))))),
     s).
Proof.
  unfold foreign, href_hostname, taste_href, get_self. run.
  destruct (urlparse P (unquote P (strip (getText href)))) as [[h|] path]; simpl;
    [|discriminate].
  destruct (bool_decide (Some h = url_hostname (parsed_url (self s)))); simpl;
    [discriminate | reflexivity].
Qed.

Lemma taste_href_local (href : list Node) (s : State Net) :
  foreign P (self s) href = false ->
  exists filename, taste_href P href s = (Ok filename, s).
Proof.
  unfold foreign, href_hostname, taste_href, get_self. run.
  destruct (urlparse P (unquote P (strip (getText href)))) as [[h|] path]; simpl.
  - destruct (bool_decide (Some h = url_hostname (parsed_url (self s)))); simpl;
      [intros _ | discriminate].
    destruct (startswith (directory (self s)) path); eexists; reflexivity.
  - intros _. destruct (startswith (directory (self s)) path); eexists; reflexivity.
Qed.

(** The loop over the hrefs stops at the first foreign one. *)
Lemma taste_all_foreign (hrefs : list (list Node)) (result : list string) (s : State Net) :
  existsb (foreign P (self s)) hrefs = true ->
  exists href,
    In href hrefs /\ foreign P (self s) href = true
    /\ taste_all P hrefs result s
       = (Raise (BackendException
            (hostname_mismatch_message (href_hostname P href)
               (url_hostname (parsed_url (self s))))), s).
Proof.
  revert result. induction hrefs as [|href rest IH]; intros result; [discriminate|].
  cbn [existsb taste_all]. unfold mbind, M_bind.
  destruct (foreign P (self s) href) eqn:Hf.
  - intros _. exists href. rewrite (taste_href_foreign href s Hf).
    split; [now left | split; [exact Hf | reflexivity]].
  - simpl. intros Hrest.
    destruct (taste_href_local href s Hf) as [filename ->].
    assert (Hstep : forall acc, exists href0,
               In href0 (href :: rest) /\ foreign P (self s) href0 = true
               /\ taste_all P rest acc s
                  = (Raise (BackendException
                       (hostname_mismatch_message (href_hostname P href0)
                          (url_hostname (parsed_url (self s))))), s)).
    { intros acc. destruct (IH acc Hrest) as (h0 & Hin & Hf0 & Heq).
      exists h0. split; [now right | split; assumption]. }
    destruct filename as [f|]; [destruct (nonempty f)|]; apply Hstep.
Qed.

Lemma _list_foreign (s : State Net) (response : Response) (s1 : State Net) (dom : Document) :
  request P "PROPFIND" (directory (self (before_listing s))) (Some listbody) 0
    (before_listing s) = (Ok response, s1) ->
  status response = 200 \/ status response = 207 ->
  parseString P (body response) = Ok dom ->
  existsb (foreign P (self (after_listing s1))) (d_href dom ++ D_href dom) = true ->
  exists href,
    In href (d_href dom ++ D_href dom)
    /\ foreign P (self (after_listing s1)) href = true
    /\ _list P s
       = (Raise (BackendException
            (hostname_mismatch_message (href_hostname P href)
               (url_hostname (parsed_url (self (after_listing s1)))))),
          after_listing s1).
Proof.
  intros Hreq Hstatus Hdom Hforeign.
  destruct (taste_all_foreign _ [] _ Hforeign) as (href & Hin & Hf & Heq).
  exists href. split; [exact Hin | split; [exact Hf|]].
  unfold _list. unfold mbind at 1, M_bind at 1.
  change (set_Depth s) with (Ok tt, before_listing s). cbv iota beta.
  unfold mbind at 1, M_bind at 1, get_self at 1. cbv iota beta.
  unfold mbind at 1, M_bind at 1. rewrite Hreq. cbv iota beta.
  unfold mbind at 1, M_bind at 1.
  change (del_Depth s1) with (Ok tt, after_listing s1). cbv iota beta.
  assert (H404 : (status response =? 404) = false) by (apply Z.eqb_neq; lia).
  rewrite H404.
  assert (Hok : ((status response =? 200) || (status response =? 207)) = true).
  { destruct Hstatus as [-> | ->]; reflexivity. }
  rewrite Hok. unfold mbind, M_bind, lift. rewrite Hdom. exact Heq.
Qed.

(** *** Deleting *)

Lemma _delete_by_status (filename : string) (s : State Net) (response : Response)
    (s1 : State Net) :
  request P "DELETE" (directory (self s) +:+ filename) None 0 s = (Ok response, s1) ->
  _delete P filename s
  = if (status response =? 200) || (status response =? 204) then (Ok tt, s1)
    else (Raise (BackendException
            ("WebDAV DEL Bad status code " +:+ str_of_Z (status response)
               +:+ " reason " +:+ reason response +:+ ".")), s1).
Proof.
  intros Hreq. unfold _delete, get_self. run. rewrite Hreq.
  destruct ((status response =? 200) || (status response =? 204)); reflexivity.
Qed.

Lemma _delete_request_raises (filename : string) (s : State Net) (e : exn) (s1 : State Net) :
  request P "DELETE" (directory (self s) +:+ filename) None 0 s = (Raise e, s1) ->
  _delete P filename s = (Raise e, s1).
Proof.
  intros Hreq. unfold _delete, get_self. run. now rewrite Hreq.
Qed.

(** C5. Redirect loops are bounded and fatal.  [request] is defined by
    recursion on [12 - redirected], so every call returns.  A call that
    starts at [redirected = 0] puts at most 13 requests on the wire: one
    per hop for at most 12 hops, and one repetition with an authorization.
    A redirect that arrives when more than 10 redirects were followed is not
    followed: the call raises [FatalBackendException] at once, in the state
    in which the response arrived.  A method other than PROPFIND is never
    redirected. *)
Theorem redirects_bounded_and_fatal :
  (forall method path data s,
      (length (sent (snd (request P method path data 0 s))) <= length (sent s) + 13)%nat)
  /\ (forall method path data redirected s,
        redirected <= 11 ->
        (length (sent (snd (request P method path data redirected s)))
         <= length (sent s) + Z.to_nat (12 - redirected) + 1)%nat)
  /\ (forall method path data redirected s response quoted_path s1 redirect_url,
        first_response P method path data s = (Ok (response, quoted_path), s1) ->
        redirection method response = RedirectTo redirect_url ->
        redirected > 10 ->
        exists e,
          request P method path data redirected s = (Raise e, s1)
          /\ is_fatal e = true
          /\ e = FatalBackendException "WebDAV redirected 10 times. Giving up.")
  /\ (forall method response,
        method <> "PROPFIND" -> redirection method response = NotRedirected).
Proof.
  split; [|split; [|split]].
  - intros method path data s.
    pose proof (request_sent method path data 0 s ltac:(lia)) as H.
    change (Z.to_nat (12 - 0)) with 12%nat in H. lia.
  - intros method path data redirected s. apply request_sent.
  - intros method path data redirected s response quoted_path s1 redirect_url Hf Hr Hl.
    exists (FatalBackendException "WebDAV redirected 10 times. Giving up.").
    split; [|split; reflexivity].
    now apply (request_gives_up method path data redirected s response quoted_path s1
                 redirect_url).
  - intros method response Hne. unfold redirection.
    destruct (String.eqb_spec method "PROPFIND") as [->|_]; [contradiction|].
    now rewrite andb_false_r.
Qed.

(** C6, as the code has it.  When the listing that [_list] receives holds
    an href that is a full URL under another host name, [_list] returns no
    list: it raises the [BackendException] of the first such href, which is
    the plain backend error and not the fatal class. *)
Theorem hostname_mismatch_raises (s : State Net) (response : Response)
    (s1 : State Net) (dom : Document) :
  request P "PROPFIND" (directory (self (before_listing s))) (Some listbody) 0
    (before_listing s) = (Ok response, s1) ->
  status response = 200 \/ status response = 207 ->
  parseString P (body response) = Ok dom ->
  existsb (foreign P (self (after_listing s1))) (d_href dom ++ D_href dom) = true ->
  exists href e,
    In href (d_href dom ++ D_href dom)
    /\ foreign P (self (after_listing s1)) href = true
    /\ _list P s = (Raise e, after_listing s1)
    /\ e = BackendException
             (hostname_mismatch_message (href_hostname P href)
                (url_hostname (parsed_url (self (after_listing s1)))))
    /\ is_fatal e = false.
Proof.
  intros Hreq Hstatus Hdom Hforeign.
  destruct (_list_foreign s response s1 dom Hreq Hstatus Hdom Hforeign)
    as (href & Hin & Hf & Heq).
  exists href.
  exists (BackendException
            (hostname_mismatch_message (href_hostname P href)
               (url_hostname (parsed_url (self (after_listing s1)))))).
  split; [exact Hin|]. split; [exact Hf|].
  split; [exact Heq|]. split; reflexivity.
Qed.

End Transport.

(** A server that redirects for ever is given up on after 12 requests, 11
    redirects having been followed. *)
Example redirect_loop_gives_up :
  let '(r, s) := request (sample_platform redirecting_server) "PROPFIND" "/dir/" None 0
                   (sample_state O) in
  r = Raise (FatalBackendException "WebDAV redirected 10 times. Giving up.")
  /\ length (sent s) = 12%nat /\ net s = 12%nat.
Proof. vm_compute. repeat split. Qed.

Lemma hostname_mismatch_raises_witness :
  exists href e,
    In href (d_href sample_document ++ D_href sample_document)
    /\ _list (sample_platform dav_server) (sample_state empty_store)
       = (Raise e, after_listing listed_state)
    /\ is_fatal e = false.
Proof.
  destruct (hostname_mismatch_raises (sample_platform dav_server) (sample_state empty_store)
              listed_response listed_state sample_document)
    as (href & e & Hin & Hf & Hlist & He & Hnf).
  - vm_compute. reflexivity.
  - right. reflexivity.
  - reflexivity.
  - vm_compute. reflexivity.
  - exists href, e. split; [exact Hin|]. split; [exact Hlist | exact Hnf].
Defined.

(** C6 as stated fails: the listing of [sample_document] holds an href
    under [other.example]; [_list] raises for it, and what it raises is a
    [BackendException], not a fatal error. *)
Lemma hostname_mismatch_not_fatal :
  fst (_list (sample_platform dav_server) (sample_state empty_store))
  = Raise (BackendException
             (hostname_mismatch_message (Some "other.example") (Some "dav.example")))
  /\ ~ (exists e,
          fst (_list (sample_platform dav_server) (sample_state empty_store)) = Raise e
          /\ is_fatal e = true).
Proof.
  split; [vm_compute; reflexivity|].
  intros (e & He & Hfatal). vm_compute in He. injection He as <-. discriminate.
Qed.

(** C4, as the code has it.  On the AliCloud backend deleting a name whose
    key is not in the bucket completes and changes nothing.  On the WebDAV
    backend [_delete] completes exactly when the server answers the DELETE
    with status 200 or 204; any other status, 404 for an absent object
    included, raises a [BackendException], and an exception of the request
    itself propagates. *)
Theorem delete_of_missing_object :
  (forall s objects filename,
      AliCloud.connected s objects ->
      objects !! AliCloud.remote_key s filename = None ->
      AliCloud._delete filename s = (Ok tt, s))
  /\ (forall (Net : Type) (P : Platform Net) filename s response s1,
        request P "DELETE" (directory (self s) +:+ filename) None 0 s = (Ok response, s1) ->
        (status response = 200 \/ status response = 204 ->
         _delete P filename s = (Ok tt, s1))
        /\ (status response <> 200 -> status response <> 204 ->
            _delete P filename s
            = (Raise (BackendException
                 ("WebDAV DEL Bad status code " +:+ str_of_Z (status response)
                    +:+ " reason " +:+ reason response +:+ ".")), s1)))
  /\ (forall (Net : Type) (P : Platform Net) filename s e s1,
        request P "DELETE" (directory (self s) +:+ filename) None 0 s = (Raise e, s1) ->
        _delete P filename s = (Raise e, s1)).
Proof.
  split; [|split].
  - intros s objects filename. apply AliCloudFacts._delete_missing.
  - intros Net P filename s response s1 Hreq.
    rewrite (_delete_by_status P filename s response s1 Hreq). split.
    + intros [-> | ->]; reflexivity.
    + intros H200 H204.
      apply Z.eqb_neq in H200, H204. now rewrite H200, H204.
  - intros Net P filename s e s1. apply _delete_request_raises.
Qed.

(** C4 as stated fails: [/dir/file1] is not stored on the server, the
    server answers 404, and [_delete] raises. *)
Lemma webdav_delete_of_missing_raises :
  ("/dir/file1" ∉ empty_store)
  /\ fst (_delete (sample_platform dav_server) "file1" (sample_state empty_store))
     = Raise (BackendException "WebDAV DEL Bad status code 404 reason Not Found.")
  /\ ~ returns_normally
         (fst (_delete (sample_platform dav_server) "file1" (sample_state empty_store))).
Proof.
  split; [apply not_elem_of_empty|].
  split; [vm_compute; reflexivity|].
  intros [a Ha]. vm_compute in Ha. discriminate.
Qed.

End WebDAVFacts.

Module GpgInterfaceFacts.
Import PyStr GpgInterface.

(** The status word that [threaded_waitpid] records. *)
Lemma threaded_waitpid_returned (c : Child) (p : Process) :
  pid p = Some (child_pid c) ->
  returned (threaded_waitpid c p) = Some (if collectable c then wait_status c else 0).
Proof.
  intros Hpid. unfold threaded_waitpid, os_waitpid. rewrite Hpid, Z.eqb_refl. simpl.
  destruct (collectable c); reflexivity.
Qed.

Lemma wait_started (c : Child) (p : Process) :
  started c p ->
  let recorded := if collectable c then wait_status c else 0 in
  returned (snd (wait c p)) = Some recorded
  /\ fst (wait c p)
     = if recorded =? 0 then Ok tt
       else Raise (IOError ("GnuPG exited non-zero, with code "
                              +:+ str_of_Z (Z.shiftr recorded 8))).
Proof.
  intros (Hpid & Hthread & Hret) recorded.
  pose proof (threaded_waitpid_returned c p Hpid) as Htw. fold recorded in Htw.
  unfold wait, thread_join, get_state, mbind, M_bind, mret, M_ret, raise.
  destruct Hret as [Hnone | Hsome].
  - rewrite Hnone, Hthread. cbn -[threaded_waitpid Z.shiftr str_of_Z].
    rewrite Hnone. cbn -[threaded_waitpid Z.shiftr str_of_Z]. rewrite Htw.
    clearbody recorded. destruct recorded as [|r|r]; split; first [exact Htw | reflexivity].
  - rewrite Htw in Hsome. rewrite Hsome. cbn -[Z.shiftr str_of_Z]. rewrite Hsome.
    clearbody recorded. destruct recorded as [|r|r]; split; first [exact Hsome | reflexivity].
Qed.

(** What [wait] goes by is the status that [threaded_waitpid] recorded.
    For a process that [GnuPG.run] started, [wait] raises [IOError] exactly
    when [os.waitpid] could collect the child and its status word is not
    zero; a child that exited with status zero makes [wait] return normally,
    and so does any child that [os.waitpid] could not collect, because
    [threaded_waitpid] then records the status 0. *)
Theorem wait_signals_collected_status (c : Child) (p : Process) :
  started c p ->
  ((exists msg, fst (wait c p) = Raise (IOError msg))
   <-> collectable c = true /\ wait_status c <> 0)
  /\ (wait_status c = 0 -> fst (wait c p) = Ok tt)
  /\ (collectable c = false -> fst (wait c p) = Ok tt)
  /\ (fst (wait c p) = Ok tt \/ exists msg, fst (wait c p) = Raise (IOError msg))
  /\ returned (snd (wait c p)) = Some (if collectable c then wait_status c else 0).
Proof.
  intros Hstarted. destruct (wait_started c p Hstarted) as [Hret Hres].
  cbv zeta in Hret, Hres.
  split; [|split; [|split; [|split]]].
  - rewrite Hres. destruct (collectable c); simpl.
    + destruct (Z.eqb_spec (wait_status c) 0) as [Hz|Hnz].
      * split; [intros [msg [=]] | intros [_ Hne]; contradiction].
      * split; [intros _; split; [reflexivity | exact Hnz] | intros _; eexists; reflexivity].
    + split; [intros [msg [=]] | intros [[=] _]].
  - intros Hz. rewrite Hres, Hz. now destruct (collectable c).
  - intros Hc. rewrite Hres, Hc. reflexivity.
  - rewrite Hres. destruct (_ =? 0); [now left | right; eexists; reflexivity].
  - exact Hret.
Qed.

Lemma running_process_started : started failed_child running_process.
Proof. repeat split. now left. Qed.

Lemma wait_signals_collected_status_witness :
  started failed_child running_process
  /\ exists msg, fst (wait failed_child running_process) = Raise (IOError msg).
Proof.
  split; [exact running_process_started|].
  apply (proj2 (proj1 (wait_signals_collected_status failed_child running_process
                         running_process_started))).
  split; [reflexivity | discriminate].
Defined.

(** C9.  The docstring of [wait] says that it raises an [IOError] if the
    process exits non-zero.  Here the child exited with code 2, but it had
    been reaped before [os.waitpid] ran: the bare [except] of
    [threaded_waitpid] records the status 0 and [wait] returns normally.
    The same child, when [os.waitpid] can still collect it, makes [wait]
    raise the [IOError] with its exit code. *)
Lemma wait_misses_reaped_child :
  started reaped_child running_process
  /\ wait_status reaped_child = wait_status failed_child
  /\ wait_status reaped_child <> 0
  /\ os_waitpid reaped_child (pid running_process) = Raise (OtherError "OSError")
  /\ wait reaped_child running_process = (Ok tt, set_returned (Some 0) running_process)
  /\ fst (wait failed_child running_process)
     = Raise (IOError "GnuPG exited non-zero, with code 2").
Proof.
  split; [repeat split; now left|].
  split; [reflexivity|]. split; [discriminate|].
  split; [reflexivity|]. split; vm_compute; reflexivity.
Qed.

End GpgInterfaceFacts.

Module FileNamingFacts.
Import PyStr PyStrFacts FileNaming.

(** *** Prefixes *)

Lemma prefix_app (p s : string) : String.prefix p (p +:+ s) = true.
Proof.
  induction p as [|a p IH]; simpl; [now destruct s|].
  destruct (ascii_dec a a); [exact IH | contradiction].
Qed.

Lemma drop_app (p s : string) : drop (String.length p) (p +:+ s) = s.
Proof. induction p as [|a p IH]; simpl; [reflexivity | exact IH]. Qed.

Lemma strip_prefix_app (p s : string) : strip_prefix p (p +:+ s) = Some s.
Proof. unfold strip_prefix. now rewrite prefix_app, drop_app. Qed.

(** A prefix without dots that matches a name ends before the first dot of
    the name. *)
Lemma strip_prefix_before_dot (p y rest r : string) :
  dot_free p ->
  strip_prefix p (y +:+ String dot rest) = Some r ->
  exists r0, y = p +:+ r0 /\ r = r0 +:+ String dot rest.
Proof.
  unfold strip_prefix, dot_free. revert y r.
  induction p as [|a p IH]; intros y r Hfree Hstrip.
  - simpl in Hstrip. exists y. split; [reflexivity|].
    destruct (y +:+ String dot rest); now injection Hstrip as <-.
  - simpl in Hfree. apply orb_false_elim in Hfree as [Ha Hp].
    destruct y as [|b y]; simpl in Hstrip.
    + destruct (ascii_dec a dot) as [->|Hne]; [now rewrite Ascii.eqb_refl in Ha | discriminate].
    + destruct (ascii_dec a b) as [->|Hne]; [|discriminate].
      destruct (IH y r Hp Hstrip) as (r0 & -> & ->).
      exists r0. split; reflexivity.
Qed.

Lemma last_char_app (a b : string) :
  b <> EmptyString -> last_char (a +:+ b) = last_char b.
Proof.
  intros Hb. induction a as [|c a IH]; [reflexivity|].
  simpl. rewrite IH. destruct (a +:+ b) eqn:Hab; [|reflexivity].
  destruct a; simpl in Hab; [contradiction | discriminate].
Qed.

(** *** Digits *)

Lemma digit_of_not_dot (d : Z) : 0 <= d < 36 -> Ascii.eqb (Base36.digit_of d) dot = false.
Proof.
  intros Hd. destruct (Ascii.eqb_spec (Base36.digit_of d) dot) as [Heq|]; [|reflexivity].
  pose proof (Base36Facts.digit_val_of d Hd) as Hval. rewrite Heq in Hval. discriminate.
Qed.

Lemma to_base36_rec_dot_free (depth : nat) (n : Z) :
  dot_free (Base36.to_base36_rec depth n).
Proof.
  unfold dot_free. revert n. induction depth as [|depth IH]; intros n.
  - simpl. rewrite digit_of_not_dot by (apply Z.mod_pos_bound; lia). reflexivity.
  - cbn [Base36.to_base36_rec]. destruct (n <? 36).
    + simpl. rewrite digit_of_not_dot by (apply Z.mod_pos_bound; lia). reflexivity.
    + rewrite has_char_app, IH. simpl.
      rewrite digit_of_not_dot by (apply Z.mod_pos_bound; lia). reflexivity.
Qed.

Lemma to_base36_dot_free (n : Z) : dot_free (Base36.to_base36 n).
Proof. apply to_base36_rec_dot_free. Qed.

Lemma string_of_uint_dot_free (d : Decimal.uint) :
  dot_free (NilEmpty.string_of_uint d).
Proof. unfold dot_free. induction d; simpl; assumption || reflexivity. Qed.

Lemma str_of_Z_dot_free (n : Z) : 0 < n -> dot_free (str_of_Z n).
Proof.
  intros Hn. destruct n as [|p|p]; try lia.
  unfold str_of_Z. simpl.
  pose proof (DecimalPos.Unsigned.to_uint_nonnil p) as Hnil.
  destruct (Pos.to_uint p) eqn:Hp; try contradiction;
    rewrite <- Hp; unfold NilZero.string_of_uint; rewrite Hp; rewrite <- Hp;
    apply string_of_uint_dot_free.
Qed.

Lemma uint_of_str_of_Z (n : Z) :
  0 < n ->
  exists d, NilZero.uint_of_string (str_of_Z n) = Some d /\ Z.of_uint d = n.
Proof.
  intros Hn. destruct n as [|p|p]; try lia.
  exists (Pos.to_uint p). split.
  - unfold str_of_Z. simpl. apply NilZero.usu. apply DecimalPos.Unsigned.to_uint_nonnil.
  - unfold Z.of_uint. now rewrite DecimalPos.Unsigned.of_to.
Qed.

(** *** Tokens *)

Section Codec.
Context (V : VerboseTime) (cfg : Config).
Hypothesis Htimes : short_names cfg = false -> lossless V /\ dot_free_times V.

Lemma time_text_dot_free (t : Z) : dot_free (time_text V cfg t).
Proof.
  unfold time_text. destruct (short_names cfg) eqn:Hmode.
  - apply to_base36_dot_free.
  - now apply Htimes.
Qed.

Lemma parse_time_text (t : Z) : 0 <= t -> parse_time V cfg (time_text V cfg t) = Some t.
Proof.
  intros Ht. unfold parse_time, time_text. destruct (short_names cfg) eqn:Hmode.
  - now apply Base36Facts.from_to_base36.
  - now apply Htimes.
Qed.

Lemma parse_single_tokens (t : Z) (rest : list string) :
  0 <= t ->
  parse_single V cfg (time_tokens V cfg (Single t) ++ rest) = Some (Single t, rest).
Proof.
  intros Ht. simpl. now rewrite parse_time_text.
Qed.

Lemma parse_range_tokens (t1 t2 : Z) (rest : list string) :
  0 <= t1 -> 0 <= t2 ->
  parse_range V cfg (time_tokens V cfg (Range t1 t2) ++ rest) = Some (Range t1 t2, rest).
Proof.
  intros H1 H2.
  pose proof (parse_time_text t1 H1) as P1. pose proof (parse_time_text t2 H2) as P2.
  unfold parse_range, time_tokens.
  destruct (short_names cfg); simpl; now rewrite P1, P2.
Qed.

Lemma time_tokens_dot_free (r : TimeRange) : Forall dot_free (time_tokens V cfg r).
Proof.
  destruct r as [t|t1 t2]; simpl.
  - repeat constructor. apply time_text_dot_free.
  - pose proof (time_text_dot_free t1). pose proof (time_text_dot_free t2).
    destruct (short_names cfg); repeat constructor; assumption.
Qed.

Lemma flag_tokens_dot_free (e : ChainEntry) : Forall dot_free (flag_tokens e).
Proof.
  unfold flag_tokens.
  destruct (manifest e), (compressed e), (encrypted e), (partial e);
    repeat constructor.
Qed.

Lemma volume_tokens_dot_free (e : ChainEntry) :
  volume_ok e = true -> Forall dot_free (volume_tokens e).
Proof.
  unfold volume_ok, volume_tokens. destruct (volume_number e) as [n|]; [|constructor].
  intros Hok. apply andb_prop in Hok as [Hn Hs]. rewrite Hs.
  apply Z.ltb_lt in Hn. repeat constructor.
  unfold dot_free. rewrite has_char_app. simpl. now apply str_of_Z_dot_free.
Qed.

Lemma type_token_dot_free (e : ChainEntry) : dot_free (type_token e).
Proof.
  unfold type_token. destruct (set_type e), (time_range e); reflexivity.
Qed.

Lemma tokens_dot_free (e : ChainEntry) :
  volume_ok e = true -> Forall dot_free (tokens V cfg e).
Proof.
  intros Hok. unfold tokens. constructor; [apply type_token_dot_free|].
  apply Forall_app. split; [apply time_tokens_dot_free|].
  apply Forall_app. split; [now apply volume_tokens_dot_free | apply flag_tokens_dot_free].
Qed.

Lemma parse_flags_tokens (e : ChainEntry) :
  parse_flags (flag_tokens e) = Some (flags_of e).
Proof.
  unfold flag_tokens, flags_of.
  destruct (manifest e), (compressed e), (encrypted e), (partial e); reflexivity.
Qed.

Lemma parse_volume_tokens (e : ChainEntry) :
  volume_ok e = true ->
  parse_volume (volume_tokens e ++ flag_tokens e) = (volume_number e, flag_tokens e).
Proof.
  unfold volume_ok, volume_tokens. destruct (volume_number e) as [n|].
  - intros Hok. apply andb_prop in Hok as [Hn Hs]. rewrite Hs.
    apply Z.ltb_lt in Hn. destruct (uint_of_str_of_Z n Hn) as (d & Hd & Hz).
    cbn [app]. unfold parse_volume. rewrite strip_prefix_app.
    cbn [mbind option_bind]. rewrite Hd, Hz. reflexivity.
  - intros _. unfold flag_tokens.
    destruct (manifest e), (compressed e), (encrypted e), (partial e); reflexivity.
Qed.

Lemma entry_eta (e : ChainEntry) :
  entry (set_type e) (time_range e) (volume_number e) (flags_of e) = e.
Proof. now destruct e. Qed.

(** *** Each grammar reads the tokens of its own entries *)

Lemma parse_archive_tokens (e : ChainEntry) :
  supports_volumes (set_type e) = true ->
  well_formed e = true ->
  parse_archive V cfg (tokens V cfg e) = Some e.
Proof.
  intros Hs Hwf. unfold well_formed in Hwf.
  apply andb_prop in Hwf as [Hwf Hvol]. apply andb_prop in Hwf as [Hshape Hnn].
  pose proof (parse_volume_tokens e Hvol) as Hpv.
  pose proof (parse_flags_tokens e) as Hpf.
  pose proof (entry_eta e) as Heta.
  unfold tokens, type_token, time_shape_ok in *.
  destruct (set_type e); try discriminate; destruct (time_range e) as [t|t1 t2];
    try discriminate; simpl in Hnn; unfold parse_archive.
  - apply Z.leb_le in Hnn.
    change (String.eqb "full" "full") with true. cbn [mbind option_bind].
    rewrite parse_single_tokens by exact Hnn. cbn [mbind option_bind].
    rewrite Hpv, Hpf. cbn [mbind option_bind]. now rewrite Heta.
  - apply andb_prop in Hnn as [H1 H2]. apply Z.leb_le in H1, H2.
    change (String.eqb "inc" "full") with false. change (String.eqb "inc" "inc") with true.
    cbn [mbind option_bind].
    rewrite parse_range_tokens by assumption. cbn [mbind option_bind].
    rewrite Hpv, Hpf. cbn [mbind option_bind]. now rewrite Heta.
Qed.

Lemma no_volume (e : ChainEntry) :
  supports_volumes (set_type e) = false ->
  volume_ok e = true ->
  volume_number e = None /\ volume_tokens e = [].
Proof.
  unfold volume_ok, volume_tokens. intros Hs.
  destruct (volume_number e) as [n|]; [|now split].
  rewrite Hs, andb_false_r. discriminate.
Qed.

Lemma parse_signature_tokens (e : ChainEntry) :
  set_type e = FullSignature \/ set_type e = NewSignature ->
  well_formed e = true ->
  parse_signature V cfg (tokens V cfg e) = Some e.
Proof.
  intros Hs Hwf. unfold well_formed in Hwf.
  apply andb_prop in Hwf as [Hwf Hvol]. apply andb_prop in Hwf as [Hshape Hnn].
  assert (Hsup : supports_volumes (set_type e) = false) by (destruct Hs as [-> | ->]; reflexivity).
  destruct (no_volume e Hsup Hvol) as [Hnone Hnil].
  pose proof (parse_flags_tokens e) as Hpf.
  pose proof (entry_eta e) as Heta. rewrite Hnone in Heta.
  unfold tokens, type_token, time_shape_ok in *. rewrite Hnil. cbn [app].
  destruct Hs as [Hs | Hs]; rewrite Hs in *; destruct (time_range e) as [t|t1 t2];
    try discriminate; simpl in Hnn; unfold parse_signature.
  - apply Z.leb_le in Hnn.
    change (String.eqb "full-sig" "full-sig") with true. cbn [mbind option_bind].
    rewrite parse_single_tokens by exact Hnn. cbn [mbind option_bind].
    rewrite Hpf. cbn [mbind option_bind]. now rewrite Heta.
  - apply andb_prop in Hnn as [H1 H2]. apply Z.leb_le in H1, H2.
    change (String.eqb "new-sig" "full-sig") with false.
    change (String.eqb "new-sig" "new-sig") with true.
    cbn [mbind option_bind].
    rewrite parse_range_tokens by assumption. cbn [mbind option_bind].
    rewrite Hpf. cbn [mbind option_bind]. now rewrite Heta.
Qed.

Lemma parse_manifest_tokens (e : ChainEntry) :
  set_type e = Manifest ->
  well_formed e = true ->
  manifest e = true ->
  parse_manifest V cfg (tokens V cfg e) = Some e.
Proof.
  intros Hs Hwf Hm. unfold well_formed in Hwf.
  apply andb_prop in Hwf as [Hwf Hvol]. apply andb_prop in Hwf as [Hshape Hnn].
  assert (Hsup : supports_volumes (set_type e) = false) by now rewrite Hs.
  destruct (no_volume e Hsup Hvol) as [Hnone Hnil].
  pose proof (parse_flags_tokens e) as Hpf.
  pose proof (entry_eta e) as Heta. rewrite Hnone, Hs in Heta.
  unfold tokens, type_token in *. rewrite Hnil, Hs. cbn [app].
  destruct (time_range e) as [t|t1 t2]; simpl in Hnn; unfold parse_manifest.
  - apply Z.leb_le in Hnn.
    change (String.eqb "full" "full") with true. cbn [mbind option_bind].
    rewrite parse_single_tokens by exact Hnn. cbn [mbind option_bind].
    rewrite Hpf. cbn [mbind option_bind]. unfold flags_of at 1. cbn [f_manifest].
    rewrite Hm. now rewrite Heta.
  - apply andb_prop in Hnn as [H1 H2]. apply Z.leb_le in H1, H2.
    change (String.eqb "inc" "full") with false. change (String.eqb "inc" "inc") with true.
    cbn [mbind option_bind].
    rewrite parse_range_tokens by assumption. cbn [mbind option_bind].
    rewrite Hpf. cbn [mbind option_bind]. unfold flags_of at 1. cbn [f_manifest].
    rewrite Hm. now rewrite Heta.
Qed.

(** *** Attempts under the prefix of another type *)

Lemma join_cons (tok : string) (rest : list string) :
  rest <> [] ->
  join "." (tok :: rest) = tok +:+ String dot (join "." rest).
Proof. destruct rest; [contradiction | reflexivity]. Qed.

Lemma attempt_own (p : string) (grammar : list string -> option ChainEntry)
    (toks : list string) :
  toks <> [] -> Forall dot_free toks ->
  attempt p grammar (p +:+ join "." toks) = grammar toks.
Proof.
  intros Hne Hfree. unfold attempt. rewrite strip_prefix_app. cbn [mbind option_bind].
  pose proof (split_join dot toks Hne Hfree) as Hsplit. unfold dot in *.
  now rewrite Hsplit.
Qed.

Lemma attempt_other (p x : string) (grammar : list string -> option ChainEntry)
    (tok : string) (rest : list string) :
  dot_free p -> dot_free x -> dot_free tok ->
  rest <> [] -> Forall dot_free rest ->
  (forall r0, p +:+ r0 = x +:+ tok -> grammar (r0 :: rest) = None) ->
  attempt p grammar (x +:+ join "." (tok :: rest)) = None.
Proof.
  intros Hp Hx Htok Hne Hrest Hreject. unfold attempt.
  rewrite (join_cons tok rest Hne), <- append_assoc.
  destruct (strip_prefix p ((x +:+ tok) +:+ String dot (join "." rest))) as [r|] eqn:Hstrip;
    [|reflexivity].
  destruct (strip_prefix_before_dot p (x +:+ tok) (join "." rest) r Hp Hstrip)
    as (r0 & Hxr & ->).
  cbn [mbind option_bind].
  assert (Hr0 : dot_free r0).
  { assert (Hall : dot_free (x +:+ tok)).
    { unfold dot_free in *. rewrite has_char_app, Hx, Htok. reflexivity. }
    rewrite Hxr in Hall. unfold dot_free in *. rewrite has_char_app in Hall.
    now apply orb_false_elim in Hall. }
  pose proof (split_join dot rest Hne Hrest) as Hsplit.
  pose proof (split_free dot r0 Hr0) as Hfirst. unfold dot in Hsplit, Hfirst |- *.
  rewrite split_app_sep, Hfirst, Hsplit.
  cbn [app]. apply Hreject. now symmetry.
Qed.

Lemma last_chars_differ (p x a b : string) :
  a <> EmptyString -> b <> EmptyString ->
  last_char a <> last_char b -> p +:+ a <> x +:+ b.
Proof.
  intros Ha Hb Hne Heq. apply Hne.
  rewrite <- (last_char_app p a Ha), <- (last_char_app x b Hb). now rewrite Heq.
Qed.

Lemma parse_flags_volume (x : string) (toks : list string) :
  parse_flags (("vol" +:+ x) :: toks) = None.
Proof. reflexivity. Qed.

Lemma manifest_rejects_signature (p x tok : string) (rest : list string) :
  tok = "full-sig" \/ tok = "new-sig" ->
  forall r0, p +:+ r0 = x +:+ tok -> parse_manifest V cfg (r0 :: rest) = None.
Proof.
  intros Htok r0 Heq. unfold parse_manifest.
  destruct (String.eqb_spec r0 "full") as [-> | _].
  { exfalso. revert Heq. apply last_chars_differ; destruct Htok as [-> | ->]; discriminate. }
  destruct (String.eqb_spec r0 "inc") as [-> | _].
  { exfalso. revert Heq. apply last_chars_differ; destruct Htok as [-> | ->]; discriminate. }
  reflexivity.
Qed.

Lemma signature_rejects_archive (p x tok : string) (rest : list string) :
  tok = "full" \/ tok = "inc" ->
  forall r0, p +:+ r0 = x +:+ tok -> parse_signature V cfg (r0 :: rest) = None.
Proof.
  intros Htok r0 Heq. unfold parse_signature.
  destruct (String.eqb_spec r0 "full-sig") as [-> | _].
  { exfalso. revert Heq. apply last_chars_differ; destruct Htok as [-> | ->]; discriminate. }
  destruct (String.eqb_spec r0 "new-sig") as [-> | _].
  { exfalso. revert Heq. apply last_chars_differ; destruct Htok as [-> | ->]; discriminate. }
  reflexivity.
Qed.

(** After the times of an archive part comes a volume token or a flag other
    than [manifest], so the grammar of the manifests does not match. *)
Lemma manifest_flags_absent (e : ChainEntry) :
  supports_volumes (set_type e) = true ->
  manifest_ok e = true ->
  (f ← parse_flags (volume_tokens e ++ flag_tokens e);
   if f_manifest f then Some (entry Manifest (time_range e) None f) else None) = None.
Proof.
  intros Hs Hm. unfold manifest_ok, volume_tokens in *.
  destruct (volume_number e) as [n|].
  - rewrite Hs. cbn [app]. now rewrite parse_flags_volume.
  - cbn [app]. rewrite parse_flags_tokens. cbn [mbind option_bind].
    unfold flags_of. cbn [f_manifest].
    destruct (set_type e); try discriminate; now destruct (manifest e).
Qed.

Lemma manifest_rejects_archive (p x : string) (e : ChainEntry) :
  supports_volumes (set_type e) = true ->
  well_formed e = true ->
  manifest_ok e = true ->
  forall r0,
    p +:+ r0 = x +:+ type_token e ->
    parse_manifest V cfg
      (r0 :: time_tokens V cfg (time_range e) ++ volume_tokens e ++ flag_tokens e) = None.
Proof.
  intros Hs Hwf Hm r0 Heq. unfold well_formed in Hwf.
  apply andb_prop in Hwf as [Hwf Hvol]. apply andb_prop in Hwf as [Hshape Hnn].
  pose proof (manifest_flags_absent e Hs Hm) as Hflags.
  unfold type_token, time_shape_ok in *. unfold parse_manifest.
  destruct (set_type e); try discriminate; destruct (time_range e) as [t|t1 t2];
    try discriminate; simpl in Hnn.
  - apply Z.leb_le in Hnn.
    destruct (String.eqb_spec r0 "full") as [-> | _].
    + cbn [mbind option_bind]. rewrite parse_single_tokens by exact Hnn.
      cbn [mbind option_bind]. exact Hflags.
    + destruct (String.eqb_spec r0 "inc") as [-> | _]; [|reflexivity].
      exfalso. revert Heq. apply last_chars_differ; discriminate.
  - apply andb_prop in Hnn as [H1 H2]. apply Z.leb_le in H1, H2.
    destruct (String.eqb_spec r0 "full") as [-> | _].
    { exfalso. revert Heq. apply last_chars_differ; discriminate. }
    destruct (String.eqb_spec r0 "inc") as [-> | _]; [|reflexivity].
    cbn [mbind option_bind]. rewrite parse_range_tokens by assumption.
    cbn [mbind option_bind]. exact Hflags.
Qed.

Lemma tail_not_nil (e : ChainEntry) :
  (time_tokens V cfg (time_range e) ++ volume_tokens e ++ flag_tokens e)%list <> [].
Proof.
  destruct (time_range e); simpl; [discriminate|].
  destruct (short_names cfg); discriminate.
Qed.

Lemma type_prefix_dot_free (t : SetType) :
  prefixes_dot_free cfg -> dot_free (type_prefix cfg t).
Proof. intros (Hm & Hs & Ha). now destruct t. Qed.

(** decode after encode, for the entries and prefixes that the codec
    tells apart. *)
Lemma decode_encode (e : ChainEntry) :
  prefixes_dot_free cfg ->
  well_formed e = true ->
  manifest_ok e = true ->
  decode V cfg (encode V cfg e) = Some e.
Proof.
  intros Hcfg Hwf Hm.
  assert (Hvol : volume_ok e = true).
  { unfold well_formed in Hwf. now apply andb_prop in Hwf as [_ Hvol]. }
  pose proof (tokens_dot_free e Hvol) as Hfree.
  assert (Hne : tokens V cfg e <> []) by discriminate.
  pose proof (type_prefix_dot_free (set_type e) Hcfg) as Hx.
  destruct Hcfg as (Hpm & Hps & Hpa).
  unfold decode, encode. rewrite strip_prefix_app. cbn [mbind option_bind].
  unfold tokens in *. inversion Hfree as [|? ? Htok Htail]; subst.
  destruct (set_type e) eqn:Hs.
  - (* Full *)
    rewrite (attempt_other _ _ (parse_manifest V cfg) _ _ Hpm Hx Htok (tail_not_nil e) Htail)
      by (apply manifest_rejects_archive; [now rewrite Hs | exact Hwf | exact Hm]).
    rewrite (attempt_other _ _ (parse_signature V cfg) _ _ Hps Hx Htok (tail_not_nil e) Htail)
      by (apply signature_rejects_archive; unfold type_token; rewrite Hs; now left).
    cbn [or_else type_prefix].
    rewrite (attempt_own _ (parse_archive V cfg) _ Hne Hfree).
    apply parse_archive_tokens; [now rewrite Hs | exact Hwf].
  - (* Incremental *)
    rewrite (attempt_other _ _ (parse_manifest V cfg) _ _ Hpm Hx Htok (tail_not_nil e) Htail)
      by (apply manifest_rejects_archive; [now rewrite Hs | exact Hwf | exact Hm]).
    rewrite (attempt_other _ _ (parse_signature V cfg) _ _ Hps Hx Htok (tail_not_nil e) Htail)
      by (apply signature_rejects_archive; unfold type_token; rewrite Hs; now right).
    cbn [or_else type_prefix].
    rewrite (attempt_own _ (parse_archive V cfg) _ Hne Hfree).
    apply parse_archive_tokens; [now rewrite Hs | exact Hwf].
  - (* FullSignature *)
    rewrite (attempt_other _ _ (parse_manifest V cfg) _ _ Hpm Hx Htok (tail_not_nil e) Htail)
      by (apply manifest_rejects_signature; unfold type_token; rewrite Hs; now left).
    cbn [or_else type_prefix].
    rewrite (attempt_own _ (parse_signature V cfg) _ Hne Hfree).
    pose proof (parse_signature_tokens e (or_introl Hs) Hwf) as Hparse.
    unfold tokens in Hparse. now rewrite Hparse.
  - (* NewSignature *)
    rewrite (attempt_other _ _ (parse_manifest V cfg) _ _ Hpm Hx Htok (tail_not_nil e) Htail)
      by (apply manifest_rejects_signature; unfold type_token; rewrite Hs; now right).
    cbn [or_else type_prefix].
    rewrite (attempt_own _ (parse_signature V cfg) _ Hne Hfree).
    pose proof (parse_signature_tokens e (or_intror Hs) Hwf) as Hparse.
    unfold tokens in Hparse. now rewrite Hparse.
  - (* Manifest *)
    cbn [type_prefix].
    rewrite (attempt_own _ (parse_manifest V cfg) _ Hne Hfree).
    assert (Hflag : manifest e = true) by (unfold manifest_ok in Hm; now rewrite Hs in Hm).
    pose proof (parse_manifest_tokens e Hs Hwf Hflag) as Hparse.
    unfold tokens in Hparse. now rewrite Hparse.
Qed.

End Codec.

(** *** The sample time text *)

Lemma epoch_seconds_lossless : lossless epoch_seconds.
Proof.
  intros t Ht. unfold epoch_seconds, str_of_Z. cbn [timetostring stringtotime].
  rewrite NilZero.isi.
  - cbn [fmap option_fmap option_map]. f_equal. apply DecimalZ.of_to.
  - destruct t; try discriminate. simpl. intros [= H].
    now apply (DecimalPos.Unsigned.to_uint_nonnil p).
  - destruct t; try discriminate. lia.
Qed.

Lemma epoch_seconds_dot_free : dot_free_times epoch_seconds.
Proof.
  intros t. unfold epoch_seconds, str_of_Z, dot_free. cbn [timetostring].
  destruct t as [|p|p]; [reflexivity| |]; cbn [Z.to_int NilZero.string_of_int].
  - pose proof (DecimalPos.Unsigned.to_uint_nonnil p) as Hnil.
    unfold NilZero.string_of_uint.
    destruct (Pos.to_uint p) eqn:Hp; try contradiction; rewrite <- Hp;
      apply string_of_uint_dot_free.
  - pose proof (DecimalPos.Unsigned.to_uint_nonnil p) as Hnil.
    unfold NilZero.string_of_uint. cbn [has_char]. rewrite orb_false_l.
    destruct (Pos.to_uint p) eqn:Hp; try contradiction; rewrite <- Hp;
      apply string_of_uint_dot_free.
Qed.

(** The names of a few entries, in both modes. *)
Example encode_samples :
  encode epoch_seconds (prefixed false) inc_volume = "global-arch-inc.10.to.20.vol23"
  /\ encode epoch_seconds (prefixed true) inc_volume = "global-arch-inc.a.k.vol23"
  /\ encode epoch_seconds (prefixed false) manifest_of_full = "global-mani-full.20.manifest"
  /\ encode epoch_seconds (unprefixed true) early_full = "full.gz".
Proof. repeat split; reflexivity. Qed.

(** C1, as the codec has it.  In both naming modes and under any global
    prefix, decoding the name that encoding produces gives back the entry in
    every field, for every set type, any non-negative timestamps, any
    positive volume number on a Full or Incremental entry, and any
    combination of the compressed, encrypted and partial flags, provided
    that the manifest token is left to the Manifest entries (a Manifest
    carries the manifest flag; a Full or Incremental entry carries it only
    next to a volume number) and that the three type prefixes hold no dot.
    The verbose time text must be lossless and free of dots. *)
Theorem naming_roundtrip (V : VerboseTime) (cfg : Config) (e : ChainEntry) :
  (short_names cfg = false -> lossless V /\ dot_free_times V) ->
  prefixes_dot_free cfg ->
  well_formed e = true ->
  manifest_ok e = true ->
  decode V cfg (encode V cfg e) = Some e.
Proof. intros Htimes. now apply decode_encode. Qed.

Lemma naming_roundtrip_witness :
  decode epoch_seconds (prefixed false) (encode epoch_seconds (prefixed false) inc_volume)
  = Some inc_volume.
Proof.
  apply (naming_roundtrip epoch_seconds (prefixed false) inc_volume).
  - intros _. split; [exact epoch_seconds_lossless | exact epoch_seconds_dot_free].
  - repeat split; reflexivity.
  - reflexivity.
  - reflexivity.
Defined.

(** C1 as stated fails twice.  Without prefixes the Full entry that
    carries the manifest flag and the Manifest entry of the same set have
    the same name, which decodes to the Manifest.  And under an archive
    prefix that holds a dot, the compact name of a Full entry can be read
    under the signature prefix. *)
Lemma naming_roundtrip_fails :
  (well_formed full_with_manifest_flag = true
   /\ encode epoch_seconds (unprefixed false) full_with_manifest_flag
      = encode epoch_seconds (unprefixed false) manifest_of_full
   /\ decode epoch_seconds (unprefixed false)
        (encode epoch_seconds (unprefixed false) full_with_manifest_flag)
      = Some manifest_of_full
   /\ decode epoch_seconds (unprefixed false)
        (encode epoch_seconds (unprefixed false) full_with_manifest_flag)
      <> Some full_with_manifest_flag)
  /\ (well_formed early_full = true
      /\ manifest_ok early_full = true
      /\ encode epoch_seconds dotted early_full = "full-sig.full.gz"
      /\ decode epoch_seconds dotted (encode epoch_seconds dotted early_full)
         <> Some early_full).
Proof.
  split.
  - split; [reflexivity|]. split; [reflexivity|]. split; [reflexivity|].
    intros H. vm_compute in H. discriminate.
  - split; [reflexivity|]. split; [reflexivity|]. split; [reflexivity|].
    intros H. vm_compute in H. discriminate.
Qed.

End FileNamingFacts.

(** ** More of the AliCloud backend: listing, round trips, construction *)

Module AliCloudExtras.
Import PyStr PyStrFacts AliCloud AliCloudFacts FileNamingFacts.

Lemma prefix_split (p k : string) :
  String.prefix p k = true -> k = p +:+ drop (String.length p) k.
Proof.
  revert k. induction p as [|a p IH]; intros k H; [reflexivity|].
  destruct k as [|b k]; [discriminate|]. simpl in H.
  destruct (ascii_dec a b) as [->|]; [|discriminate].
  simpl. f_equal. now apply IH.
Qed.

Lemma replace_first_prefix (p f : string) : replace_first p EmptyString (p +:+ f) = f.
Proof.
  destruct p as [|a p]; [destruct f; reflexivity|].
  cbn [replace_first append]. change (String a (p +:+ f)) with (String a p +:+ f).
  rewrite prefix_app, drop_app. reflexivity.
Qed.

Lemma append_inj_l (p a b : string) : p +:+ a = p +:+ b -> a = b.
Proof. induction p; simpl; [easy | intros [= H]; auto]. Qed.

Lemma connected_with_objects (s : State) (objects objects' : gmap string string) :
  connected s objects -> connected (with_objects s objects') objects'.
Proof.
  intros (b & Hb & Hobj). exists b. unfold with_objects. rewrite Hb. simpl.
  split; [exact Hb | apply lookup_insert_eq].
Qed.

Lemma connected_with_file (s : State) (objects : gmap string string) (f c : string) :
  connected s objects -> connected (with_file s f c) objects.
Proof. intros (b & Hb & Hobj). now exists b. Qed.

Lemma remote_key_with_objects (s : State) (objects : gmap string string) (f : string) :
  remote_key (with_objects s objects) f = remote_key s f.
Proof. unfold remote_key, with_objects. now destruct (bucket (self s)). Qed.

Lemma _list_connected (s : State) (objects : gmap string string) :
  connected s objects ->
  _list s
  = (Ok (map (replace_first (key_prefix (self s)) EmptyString)
           (List.filter (startswith (key_prefix (self s)))
              (merge_sort Oss2.key_le (map fst (map_to_list objects))))), s).
Proof.
  intros (b & Hb & Hobj).
  unfold _list, list_filenames_in_bucket, self_bucket, get_self, Oss2.ObjectIterator,
    Oss2.bucket_content. run.
  rewrite Hb, Hobj. reflexivity.
Qed.

Lemma NoDup_map_on {A B} (g : A -> B) (l : list A) :
  (forall x y, In x l -> In y l -> g x = g y -> x = y) ->
  List.NoDup l -> List.NoDup (map g l).
Proof.
  induction l as [|a l IH]; intros Hinj Hnd; [constructor|].
  inversion Hnd as [|? ? Hnotin Hrest]; subst. simpl. constructor.
  - intros Hin. apply in_map_iff in Hin as (y & Heq & Hy).
    apply Hnotin. rewrite (Hinj a y); [exact Hy | now left | now right | now symmetry].
  - apply IH; [|exact Hrest]. intros x y Hx Hy. apply Hinj; now right.
Qed.

Lemma In_listed_keys (objects : gmap string string) (p k : string) :
  In k (List.filter (startswith p) (merge_sort Oss2.key_le (map fst (map_to_list objects))))
  <-> String.prefix p k = true /\ is_Some (objects !! k).
Proof.
  rewrite List.filter_In. unfold startswith.
  rewrite <- list_elem_of_In, merge_sort_Permutation, list_elem_of_fmap.
  split.
  - intros [([k' v] & -> & Hkv) Hp]. apply elem_of_map_to_list in Hkv.
    split; [exact Hp | now exists v].
  - intros [Hp [v Hv]]. split; [|exact Hp].
    exists (k, v). split; [reflexivity | now apply elem_of_map_to_list].
Qed.

Lemma list_reports_stored_names_aux (s : State) (objects : gmap string string) :
  connected s objects ->
  exists names,
    _list s = (Ok names, s)
    /\ forall filename, In filename names <-> is_Some (objects !! remote_key s filename).
Proof.
  intros Hc. eexists. split; [apply (_list_connected s objects Hc)|].
  intros filename. unfold remote_key. rewrite in_map_iff. split.
  - intros (k & <- & Hk). apply In_listed_keys in Hk as [Hp Hsome].
    rewrite (prefix_split _ _ Hp) in Hsome |- *. now rewrite replace_first_prefix.
  - intros Hsome. exists (key_prefix (self s) +:+ filename).
    split; [apply replace_first_prefix|].
    apply In_listed_keys. split; [apply prefix_app | exact Hsome].
Qed.

(** X1. On an open session [_list] returns exactly the names whose key
    [key_prefix + name] is in the bucket, each of them once, and changes
    nothing. *)
Theorem list_reports_stored_names (s : State) (objects : gmap string string) :
  connected s objects ->
  exists names,
    _list s = (Ok names, s)
    /\ List.NoDup names
    /\ forall filename, In filename names <-> is_Some (objects !! remote_key s filename).
Proof.
  intros Hc. destruct (list_reports_stored_names_aux s objects Hc) as (names & Hlist & Hin).
  exists names. split; [exact Hlist | split; [|exact Hin]].
  rewrite (_list_connected s objects Hc) in Hlist. injection Hlist as <-.
  apply NoDup_map_on.
  - intros x y Hx Hy Heq.
    apply In_listed_keys in Hx as [Hx _]. apply In_listed_keys in Hy as [Hy _].
    rewrite (prefix_split _ _ Hx), (prefix_split _ _ Hy) in *.
    rewrite !replace_first_prefix in Heq. now rewrite Heq.
  - apply List.NoDup_filter. apply NoDup_ListNoDup.
    rewrite merge_sort_Permutation. apply NoDup_fst_map_to_list.
Qed.

Lemma list_reports_stored_names_witness :
  connected sample_state sample_objects
  /\ exists names, _list sample_state = (Ok names, sample_state) /\ In "present" names.
Proof.
  split; [exact AliCloudClaims.sample_state_connected|].
  destruct (list_reports_stored_names sample_state sample_objects
              AliCloudClaims.sample_state_connected) as (names & Hlist & _ & Hin).
  exists names. split; [exact Hlist|]. apply Hin. now eexists.
Defined.

(** X2. Upload, then download: on an open session, [_put] of a local file
    followed by [_get] of the same name leaves a local copy with the
    uploaded content, and the download changes nothing on the service. *)
Theorem put_then_get_restores_content (s : State) (objects : gmap string string)
    (source_path local_path : SourcePath) (filename content : string) :
  connected s objects ->
  files (world s) !! path_name source_path = Some content ->
  exists s1 s2,
    _put source_path filename s = (Ok tt, s1)
    /\ _get filename local_path s1 = (Ok tt, s2)
    /\ files (world s2) !! path_name local_path = Some content
    /\ oss (world s2) = oss (world s1)
    /\ self s2 = self s.
Proof.
  intros Hc Hfile.
  set (objects' := <[remote_key s filename := content]> objects).
  exists (with_objects s objects'), (with_file (with_objects s objects') (path_name local_path) content).
  split; [apply (_put_connected s objects _ _ _ Hc Hfile)|].
  split.
  - apply (_get_connected _ objects' _ _ _ (connected_with_objects s objects objects' Hc)).
    rewrite remote_key_with_objects. apply lookup_insert_eq.
  - split; [apply lookup_insert_eq|]. split; [reflexivity|].
    unfold with_objects. now destruct (bucket (self s)).
Qed.

Lemma sample_state_with_file_connected :
  connected sample_state_with_file sample_objects.
Proof. eexists. split; reflexivity. Qed.

Lemma put_then_get_restores_content_witness :
  exists s1 s2,
    _put sample_source "volume1" sample_state_with_file = (Ok tt, s1)
    /\ _get "volume1" sample_target s1 = (Ok tt, s2)
    /\ files (world s2) !! "/tmp/restored" = Some "payload".
Proof.
  destruct (put_then_get_restores_content sample_state_with_file sample_objects
              sample_source sample_target "volume1" "payload"
              sample_state_with_file_connected eq_refl)
    as (s1 & s2 & Hput & Hget & Hfile & _).
  exists s1, s2. split; [exact Hput | split; [exact Hget | exact Hfile]].
Defined.

(** X3. After [_put] the name is in the listing and [_query] reports the
    length of the uploaded content. *)
Theorem put_then_query_and_list (s : State) (objects : gmap string string)
    (source_path : SourcePath) (filename content : string) :
  connected s objects ->
  files (world s) !! path_name source_path = Some content ->
  exists s1 names,
    _put source_path filename s = (Ok tt, s1)
    /\ _query filename s1 = (Ok {| size := Z.of_nat (String.length content) |}, s1)
    /\ _list s1 = (Ok names, s1)
    /\ In filename names.
Proof.
  intros Hc Hfile.
  set (objects' := <[remote_key s filename := content]> objects).
  pose proof (connected_with_objects s objects objects' Hc) as Hc'.
  destruct (list_reports_stored_names_aux _ objects' Hc') as (names & Hlist & Hin).
  exists (with_objects s objects'), names.
  split; [apply (_put_connected s objects _ _ _ Hc Hfile)|].
  split.
  - rewrite (_query_connected _ objects' _ Hc'). rewrite remote_key_with_objects.
    unfold size_of, objects'. now rewrite lookup_insert_eq.
  - split; [exact Hlist|]. apply Hin. rewrite remote_key_with_objects.
    unfold objects'. rewrite lookup_insert_eq. now eexists.
Qed.

Lemma put_then_query_and_list_witness :
  exists s1 names,
    _put sample_source "volume1" sample_state_with_file = (Ok tt, s1)
    /\ _query "volume1" s1 = (Ok {| size := 7 |}, s1)
    /\ _list s1 = (Ok names, s1)
    /\ In "volume1" names.
Proof.
  exact (put_then_query_and_list sample_state_with_file sample_objects
           sample_source "volume1" "payload" sample_state_with_file_connected eq_refl).
Defined.

(** X4. After [_delete] the name is gone from the listing and [_query]
    reports -1 for it, while every other name keeps its answer. *)
Theorem delete_then_query_and_list (s : State) (objects : gmap string string)
    (filename : string) :
  connected s objects ->
  exists s1 names,
    _delete filename s = (Ok tt, s1)
    /\ _query filename s1 = (Ok {| size := -1 |}, s1)
    /\ _list s1 = (Ok names, s1)
    /\ ~ In filename names
    /\ forall other, other <> filename -> fst (_query other s1) = fst (_query other s).
Proof.
  intros Hc.
  set (objects' := delete (remote_key s filename) objects).
  pose proof (connected_with_objects s objects objects' Hc) as Hc'.
  destruct (list_reports_stored_names_aux _ objects' Hc') as (names & Hlist & Hin).
  exists (with_objects s objects'), names.
  split; [apply (_delete_connected s objects _ Hc)|].
  split; [|split; [exact Hlist | split]].
  - rewrite (_query_connected _ objects' _ Hc'). rewrite remote_key_with_objects.
    unfold size_of, objects'. now rewrite lookup_delete_eq.
  - intros H. apply Hin in H. rewrite remote_key_with_objects in H.
    unfold objects' in H. rewrite lookup_delete_eq in H. now destruct H.
  - intros other Hother.
    rewrite (_query_connected _ objects' _ Hc'), (_query_connected _ objects _ Hc).
    rewrite remote_key_with_objects. simpl. unfold size_of, objects'.
    rewrite lookup_delete_ne; [reflexivity|].
    unfold remote_key. intros Heq. apply append_inj_l in Heq. congruence.
Qed.

Lemma delete_then_query_and_list_witness :
  exists s1, _delete "present" sample_state = (Ok tt, s1)
             /\ _query "present" s1 = (Ok {| size := -1 |}, s1).
Proof.
  destruct (delete_then_query_and_list sample_state sample_objects "present"
              AliCloudClaims.sample_state_connected)
    as (s1 & names & Hdel & Hquery & _).
  exists s1. split; [exact Hdel | exact Hquery].
Defined.

Lemma _delete_list_connected (filename_list : list string) (s : State)
    (objects : gmap string string) :
  connected s objects ->
  _delete_list filename_list s
  = (Ok tt, with_objects s
              (fold_left (fun m f => delete (remote_key s f) m) filename_list objects)).
Proof.
  revert s objects. induction filename_list as [|f l IH]; intros s objects Hc.
  - simpl. now rewrite with_objects_same.
  - cbn [_delete_list fold_left]. unfold mbind, M_bind.
    rewrite (_delete_connected s objects f Hc).
    set (objects' := delete (remote_key s f) objects).
    rewrite (IH _ objects' (connected_with_objects s objects objects' Hc)).
    f_equal. destruct Hc as (b & Hb & Hobj). unfold with_objects. rewrite Hb.
    simpl. rewrite Hb. simpl. rewrite insert_insert_eq.
    reflexivity.
Qed.

Lemma fold_delete_lookup (keys : list string) (m : gmap string string) (k : string) :
  fold_left (fun m k' => delete k' m) keys m !! k
  = if decide (k ∈ keys) then None else m !! k.
Proof.
  revert m. induction keys as [|a keys IH]; intros m; [reflexivity|].
  cbn [fold_left]. rewrite IH.
  destruct (decide (a = k)) as [->|Hne].
  - rewrite lookup_delete_eq. rewrite (decide_True (P := k ∈ k :: keys)) by apply list_elem_of_here.
    now destruct (decide (k ∈ keys)).
  - rewrite lookup_delete_ne by exact Hne.
    destruct (decide (k ∈ keys)) as [Hin|Hnin].
    + rewrite decide_True; [reflexivity | now apply list_elem_of_further].
    + rewrite decide_False; [reflexivity|].
      intros Hin. apply elem_of_cons in Hin as [?|?]; congruence.
Qed.

Lemma fold_delete_keys (s : State) (l : list string) (m : gmap string string) :
  fold_left (fun m f => delete (remote_key s f) m) l m
  = fold_left (fun m k => delete k m) (map (remote_key s) l) m.
Proof. revert m. induction l as [|f l IH]; intros m; [reflexivity | apply IH]. Qed.

(** X5. [_delete_list] completes whether or not the names are stored;
    afterwards [_query] reports -1 for each name of the list, every other
    name keeps its answer, and the local disk is untouched. *)
Theorem delete_list_removes_exactly (s : State) (objects : gmap string string)
    (filename_list : list string) :
  connected s objects ->
  exists s1,
    _delete_list filename_list s = (Ok tt, s1)
    /\ (forall filename, In filename filename_list ->
          _query filename s1 = (Ok {| size := -1 |}, s1))
    /\ (forall filename, ~ In filename filename_list ->
          fst (_query filename s1) = fst (_query filename s))
    /\ files (world s1) = files (world s).
Proof.
  intros Hc.
  set (objects' := fold_left (fun m f => delete (remote_key s f) m) filename_list objects).
  pose proof (connected_with_objects s objects objects' Hc) as Hc'.
  exists (with_objects s objects').
  split; [apply (_delete_list_connected filename_list s objects Hc)|].
  assert (Hlookup : forall filename,
             objects' !! remote_key s filename
             = if decide (filename ∈ filename_list) then None
               else objects !! remote_key s filename).
  { intros filename. unfold objects'. rewrite fold_delete_keys, fold_delete_lookup.
    destruct (decide (filename ∈ filename_list)) as [Hin|Hnin].
    - rewrite decide_True; [reflexivity | now apply list_elem_of_fmap_2].
    - rewrite decide_False; [reflexivity|].
      intros Hin. apply list_elem_of_fmap in Hin as (g & Heq & Hg).
      unfold remote_key in Heq. apply append_inj_l in Heq. congruence. }
  split; [|split].
  - intros filename Hin. rewrite (_query_connected _ objects' _ Hc').
    rewrite remote_key_with_objects. unfold size_of. rewrite Hlookup.
    rewrite decide_True; [reflexivity | now apply list_elem_of_In].
  - intros filename Hnin.
    rewrite (_query_connected _ objects' _ Hc'), (_query_connected _ objects _ Hc).
    rewrite remote_key_with_objects. simpl. unfold size_of. rewrite Hlookup.
    rewrite decide_False; [reflexivity | now rewrite list_elem_of_In].
  - unfold with_objects. now destruct (bucket (self s)).
Qed.

Lemma delete_list_removes_exactly_witness :
  exists s1, _delete_list ["present"; "absent"] sample_state = (Ok tt, s1)
             /\ _query "present" s1 = (Ok {| size := -1 |}, s1).
Proof.
  destruct (delete_list_removes_exactly sample_state sample_objects ["present"; "absent"]
              AliCloudClaims.sample_state_connected)
    as (s1 & Hdel & Hin & _).
  exists s1. split; [exact Hdel | apply Hin; now left].
Defined.

(** X6. [_get] of a name whose key is not in the bucket raises the
    service's [NoSuchKey], which the backend does not catch; the instance,
    the service and every local file other than the target are as they
    were.  Only [_query] turns that error into the size -1. *)
Theorem get_of_missing_object_raises (s : State) (objects : gmap string string)
    (filename : string) (local_path : SourcePath) :
  connected s objects ->
  objects !! remote_key s filename = None ->
  (exists s',
      _get filename local_path s = (Raise NoSuchKey, s')
      /\ self s' = self s
      /\ oss (world s') = oss (world s)
      /\ forall other,
           other <> path_name local_path ->
           files (world s') !! other = files (world s) !! other)
  /\ _query filename s = (Ok {| size := -1 |}, s).
Proof.
  intros Hc Hnone. split.
  - destruct Hc as (b & Hb & Hobj).
    unfold _get, remote_key, get_self, self_bucket in *.
    unfold Oss2.get_object_to_file, Oss2.bucket_content, modify_world. run.
    rewrite Hb. simpl. rewrite Hobj, Hnone.
    eexists. split; [reflexivity|]. repeat split.
    intros other Hother. simpl. now apply lookup_insert_ne.
  - rewrite (_query_connected s objects filename Hc). unfold size_of. now rewrite Hnone.
Qed.

Lemma get_of_missing_object_raises_witness :
  exists s',
    _get "absent" sample_target sample_state = (Raise NoSuchKey, s')
    /\ self s' = self sample_state.
Proof.
  destruct (proj1 (get_of_missing_object_raises sample_state sample_objects "absent"
                     sample_target AliCloudClaims.sample_state_connected eq_refl))
    as (s' & Hget & Hself & _).
  exists s'. split; [exact Hget | exact Hself].
Defined.

Lemma self_bucket_closed {A} (k : Bucket -> M State A) (s : State) :
  bucket (self s) = None ->
  (self_bucket ≫= k) s = (Raise (AttributeError "bucket"), s).
Proof. intros H. unfold self_bucket. run. now rewrite H. Qed.

(** X7. [_close] deletes the bucket handle: until the connection is reset
    every operation raises [AttributeError] and changes nothing, and the
    retry cleanup opens the session again on the same bucket, with the same
    objects and the same key prefix. *)
Theorem close_then_retry_cleanup (s : State) (objects : gmap string string) :
  oss (world s) !! bucket_name (self s) = Some objects ->
  exists s0 s1,
    _close s = (Ok tt, s0)
    /\ (forall filename, _query filename s0 = (Raise (AttributeError "bucket"), s0))
    /\ (forall filename, _delete filename s0 = (Raise (AttributeError "bucket"), s0))
    /\ (forall source_path filename,
          _put source_path filename s0 = (Raise (AttributeError "bucket"), s0))
    /\ (forall filename local_path,
          _get filename local_path s0 = (Raise (AttributeError "bucket"), s0))
    /\ _list s0 = (Raise (AttributeError "bucket"), s0)
    /\ _retry_cleanup s0 = (Ok tt, s1)
    /\ connected s1 objects
    /\ world s1 = world s
    /\ key_prefix (self s1) = key_prefix (self s).
Proof.
  intros Hobj.
  exists {| self := set_bucket None (self s); world := world s |},
         {| self := reopened (self s); world := world s |}.
  split; [reflexivity|].
  split; [intros filename; unfold _query, get_self, self_bucket; run; reflexivity|].
  split; [intros filename; now apply self_bucket_closed|].
  split; [intros source_path filename; unfold _put, get_self, self_bucket; run; reflexivity|].
  split; [intros filename local_path; unfold _get, get_self, self_bucket; run; reflexivity|].
  split; [now apply self_bucket_closed|].
  split.
  - unfold _retry_cleanup.
    rewrite (reset_connection_exists {| self := set_bucket None (self s); world := world s |}
               objects Hobj).
    reflexivity.
  - split; [|split; reflexivity].
    exists (fresh_bucket (self s)). split; [reflexivity | exact Hobj].
Qed.

Lemma close_then_retry_cleanup_witness :
  exists s0 s1,
    _close sample_state = (Ok tt, s0)
    /\ _query "present" s0 = (Raise (AttributeError "bucket"), s0)
    /\ _retry_cleanup s0 = (Ok tt, s1)
    /\ connected s1 sample_objects.
Proof.
  destruct (close_then_retry_cleanup sample_state sample_objects eq_refl)
    as (s0 & s1 & Hclose & Hquery & _ & _ & _ & _ & Hretry & Hc & _).
  exists s0, s1. split; [exact Hclose|]. split; [apply Hquery|].
  split; [exact Hretry | exact Hc].
Defined.

(** X8. A constructor that returns has opened a session: the instance
    holds the configured endpoint and credentials, its bucket is the host of
    the URL, and that bucket exists, created empty when it was missing;
    no other bucket and no local file has changed. *)
Theorem init_opens_session (env : Environment) (parsed_url : ParsedUrl) (w : World)
    (s : State) :
  init env parsed_url w = Ok s ->
  exists name,
    url_hostname parsed_url = Some name
    /\ name <> EmptyString
    /\ get_alicloud_configuration env
       = Ok (endpoint (self s), access_key_id (self s), access_key_secret (self s))
    /\ bucket_name (self s) = name
    /\ connected s (default ∅ (oss w !! name))
    /\ files (world s) = files w
    /\ forall other, other <> name -> oss (world s) !! other = oss w !! other.
Proof.
  unfold init. destruct (negb (has_oss2 env)); [discriminate|].
  unfold mbind, result_bind.
  destruct (get_alicloud_configuration env) as [[[e k] sec]|]; [|discriminate].
  destruct (url_hostname parsed_url) as [name|]; [|discriminate].
  destruct (nonempty name) eqn:Hname; [|discriminate].
  match goal with |- context [reset_connection ?s0] => set (s0' := s0) end.
  destruct (oss w !! name) as [objects|] eqn:Hobj.
  - rewrite (reset_connection_exists s0' objects Hobj). intros [= <-].
    exists name. repeat split; try reflexivity.
    + intros ->. discriminate.
    + exists (fresh_bucket (self s0')). split; [reflexivity|].
      simpl. now rewrite Hobj.
  - rewrite (reset_connection_missing s0' Hobj). intros [= <-].
    exists name. repeat split; try reflexivity.
    + intros ->. discriminate.
    + exists (fresh_bucket (self s0')). split; [reflexivity|].
      simpl. rewrite Hobj. apply lookup_insert_eq.
    + intros other Hother. simpl. now apply lookup_insert_ne.
Qed.

Lemma init_sample_session :
  init sample_environment sample_url empty_world = Ok sample_session.
Proof. vm_compute. reflexivity. Qed.

Lemma init_opens_session_witness :
  init sample_environment sample_url empty_world = Ok sample_session
  /\ bucket_name (self sample_session) = "bucket"
  /\ connected sample_session ∅.
Proof.
  split; [exact init_sample_session|].
  destruct (init_opens_session sample_environment sample_url empty_world sample_session
              init_sample_session)
    as (name & Hname & _ & _ & Hbucket & Hc & _).
  injection Hname as <-. split; [exact Hbucket | exact Hc].
Defined.


Lemma answers_lookup_other (s : State) (objects : gmap string string)
    (filename_list : list string) (query_dict : gmap string QueryResult) (filename : string) :
  ~ In filename filename_list ->
  answers s objects query_dict filename_list !! filename = query_dict !! filename.
Proof.
  revert query_dict. induction filename_list as [|f l IH]; intros query_dict Hnin;
    [reflexivity|].
  unfold answers in *. cbn [fold_left]. rewrite IH by (intros H; apply Hnin; now right).
  apply lookup_insert_ne. intros ->. apply Hnin. now left.
Qed.

(** X10. On an open session the dictionary of [_query_list] has an entry
    for each name of the list and for no other name, and the entry of a
    stored object is the length of its content. *)
Theorem query_list_answers_every_name (s : State) (objects : gmap string string)
    (filename_list : list string) :
  connected s objects ->
  exists query_dict,
    _query_list filename_list s = (Ok query_dict, s)
    /\ (forall filename, is_Some (query_dict !! filename) <-> In filename filename_list)
    /\ (forall filename content,
          In filename filename_list ->
          objects !! remote_key s filename = Some content ->
          query_dict !! filename = Some {| size := Z.of_nat (String.length content) |}).
Proof.
  intros Hc. exists (answers s objects ∅ filename_list).
  split; [apply (_query_list_from_connected s objects filename_list ∅ Hc)|]. split.
  - intros filename. split.
    + intros Hsome. destruct (in_dec string_dec filename filename_list) as [Hin|Hnin];
        [exact Hin|].
      rewrite (answers_lookup_other s objects filename_list ∅ filename Hnin) in Hsome.
      rewrite lookup_empty in Hsome. now destruct Hsome.
    + intros Hin. rewrite (answers_lookup s objects filename_list ∅ filename Hin).
      now eexists.
  - intros filename content Hin Hcontent.
    rewrite (answers_lookup s objects filename_list ∅ filename Hin).
    unfold size_of. now rewrite Hcontent.
Qed.

Lemma query_list_answers_every_name_witness :
  exists query_dict,
    _query_list ["present"; "absent"] sample_state = (Ok query_dict, sample_state)
    /\ query_dict !! "present" = Some {| size := 4 |}
    /\ query_dict !! "other" = None.
Proof.
  destruct (query_list_answers_every_name sample_state sample_objects ["present"; "absent"]
              AliCloudClaims.sample_state_connected)
    as (query_dict & Hlist & Hdom & Hsize).
  exists query_dict. split; [exact Hlist|]. split.
  - apply (Hsize "present" "data"); [now left | reflexivity].
  - destruct (query_dict !! "other") as [r|] eqn:Hr; [|reflexivity].
    assert (Hin : In "other" ["present"; "absent"]) by (apply Hdom; rewrite Hr; now eexists).
    destruct Hin as [[=]|[[=]|[]]].
Defined.

End AliCloudExtras.

(** ** More of the WebDAV backend: paths, connections, requests, listings,
    transfers *)

Module WebDAVExtras.
Import PyStr PyStrFacts WebDAV WebDAVFacts.

(** *** Paths *)

Lemma fold_slashes_cons_slash (s : string) :
  fold_slashes (String "/" s)
  = match s with
    | String "/" _ => fold_slashes s
    | _ => String "/" (fold_slashes s)
    end.
Proof.
  destruct s as [|c s]; [reflexivity|].
  cbn [fold_slashes]. rewrite Ascii.eqb_refl.
  destruct (Ascii.eqb_spec c "/") as [->|Hne]; [reflexivity|].
  destruct c as [[] [] [] [] [] [] [] []]; try reflexivity. contradiction.
Qed.

Lemma fold_slashes_cons_other (c : ascii) (s : string) :
  c <> "/"%char -> fold_slashes (String c s) = String c (fold_slashes s).
Proof.
  intros Hne. cbn [fold_slashes]. destruct (Ascii.eqb_spec c "/"); [contradiction | reflexivity].
Qed.

(** The first character is kept. *)
Lemma fold_slashes_head (c : ascii) (s : string) :
  exists t, fold_slashes (String c s) = String c t.
Proof.
  revert c. induction s as [|b s IH]; intros c.
  - simpl. destruct (Ascii.eqb c "/"); eexists; reflexivity.
  - destruct (Ascii.eqb_spec c "/") as [->|Hne].
    + rewrite fold_slashes_cons_slash.
      destruct (Ascii.eqb_spec b "/") as [->|Hb].
      * apply IH.
      * destruct b as [[] [] [] [] [] [] [] []]; try (eexists; reflexivity). contradiction.
    + rewrite fold_slashes_cons_other by exact Hne. eexists; reflexivity.
Qed.

Lemma no_repeated_slash_cons (a b : ascii) (s : string) :
  no_repeated_slash (String a (String b s))
  = negb (Ascii.eqb a "/" && Ascii.eqb b "/") && no_repeated_slash (String b s).
Proof. reflexivity. Qed.

Lemma fold_slashes_no_repeated (s : string) : no_repeated_slash (fold_slashes s) = true.
Proof.
  induction s as [|c s IH]; [reflexivity|].
  destruct (Ascii.eqb_spec c "/") as [->|Hne].
  - rewrite fold_slashes_cons_slash. destruct s as [|b s]; [reflexivity|].
    destruct (Ascii.eqb_spec b "/") as [->|Hb].
    + exact IH.
    + replace (match String b s with
               | String "/" _ => fold_slashes (String b s)
               | _ => String "/" (fold_slashes (String b s))
               end) with (String "/" (fold_slashes (String b s)))
        by (destruct b as [[] [] [] [] [] [] [] []]; try reflexivity; contradiction).
      rewrite fold_slashes_cons_other in * by exact Hb.
      rewrite no_repeated_slash_cons, IH.
      destruct (Ascii.eqb_spec b "/"); [contradiction|]. now rewrite andb_false_r.
  - rewrite fold_slashes_cons_other by exact Hne.
    destruct (fold_slashes s) as [|b t] eqn:Hf; [reflexivity|].
    rewrite no_repeated_slash_cons, IH.
    destruct (Ascii.eqb_spec c "/"); [contradiction | reflexivity].
Qed.

Lemma last_char_snoc (s : string) (c : ascii) : last_char (s +:+ String c EmptyString) = Some c.
Proof.
  induction s as [|a s IH]; [reflexivity|].
  simpl. rewrite IH. now destruct (s +:+ String c EmptyString).
Qed.

Lemma fold_slashes_last_char (s : string) : last_char (fold_slashes s) = last_char s.
Proof.
  induction s as [|c s IH]; [reflexivity|].
  destruct (Ascii.eqb_spec c "/") as [->|Hne].
  - rewrite fold_slashes_cons_slash. destruct s as [|b s]; [reflexivity|].
    destruct (Ascii.eqb_spec b "/") as [->|Hb].
    + rewrite IH. reflexivity.
    + replace (match String b s with
               | String "/" _ => fold_slashes (String b s)
               | _ => String "/" (fold_slashes (String b s))
               end) with (String "/" (fold_slashes (String b s)))
        by (destruct b as [[] [] [] [] [] [] [] []]; try reflexivity; contradiction).
      destruct (fold_slashes_head b s) as [t Ht]. rewrite Ht in *.
      cbn [last_char] in *. exact IH.
  - rewrite fold_slashes_cons_other by exact Hne.
    destruct s as [|b s]; [reflexivity|].
    destruct (fold_slashes_head b s) as [t Ht]. rewrite Ht in *.
    cbn [last_char] in *. exact IH.
Qed.

(** A string without repeated slashes is left as it is. *)
Lemma fold_slashes_fixed (s : string) : no_repeated_slash s = true -> fold_slashes s = s.
Proof.
  induction s as [|c s IH]; [reflexivity|].
  intros H. destruct s as [|b s].
  - simpl. now destruct (Ascii.eqb c "/").
  - rewrite no_repeated_slash_cons in H. apply andb_true_iff in H as [Hcb Hrest].
    specialize (IH Hrest).
    destruct (Ascii.eqb_spec c "/") as [->|Hne].
    + rewrite fold_slashes_cons_slash.
      destruct (Ascii.eqb_spec b "/") as [->|Hb]; [discriminate|].
      rewrite IH. destruct b as [[] [] [] [] [] [] [] []]; try reflexivity. contradiction.
    + rewrite fold_slashes_cons_other by exact Hne. now rewrite IH.
Qed.

(** Appending a slash to a folded string that ends in one adds nothing. *)
Lemma fold_slashes_snoc_slash (s : string) :
  no_repeated_slash s = true -> last_char s = Some "/"%char ->
  fold_slashes (s +:+ "/") = s.
Proof.
  induction s as [|c s IH]; [discriminate|].
  intros Hno Hlast. destruct s as [|b s].
  - injection Hlast as ->. reflexivity.
  - rewrite no_repeated_slash_cons in Hno. apply andb_true_iff in Hno as [Hcb Hrest].
    cbn [last_char] in Hlast. specialize (IH Hrest Hlast).
    change (String c (String b s) +:+ "/") with (String c (String b s +:+ "/")).
    destruct (Ascii.eqb_spec c "/") as [->|Hne].
    + rewrite fold_slashes_cons_slash.
      destruct (Ascii.eqb_spec b "/") as [->|Hb]; [discriminate|].
      rewrite IH.
      change (String b s +:+ "/") with (String b (s +:+ "/")).
      destruct b as [[] [] [] [] [] [] [] []]; try reflexivity. contradiction.
    + rewrite fold_slashes_cons_other by exact Hne. now rewrite IH.
Qed.

(** X11. The directory that the backend works in is a normal form:
    [sanitize_path] always gives a path that ends in a slash and has no two
    adjacent slashes, keeps the first character of a non-empty path, leaves
    such a normal path as it is, and is therefore idempotent. *)
Theorem sanitize_path_normal_form (path : string) :
  last_char (sanitize_path path) = Some "/"%char
  /\ no_repeated_slash (sanitize_path path) = true
  /\ (forall c rest, path = String c rest -> exists t, sanitize_path path = String c t)
  /\ (no_repeated_slash path = true -> last_char path = Some "/"%char ->
      sanitize_path path = path)
  /\ sanitize_path (sanitize_path path) = sanitize_path path.
Proof.
  assert (Hlast : forall p, last_char (sanitize_path p) = Some "/"%char).
  { intros p. unfold sanitize_path. destruct p as [|c p]; [reflexivity|].
    cbn [nonempty]. rewrite fold_slashes_last_char.
    apply (last_char_snoc (String c p) "/"). }
  assert (Hno : forall p, no_repeated_slash (sanitize_path p) = true).
  { intros p. unfold sanitize_path. destruct (nonempty p); [|reflexivity].
    apply fold_slashes_no_repeated. }
  assert (Hfixed : forall p, no_repeated_slash p = true -> last_char p = Some "/"%char ->
                             sanitize_path p = p).
  { intros p Hp Hl. unfold sanitize_path. destruct p as [|c p]; [discriminate|].
    cbn [nonempty]. now apply fold_slashes_snoc_slash. }
  split; [apply Hlast|]. split; [apply Hno|]. split; [|split].
  - intros c rest ->. unfold sanitize_path. cbn [nonempty].
    apply (fold_slashes_head c (rest +:+ "/")).
  - apply Hfixed.
  - apply Hfixed; [apply Hno | apply Hlast].
Qed.

Section Transport.
Context {Net : Type} (P : Platform Net).

Lemma set_conn_same (o : Backend) : set_conn (conn o) o = o.
Proof. now destruct o. Qed.

(** What a connect that renews the connection does. *)
Lemma connect_renews (forced : bool) (s : State Net) :
  negb forced && same_host (self s) = false ->
  connect P forced s
  = let o := self s in
    let host := url_hostname (parsed_url o) in
    let port := url_port (parsed_url o) in
    let opened (c : Connection) : result unit * State Net :=
      (Ok tt, {| self := set_conn (Some c) o; net := net s; sent := sent s |}) in
    if in_list (url_scheme (parsed_url o)) ["webdav"; "http"] then
      opened {| conn_host := host; conn_port := port; conn_class := HTTPConnection |}
    else if in_list (url_scheme (parsed_url o)) ["webdavs"; "https"] then
      if ssl_no_check_certificate P then
        opened {| conn_host := host; conn_port := port; conn_class := HTTPSConnection |}
      else match new_VerifiedHTTPSConnection P host port with
           | Ok c => opened c
           | Raise e => (Raise e, s)
           end
    else (Raise (FatalBackendException
                   ("WebDAV Unknown URI scheme: " +:+ url_scheme (parsed_url o))), s).
Proof.
  intros Hrenew. unfold connect, same_host in *. unfold get_self, _close, modify_self. run.
  cbv zeta. rewrite Hrenew.
  destruct (in_list _ ["webdav"; "http"]); [reflexivity|].
  destruct (in_list _ ["webdavs"; "https"]); [|reflexivity].
  destruct (ssl_no_check_certificate P); [reflexivity|].
  destruct (new_VerifiedHTTPSConnection P _ _); reflexivity.
Qed.

Lemma connect_reuses (s : State Net) :
  same_host (self s) = true -> connect P false s = (Ok tt, s).
Proof.
  intros Hsame. unfold connect, same_host in *. unfold get_self. run.
  cbv zeta. now rewrite Hsame.
Qed.

(** The certificate file that [VerifiedHTTPSConnection.__init__] settles
    on: the configured one, or else the first candidate that is a file. *)
Lemma candidates_nonempty (f : string) :
  List.find (isfile P) cacert_candidates = Some f -> nonempty f = true.
Proof.
  intros H. apply List.find_some in H as [Hin _].
  destruct Hin as [<-|[<-|[<-|[]]]]; reflexivity.
Qed.

(** X14. A verified HTTPS connection is only created with a certificate
    file that can be read, or with none at all: the file is the configured
    one when one is configured, and otherwise the first of the three default
    locations that is a file; when the file that was settled on is not
    readable, or the ssl module is missing, the constructor raises a fatal
    error instead. *)
Theorem verified_connection_cacert (host : option string) (port : option Z) :
  let configured :=
    match ssl_cacert_file P with
    | Some f => if nonempty f then Some f else None
    | None => None
    end in
  let chosen :=
    match configured with
    | Some f => Some f
    | None => List.find (isfile P) cacert_candidates
    end in
  match new_VerifiedHTTPSConnection P host port with
  | Ok c =>
      have_ssl P = true
      /\ c = {| conn_host := host; conn_port := port;
                conn_class := VerifiedHTTPSConnection chosen |}
      /\ (forall f, chosen = Some f -> readable P f = true)
  | Raise e =>
      is_fatal e = true
      /\ (have_ssl P = false \/ exists f, chosen = Some f /\ readable P f = false)
  end.
Proof.
  intros configured chosen. unfold new_VerifiedHTTPSConnection.
  destruct (have_ssl P); cbn [negb]; [|split; [reflexivity | now left]].
  assert (Hchosen :
            match ssl_cacert_file P with
            | Some f => if nonempty f then Some f else List.find (isfile P) cacert_candidates
            | None => List.find (isfile P) cacert_candidates
            end = chosen).
  { unfold chosen, configured. destruct (ssl_cacert_file P) as [f|]; [|reflexivity].
    now destruct (nonempty f). }
  rewrite Hchosen.
  assert (Hne : forall f, chosen = Some f -> nonempty f = true).
  { intros f. unfold chosen, configured.
    destruct (ssl_cacert_file P) as [g|]; [destruct (nonempty g) eqn:Hg|].
    - now intros [= <-].
    - apply candidates_nonempty.
    - apply candidates_nonempty. }
  destruct chosen as [f|] eqn:Hc.
  - rewrite (Hne f eq_refl). destruct (readable P f) eqn:Hr; cbn [negb andb].
    + split; [reflexivity|]. split; [reflexivity|]. now intros g [= <-].
    + split; [reflexivity|]. right. now exists f.
  - split; [reflexivity|]. split; [reflexivity|]. discriminate.
Qed.

Lemma new_VerifiedHTTPSConnection_host (host : option string) (port : option Z)
    (c : Connection) :
  new_VerifiedHTTPSConnection P host port = Ok c ->
  conn_host c = host /\ conn_port c = port
  /\ exists f, conn_class c = VerifiedHTTPSConnection f.
Proof.
  unfold new_VerifiedHTTPSConnection. destruct (negb (have_ssl P)); [discriminate|].
  match goal with |- context [match ?x with Some _ => _ | None => _ end = Ok c -> _] =>
    destruct x as [f|] end.
  - destruct (nonempty f && negb (readable P f)); [discriminate|].
    intros [= <-]. repeat split. now eexists.
  - intros [= <-]. repeat split. now eexists.
Qed.

(** X12. The retry cleanup replaces the connection: when it returns, the
    instance holds a new connection to the host and port of its URL, plain
    for the schemes webdav and http, over TLS for webdavs and https and
    verified unless certificate checks are switched off; nothing else of the
    instance has changed, nothing was sent, and a connect that is not forced
    now keeps this connection. *)
Theorem retry_cleanup_renews_connection (s s' : State Net) :
  _retry_cleanup P s = (Ok tt, s') ->
  exists c,
    self s' = set_conn (Some c) (self s)
    /\ conn_host c = url_hostname (parsed_url (self s))
    /\ conn_port c = url_port (parsed_url (self s))
    /\ match conn_class c with
       | HTTPConnection =>
           in_list (url_scheme (parsed_url (self s))) ["webdav"; "http"] = true
       | HTTPSConnection =>
           in_list (url_scheme (parsed_url (self s))) ["webdavs"; "https"] = true
           /\ ssl_no_check_certificate P = true
       | VerifiedHTTPSConnection _ =>
           in_list (url_scheme (parsed_url (self s))) ["webdavs"; "https"] = true
           /\ ssl_no_check_certificate P = false
       end
    /\ net s' = net s
    /\ sent s' = sent s
    /\ connect P false s' = (Ok tt, s').
Proof.
  unfold _retry_cleanup. rewrite connect_renews by reflexivity. cbv zeta.
  assert (Hreuse : forall c,
             conn_host c = url_hostname (parsed_url (self s)) ->
             connect P false {| self := set_conn (Some c) (self s); net := net s; sent := sent s |}
             = (Ok tt, {| self := set_conn (Some c) (self s); net := net s; sent := sent s |})).
  { intros c Hc. apply connect_reuses. unfold same_host. simpl. now apply bool_decide_eq_true_2. }
  destruct (in_list _ ["webdav"; "http"]) eqn:Hplain.
  - intros [= <-]. eexists. repeat split. now apply Hreuse.
  - destruct (in_list _ ["webdavs"; "https"]) eqn:Htls; [|discriminate].
    destruct (ssl_no_check_certificate P) eqn:Hcheck.
    + intros [= <-]. eexists. repeat split. now apply Hreuse.
    + destruct (new_VerifiedHTTPSConnection P _ _) as [c|e] eqn:Hnew; [|discriminate].
      intros [= <-].
      destruct (new_VerifiedHTTPSConnection_host _ _ _ Hnew) as (Hh & Hp & f & Hf).
      exists c. rewrite Hf. repeat split; try assumption. now apply Hreuse.
Qed.

Lemma first_response_connect_raises (method path : string) (data : option string)
    (s : State Net) (e : exn) (s0 : State Net) :
  connect P false s = (Raise e, s0) ->
  first_response P method path data s = (Raise e, s0).
Proof. intros H. unfold first_response, _close. run. now rewrite H. Qed.

Lemma in_list_four (x : string) :
  in_list x ["webdav"; "http"; "webdavs"; "https"]
  = in_list x ["webdav"; "http"] || in_list x ["webdavs"; "https"].
Proof. unfold in_list. simpl. now rewrite !orb_false_r, orb_assoc. Qed.

(** X13. A URL whose scheme is none of webdav, http, webdavs and https is
    only found out when a connection has to be opened: the connect raises a
    fatal error and changes nothing, unless it is not forced and a
    connection to the same host is at hand, which it then keeps without
    looking at the scheme.  Without such a connection every request fails
    with that error before anything is sent. *)
Theorem connect_unknown_scheme (s : State Net) :
  in_list (url_scheme (parsed_url (self s))) ["webdav"; "http"; "webdavs"; "https"] = false ->
  let unknown :=
    FatalBackendException ("WebDAV Unknown URI scheme: " +:+ url_scheme (parsed_url (self s))) in
  _retry_cleanup P s = (Raise unknown, s)
  /\ connect P false s = (if same_host (self s) then (Ok tt, s) else (Raise unknown, s))
  /\ (same_host (self s) = false ->
      forall method path data redirected,
        request P method path data redirected s = (Raise unknown, s)).
Proof.
  intros Hscheme unknown. rewrite in_list_four in Hscheme.
  apply orb_false_elim in Hscheme as [Hplain Htls].
  assert (Hrenew : forall forced,
             negb forced && same_host (self s) = false ->
             connect P forced s = (Raise unknown, s)).
  { intros forced Hf. rewrite (connect_renews forced s Hf). cbv zeta.
    now rewrite Hplain, Htls. }
  split; [apply (Hrenew true); reflexivity|]. split.
  - destruct (same_host (self s)) eqn:Hsame; [now apply connect_reuses|].
    apply (Hrenew false). reflexivity.
  - intros Hsame method path data redirected.
    apply request_first_raises. apply first_response_connect_raises.
    apply (Hrenew false). exact Hsame.
Qed.

(** [connect] touches the connection only. *)
Lemma connect_self (forced : bool) (s : State Net) :
  exists c, snd (connect P forced s)
            = {| self := set_conn c (self s); net := net s; sent := sent s |}.
Proof.
  assert (Hsame : s = {| self := set_conn (conn (self s)) (self s); net := net s;
                         sent := sent s |}).
  { destruct s as [o n l]. simpl. now destruct o. }
  unfold connect, get_self, _close, modify_self. run. cbv zeta.
  destruct (negb forced && _); [exists (conn (self s)); exact Hsame|].
  destruct (in_list _ ["webdav"; "http"]); [eexists; reflexivity|].
  destruct (in_list _ ["webdavs"; "https"]); [|exists (conn (self s)); exact Hsame].
  destruct (ssl_no_check_certificate P); [eexists; reflexivity|].
  destruct (new_VerifiedHTTPSConnection P _ _); simpl;
    [eexists; reflexivity | exists (conn (self s)); exact Hsame].
Qed.

(** The request that [conn_request] builds in the state [s]. *)
Lemma conn_request_ok (method quoted_path : string) (data : option string) (s : State Net)
    (r : result Response) (s' : State Net) :
  conn_request P method quoted_path data s = (r, s') ->
  self s' = self s
  /\ ((exists c, conn (self s) = Some c
                 /\ send P c {| req_method := method; req_path := quoted_path;
                                req_data := data; req_headers := headers (self s) |} (net s)
                    = (r, net s')
                 /\ sent s' = (sent s ++ [{| req_method := method; req_path := quoted_path;
                                            req_data := data;
                                            req_headers := headers (self s) |}])%list)
      \/ (conn (self s) = None /\ r = Raise (AttributeError "request") /\ s' = s)).
Proof.
  unfold conn_request. destruct (conn (self s)) as [c|] eqn:Hc.
  - destruct (send P c _ (net s)) as [r0 n] eqn:Hsend. intros [= <- <-].
    split; [reflexivity|]. left. exists c. split; [reflexivity|]. split; [exact Hsend | reflexivity].
  - intros [= <- <-]. split; [reflexivity|]. right. repeat split.
Qed.

Lemma first_response_inv (method path : string) (data : option string) (s : State Net)
    (r : result (Response * string)) (s1 : State Net) :
  first_response P method path data s = (r, s1) ->
  (exists e, connect P false s = (Raise e, s1) /\ r = Raise e)
  \/ (exists s0 r0,
        connect P false s = (Ok tt, s0)
        /\ conn_request P method (quote P path) data
             {| self := ready P s0 path; net := net s0; sent := sent s0 |} = (r0, s1)
        /\ r = match r0 with Ok response => Ok (response, quote P path) | Raise e => Raise e end).
Proof.
  unfold first_response, _close, get_self, modify_self, ready. run.
  destruct (connect P false s) as [[[]|e] s0] eqn:Hconnect.
  - intros H. right. exists s0.
    destruct (digest_challenge (self s0)); simpl in H.
    + match type of H with context [conn_request P ?m ?q ?d ?s2] =>
        destruct (conn_request P m q d s2) as [r0 s2'] eqn:Hreq end.
      exists r0. destruct r0; injection H as <- <-; repeat split.
    + assert (Hs0 : {| self := self s0; net := net s0; sent := sent s0 |} = s0)
        by now destruct s0.
      rewrite Hs0.
      destruct (conn_request P method (quote P path) data s0) as [r0 s2'] eqn:Hreq.
      exists r0. destruct r0; injection H as <- <-; repeat split.
  - intros [= <- <-]. left. now exists e.
Qed.

(** *** What a call sends, and what it leaves alone *)

Lemma sends_only_same (methods : list string) (s s' : State Net) :
  sent s' = sent s -> sends_only methods s s'.
Proof. intros H. exists []. rewrite H, app_nil_r. split; [reflexivity | constructor]. Qed.

Lemma sends_only_trans (methods : list string) (s1 s2 s3 : State Net) :
  sends_only methods s1 s2 -> sends_only methods s2 s3 -> sends_only methods s1 s3.
Proof.
  intros (new1 & H1 & F1) (new2 & H2 & F2). exists (new1 ++ new2)%list.
  split; [rewrite H2, H1; now rewrite <- app_assoc | now apply Forall_app].
Qed.

Lemma sends_only_incl (methods methods' : list string) (s s' : State Net) :
  (forall m, in_list m methods = true -> in_list m methods' = true) ->
  sends_only methods s s' -> sends_only methods' s s'.
Proof.
  intros Hincl (new & H & F). exists new. split; [exact H|].
  eapply List.Forall_impl; [|exact F]. intros r. apply Hincl.
Qed.

Lemma in_list_here (m : string) (l : list string) : in_list m (m :: l) = true.
Proof. unfold in_list. simpl. now rewrite String.eqb_refl. Qed.

Lemma conn_request_sends (method quoted_path : string) (data : option string)
    (s : State Net) :
  sends_only [method] s (snd (conn_request P method quoted_path data s)).
Proof.
  destruct (conn_request P method quoted_path data s) as [r s'] eqn:H.
  destruct (conn_request_ok _ _ _ _ _ _ H) as [_ [(c & _ & _ & Hsent)|(_ & _ & ->)]].
  - eexists. split; [exact Hsent|]. constructor; [apply in_list_here | constructor].
  - now apply sends_only_same.
Qed.

Lemma connect_sends (methods : list string) (forced : bool) (s : State Net) :
  sends_only methods s (snd (connect P forced s)).
Proof.
  destruct (connect_self forced s) as [c ->]. now apply sends_only_same.
Qed.

Lemma first_response_sends (method path : string) (data : option string) (s : State Net) :
  sends_only [method] s (snd (first_response P method path data s)).
Proof.
  destruct (first_response P method path data s) as [r s1] eqn:H.
  destruct (first_response_inv _ _ _ _ _ _ H) as [(e & Hc & _)|(s0 & r0 & Hc & Hreq & _)].
  - pose proof (connect_sends [method] false s) as Hs. now rewrite Hc in Hs.
  - pose proof (connect_sends [method] false s) as Hs. rewrite Hc in Hs.
    eapply sends_only_trans; [exact Hs|].
    pose proof (conn_request_sends method (quote P path) data
                  {| self := ready P s0 path; net := net s0; sent := sent s0 |}) as Hr.
    rewrite Hreq in Hr. destruct Hr as (new & Hsent & Hall). now exists new.
Qed.

Lemma authorized_response_sends (method quoted_path : string) (data : option string)
    (response : Response) (s : State Net) :
  sends_only [method] s (snd (authorized_response P method quoted_path data response s)).
Proof.
  unfold authorized_response. destruct (status response =? 401);
    [|now apply sends_only_same].
  unfold get_self, modify_self. run. simpl.
  destruct (get_authorization P (self s) response quoted_path) as [hdr challenge]. simpl.
  match goal with |- context [conn_request P ?m ?q ?d ?s2] =>
    destruct (conn_request_sends m q d s2) as (new & Hsent & Hall) end.
  now exists new.
Qed.

Lemma request_sends (method path : string) (data : option string) (redirected : Z)
    (s : State Net) :
  sends_only [method] s (snd (request P method path data redirected s)).
Proof.
  funelim (request P method path data redirected s);
    match goal with
    | Hfirst : first_response P ?m ?p ?d ?s0 = _ |- _ =>
        pose proof (first_response_sends m p d s0) as Hsent;
        rewrite Hfirst in Hsent; simpl in Hsent
    end; simpl; try exact Hsent.
  - eapply sends_only_trans; [exact Hsent | apply authorized_response_sends].
  - eapply sends_only_trans; [exact Hsent|].
    match goal with IH : sends_only _ {| self := _ |} _ |- _ =>
      destruct IH as (new & Hnew & Hall) end.
    now exists new.
Qed.

Lemma keeps_headers_same (s s' : State Net) :
  headers (self s') = headers (self s) -> keeps_headers s s'.
Proof. intros H k _. now rewrite H. Qed.

Lemma keeps_headers_trans (s1 s2 s3 : State Net) :
  keeps_headers s1 s2 -> keeps_headers s2 s3 -> keeps_headers s1 s3.
Proof. intros H1 H2 k Hk. rewrite (H2 k Hk). now apply H1. Qed.

Lemma connect_keeps_headers (forced : bool) (s : State Net) :
  keeps_headers s (snd (connect P forced s)).
Proof. destruct (connect_self forced s) as [c ->]. now apply keeps_headers_same. Qed.

Lemma ready_keeps_headers (s0 : State Net) (path : string) (k : string) :
  k <> "Authorization" -> headers (ready P s0 path) !! k = headers (self s0) !! k.
Proof.
  intros Hk. unfold ready. destruct (digest_challenge (self s0)); [|reflexivity].
  simpl. now apply lookup_insert_ne.
Qed.

Lemma first_response_keeps_headers (method path : string) (data : option string)
    (s : State Net) :
  keeps_headers s (snd (first_response P method path data s)).
Proof.
  destruct (first_response P method path data s) as [r s1] eqn:H.
  destruct (first_response_inv _ _ _ _ _ _ H) as [(e & Hc & _)|(s0 & r0 & Hc & Hreq & _)].
  - pose proof (connect_keeps_headers false s) as Hs. now rewrite Hc in Hs.
  - pose proof (connect_keeps_headers false s) as Hs. rewrite Hc in Hs.
    eapply keeps_headers_trans; [exact Hs|].
    destruct (conn_request_ok _ _ _ _ _ _ Hreq) as [Hself _].
    intros k Hk. simpl. rewrite Hself. simpl. now apply ready_keeps_headers.
Qed.

Lemma authorized_response_keeps_headers (method quoted_path : string)
    (data : option string) (response : Response) (s : State Net) :
  keeps_headers s (snd (authorized_response P method quoted_path data response s)).
Proof.
  unfold authorized_response. destruct (status response =? 401);
    [|now apply keeps_headers_same].
  unfold get_self, modify_self. run. simpl.
  destruct (get_authorization P (self s) response quoted_path) as [hdr challenge]. simpl.
  match goal with |- context [conn_request P ?m ?q ?d ?s2] =>
    destruct (conn_request P m q d s2) as [r s'] eqn:Hreq end.
  destruct (conn_request_ok _ _ _ _ _ _ Hreq) as [Hself _].
  intros k Hk. simpl. rewrite Hself. simpl. now apply lookup_insert_ne.
Qed.

Lemma request_keeps_headers (method path : string) (data : option string)
    (redirected : Z) (s : State Net) :
  keeps_headers s (snd (request P method path data redirected s)).
Proof.
  funelim (request P method path data redirected s);
    match goal with
    | Hfirst : first_response P ?m ?p ?d ?s0 = _ |- _ =>
        pose proof (first_response_keeps_headers m p d s0) as Hkeep;
        rewrite Hfirst in Hkeep; simpl in Hkeep
    end; simpl; try exact Hkeep.
  - eapply keeps_headers_trans; [exact Hkeep | apply authorized_response_keeps_headers].
  - eapply keeps_headers_trans; [exact Hkeep|].
    match goal with IH : keeps_headers {| self := _ |} _ |- _ => exact IH end.
Qed.






Lemma replace_first_at_start (d path : string) :
  String.prefix d path = true -> replace_first d EmptyString path = drop (String.length d) path.
Proof. intros H. destruct path; cbn [replace_first]; rewrite H; reflexivity. Qed.

Lemma taste_href_below (href : list Node) (s : State Net) :
  foreign P (self s) href = false ->
  taste_href P href s = (Ok (below (directory (self s)) (href_path P href)), s).
Proof.
  unfold foreign, href_hostname, href_path, below, taste_href, get_self. run.
  destruct (urlparse P (unquote P (strip (getText href)))) as [[h|] path]; simpl.
  - destruct (bool_decide (Some h = url_hostname (parsed_url (self s)))); simpl;
      [intros _ | discriminate].
    unfold startswith. destruct (String.prefix _ path) eqn:Hp; [|reflexivity].
    now rewrite replace_first_at_start.
  - intros _. unfold startswith. destruct (String.prefix _ path) eqn:Hp; [|reflexivity].
    now rewrite replace_first_at_start.
Qed.

(** The loop over hrefs that are all local. *)
Lemma taste_all_local (hrefs : list (list Node)) (result : list string) (s : State Net) :
  existsb (foreign P (self s)) hrefs = false ->
  taste_all P hrefs result s
  = (Ok (result ++ List.filter nonempty
                     (omap (fun href => below (directory (self s)) (href_path P href)) hrefs))%list,
     s).
Proof.
  revert result. induction hrefs as [|href rest IH]; intros result.
  - intros _. simpl. now rewrite app_nil_r.
  - cbn [existsb]. intros H. apply orb_false_elim in H as [Hf Hrest].
    cbn [taste_all omap list_omap]. unfold mbind at 1, M_bind at 1. rewrite (taste_href_below href s Hf).
    cbv iota beta.
    destruct (below (directory (self s)) (href_path P href)) as [f|]; [|now apply IH].
    cbn [List.filter]. destruct (nonempty f).
    + rewrite IH by exact Hrest. now rewrite <- app_assoc.
    + now apply IH.
Qed.

(** [_list] once its PROPFIND has returned. *)
Lemma _list_after_request (s : State Net) (r : result Response) (s1 : State Net) :
  request P "PROPFIND" (directory (self (before_listing s))) (Some listbody) 0
    (before_listing s) = (r, s1) ->
  _list P s
  = match r with
    | Raise e => (Raise e, s1)
    | Ok response =>
        if status response =? 404 then
          match makedir P (after_listing s1) with
          | (Ok _, s2) => (Ok [], s2)
          | (Raise e, s2) => (Raise e, s2)
          end
        else if (status response =? 200) || (status response =? 207) then
          match parseString P (body response) with
          | Ok dom => taste_all P (d_href dom ++ D_href dom) [] (after_listing s1)
          | Raise e => (Raise e, after_listing s1)
          end
        else (Raise (BackendException
                       ("Bad status code " +:+ str_of_Z (status response)
                          +:+ " reason " +:+ reason response +:+ ".")), after_listing s1)
    end.
Proof.
  intros Hreq. unfold _list. unfold mbind at 1, M_bind at 1.
  change (set_Depth s) with (Ok tt, before_listing s). cbv iota beta.
  unfold mbind at 1, M_bind at 1, get_self at 1. cbv iota beta.
  unfold mbind at 1, M_bind at 1. rewrite Hreq. destruct r as [response|e]; [|reflexivity].
  cbv iota beta. unfold mbind at 1, M_bind at 1.
  change (del_Depth s1) with (Ok tt, after_listing s1). cbv iota beta.
  destruct (status response =? 404).
  - unfold mbind, M_bind, mret, M_ret. now destruct (makedir P (after_listing s1)) as [[[]|e] s2].
  - destruct ((status response =? 200) || (status response =? 207)); [|reflexivity].
    unfold mbind, M_bind, lift. now destruct (parseString P (body response)).
Qed.

(** X16. What [_list] makes of the status of its PROPFIND: for a 404 it
    creates the directory and returns the empty list, for a 200 or a 207 it
    parses the body, and for every other status it raises a
    [BackendException] that names the status and the reason; an exception
    of the request or of the parser is passed on. *)
Theorem list_by_status (s : State Net) (r : result Response) (s1 : State Net) :
  request P "PROPFIND" (directory (self (before_listing s))) (Some listbody) 0
    (before_listing s) = (r, s1) ->
  match r with
  | Raise e => _list P s = (Raise e, s1)
  | Ok response =>
      (status response = 404 ->
       forall r2 s2, makedir P (after_listing s1) = (r2, s2) ->
                     _list P s = (match r2 with Ok _ => Ok [] | Raise e => Raise e end, s2))
      /\ (status response = 200 \/ status response = 207 ->
          forall e, parseString P (body response) = Raise e ->
                    _list P s = (Raise e, after_listing s1))
      /\ (status response <> 404 -> status response <> 200 -> status response <> 207 ->
          _list P s
          = (Raise (BackendException
                      ("Bad status code " +:+ str_of_Z (status response)
                         +:+ " reason " +:+ reason response +:+ ".")), after_listing s1))
  end.
Proof.
  intros Hreq. rewrite (_list_after_request s r s1 Hreq).
  destruct r as [response|e]; [|reflexivity]. split; [|split].
  - intros -> r2 s2 ->. change (404 =? 404) with true. cbv iota. now destruct r2.
  - intros Hstatus e He.
    assert (H404 : (status response =? 404) = false) by (apply Z.eqb_neq; lia).
    assert (Hok : (status response =? 200) || (status response =? 207) = true)
      by (destruct Hstatus as [-> | ->]; reflexivity).
    now rewrite H404, Hok, He.
  - intros H404 H200 H207. apply Z.eqb_neq in H404, H200, H207.
    now rewrite H404, H200, H207.
Qed.

(** X18. A listing without an href under another host is returned in full:
    [_list] returns, in the order of the document, what each href path has
    below the directory of the instance, leaving out the paths that are not
    below it and the directory itself; so each name it returns, put behind
    the directory, is a path of the listing. *)
Theorem list_returns_names_below_directory (s : State Net) (response : Response)
    (s1 : State Net) (dom : Document) :
  request P "PROPFIND" (directory (self (before_listing s))) (Some listbody) 0
    (before_listing s) = (Ok response, s1) ->
  status response = 200 \/ status response = 207 ->
  parseString P (body response) = Ok dom ->
  existsb (foreign P (self (after_listing s1))) (d_href dom ++ D_href dom) = false ->
  let d := directory (self (after_listing s1)) in
  let names := List.filter nonempty
                 (omap (fun href => below d (href_path P href))
                    (d_href dom ++ D_href dom)%list) in
  _list P s = (Ok names, after_listing s1)
  /\ Forall (fun f => f <> EmptyString
                      /\ exists href, In href (d_href dom ++ D_href dom)
                                      /\ href_path P href = d +:+ f) names.
Proof.
  intros Hreq Hstatus Hdom Hlocal d names.
  rewrite (_list_after_request s _ s1 Hreq).
  assert (H404 : (status response =? 404) = false) by (apply Z.eqb_neq; lia).
  assert (Hok : (status response =? 200) || (status response =? 207) = true)
    by (destruct Hstatus as [-> | ->]; reflexivity).
  rewrite H404, Hok, Hdom. split; [apply (taste_all_local _ [] _ Hlocal)|].
  apply List.Forall_forall. intros f Hf. unfold names in Hf.
  apply List.filter_In in Hf as [Hin Hne]. split; [intros ->; discriminate|].
  apply list_elem_of_In, list_elem_of_omap in Hin as (href & Hhref & Hbelow).
  exists href. split; [now apply list_elem_of_In|].
  unfold below, startswith in Hbelow.
  destruct (String.prefix d (href_path P href)) eqn:Hp; [|discriminate].
  injection Hbelow as <-. now apply AliCloudExtras.prefix_split.
Qed.

Lemma for_each_frame {A} (R : State Net -> State Net -> Prop) (l : list A)
    (body : A -> M (State Net) unit) (s : State Net) :
  (forall s, R s s) -> (forall a b c, R a b -> R b c -> R a c) ->
  (forall x s, R s (snd (body x s))) ->
  R s (snd (for_each l body s)).
Proof.
  intros Hrefl Htrans Hbody. revert s. induction l as [|x l IH]; intros s; [apply Hrefl|].
  cbn [for_each]. unfold mbind, M_bind.
  pose proof (Hbody x s) as Hx. destruct (body x s) as [[[]|e] s1]; simpl in *.
  - eapply Htrans; [exact Hx | apply IH].
  - exact Hx.
Qed.

Lemma for_each_ok {A} (Inv : State Net -> Prop) (l : list A)
    (body : A -> M (State Net) unit) (s s' : State Net) :
  Inv s ->
  (forall x s s', body x s = (Ok tt, s') -> Inv s') ->
  for_each l body s = (Ok tt, s') -> Inv s'.
Proof.
  intros Hs Hbody. revert s Hs. induction l as [|x l IH]; intros s Hs.
  - now intros [= <-].
  - cbn [for_each]. unfold mbind, M_bind.
    destruct (body x s) as [[[]|e] s1] eqn:Hx; [|discriminate].
    apply IH. now apply (Hbody x s).
Qed.

Lemma sends_only_refl (methods : list string) (s : State Net) : sends_only methods s s.
Proof. now apply sends_only_same. Qed.

Lemma request_sends_incl (methods : list string) (method path : string)
    (data : option string) (redirected : Z) (s : State Net) :
  in_list method methods = true ->
  sends_only methods s (snd (request P method path data redirected s)).
Proof.
  intros Hin. eapply sends_only_incl; [|apply request_sends].
  intros m Hm. unfold in_list in Hm. simpl in Hm. rewrite orb_false_r in Hm.
  apply String.eqb_eq in Hm as ->. exact Hin.
Qed.

Lemma makedir_step_sends (dirs : list string) (i : nat) (s : State Net) :
  sends_only ["PROPFIND"; "MKCOL"] s (snd (makedir_step P dirs i s)).
Proof.
  unfold makedir_step, set_Depth, del_Depth, get_self, modify_self. run. cbv zeta. simpl.
  match goal with |- context [request P "PROPFIND" ?d None 0 ?s0] =>
    pose proof (request_sends_incl ["PROPFIND"; "MKCOL"] "PROPFIND" d None 0 s0 eq_refl) as H1;
    destruct (request P "PROPFIND" d None 0 s0) as [[response|e] s1] end; simpl in *;
    [|exact H1].
  destruct (status response =? 404); simpl; [|exact H1].
  match goal with |- context [request P "MKCOL" ?d None 0 ?s0] =>
    pose proof (request_sends_incl ["PROPFIND"; "MKCOL"] "MKCOL" d None 0 s0 eq_refl) as H2;
    destruct (request P "MKCOL" d None 0 s0) as [[res|e] s2] end; simpl in *.
  - assert (H3 : sends_only ["PROPFIND"; "MKCOL"] s s2).
    { eapply sends_only_trans; [exact H1|]. destruct H2 as (new & Hn & Hall). now exists new. }
    now destruct (negb (status res =? 201)).
  - eapply sends_only_trans; [exact H1|]. destruct H2 as (new & Hn & Hall). now exists new.
Qed.

Lemma makedir_sends (s : State Net) :
  sends_only ["PROPFIND"; "MKCOL"] s (snd (makedir P s)).
Proof.
  unfold makedir, get_self. run. cbv zeta.
  apply for_each_frame.
  - apply sends_only_refl.
  - apply sends_only_trans.
  - intros i s0. apply makedir_step_sends.
Qed.

Lemma makedir_step_depth (dirs : list string) (i : nat) (s s' : State Net) :
  makedir_step P dirs i s = (Ok tt, s') -> headers (self s') !! "Depth" = None.
Proof.
  unfold makedir_step, set_Depth, del_Depth, get_self, modify_self. run. cbv zeta. simpl.
  match goal with |- context [request P "PROPFIND" ?d None 0 ?s0] =>
    destruct (request P "PROPFIND" d None 0 s0) as [[response|e] s1] end; simpl;
    [|discriminate].
  destruct (status response =? 404); simpl.
  - match goal with |- context [request P "MKCOL" ?d None 0 ?s0] =>
      pose proof (request_keeps_headers "MKCOL" d None 0 s0 "Depth" ltac:(discriminate)) as H2;
      destruct (request P "MKCOL" d None 0 s0) as [[res|e] s2] end; simpl in *;
      [|discriminate].
    destruct (negb (status res =? 201)); [discriminate|]. intros [= <-].
    rewrite H2. apply lookup_delete_eq.
  - intros [= <-]. simpl. apply lookup_delete_eq.
Qed.

Lemma makedir_depth (s s' : State Net) :
  headers (self s) !! "Depth" = None -> makedir P s = (Ok tt, s') ->
  headers (self s') !! "Depth" = None.
Proof.
  intros Hs. unfold makedir, get_self. run. cbv zeta.
  apply (for_each_ok (fun s => headers (self s) !! "Depth" = None)); [exact Hs|].
  intros i s0 s0'. apply makedir_step_depth.
Qed.

Lemma taste_href_state (href : list Node) (s : State Net) :
  snd (taste_href P href s) = s.
Proof.
  unfold taste_href, get_self. run.
  destruct (urlparse P (unquote P (strip (getText href)))) as [[h|] path]; simpl.
  - destruct (negb (bool_decide _)); simpl; [reflexivity|].
    now destruct (startswith (directory (self s)) path).
  - now destruct (startswith (directory (self s)) path).
Qed.

Lemma taste_all_state (hrefs : list (list Node)) (result : list string) (s : State Net) :
  snd (taste_all P hrefs result s) = s.
Proof.
  revert result. induction hrefs as [|href rest IH]; intros result; [reflexivity|].
  cbn [taste_all]. unfold mbind, M_bind.
  pose proof (taste_href_state href s) as Hs.
  destruct (taste_href P href s) as [[[f|]|e] s1]; simpl in Hs; subst s1;
    [destruct (nonempty f)| |reflexivity]; apply IH.
Qed.

(** X17. The [Depth] header of a listing.  [_list] sets [Depth: 1] for its
    PROPFIND and removes it when the request has returned, so after a
    listing that returns a list the header is gone; but when the request
    itself raises, [_list] passes the exception on with the header still
    set. *)
Theorem list_depth_header (s : State Net) :
  (forall names s', _list P s = (Ok names, s') -> headers (self s') !! "Depth" = None)
  /\ (forall e s1,
        request P "PROPFIND" (directory (self (before_listing s))) (Some listbody) 0
          (before_listing s) = (Raise e, s1) ->
        _list P s = (Raise e, s1)
        /\ headers (self s1) !! "Depth" = Some (Some "1")).
Proof.
  split.
  - intros names s'.
    destruct (request P "PROPFIND" (directory (self (before_listing s))) (Some listbody) 0
                (before_listing s)) as [r s1] eqn:Hreq.
    rewrite (_list_after_request s r s1 Hreq).
    assert (Hafter : headers (self (after_listing s1)) !! "Depth" = None)
      by apply lookup_delete_eq.
    destruct r as [response|e]; [|discriminate].
    destruct (status response =? 404).
    + destruct (makedir P (after_listing s1)) as [[[]|e] s2] eqn:Hmk; [|discriminate].
      intros [= _ <-]. now apply (makedir_depth (after_listing s1) s2 Hafter).
    + destruct ((status response =? 200) || (status response =? 207)); [|discriminate].
      destruct (parseString P (body response)) as [dom|e]; [|discriminate].
      intros H. pose proof (taste_all_state (d_href dom ++ D_href dom) [] (after_listing s1))
        as Hs.
      rewrite H in Hs. simpl in Hs. now subst s'.
  - intros e s1 Hreq. split; [now rewrite (_list_after_request s _ s1 Hreq)|].
    pose proof (request_keeps_headers "PROPFIND" (directory (self (before_listing s)))
                  (Some listbody) 0 (before_listing s) "Depth" ltac:(discriminate)) as H.
    rewrite Hreq in H. simpl in H. rewrite H. apply lookup_insert_eq.
Qed.

Lemma _list_sends (s : State Net) :
  sends_only ["PROPFIND"; "MKCOL"] s (snd (_list P s)).
Proof.
  destruct (request P "PROPFIND" (directory (self (before_listing s))) (Some listbody) 0
              (before_listing s)) as [r s1] eqn:Hreq.
  rewrite (_list_after_request s r s1 Hreq).
  pose proof (request_sends_incl ["PROPFIND"; "MKCOL"] "PROPFIND"
                (directory (self (before_listing s))) (Some listbody) 0 (before_listing s)
                eq_refl) as H1.
  rewrite Hreq in H1. simpl in H1.
  assert (Hs1 : sends_only ["PROPFIND"; "MKCOL"] s s1).
  { destruct H1 as (new & Hn & Hall). now exists new. }
  assert (Hafter : sends_only ["PROPFIND"; "MKCOL"] s (after_listing s1)).
  { destruct Hs1 as (new & Hn & Hall). now exists new. }
  destruct r as [response|e]; [|exact Hs1].
  destruct (status response =? 404).
  - pose proof (makedir_sends (after_listing s1)) as H2.
    destruct (makedir P (after_listing s1)) as [[[]|e] s2]; simpl in *;
      eapply sends_only_trans; eassumption.
  - destruct ((status response =? 200) || (status response =? 207)); [|exact Hafter].
    destruct (parseString P (body response)) as [dom|e]; [|exact Hafter].
    now rewrite taste_all_state.
Qed.

Lemma _delete_sends (filename : string) (s : State Net) :
  sends_only ["DELETE"] s (snd (_delete P filename s)).
Proof.
  unfold _delete, get_self. run.
  pose proof (request_sends "DELETE" (directory (self s) +:+ filename) None 0 s) as H.
  destruct (request P "DELETE" _ None 0 s) as [[response|e] s1]; simpl in *; [|exact H].
  now destruct ((status response =? 200) || (status response =? 204)).
Qed.

Lemma _get_sends (remote_filename : string) (local_path : Path) (l : Local) :
  sends_only ["GET"] (session l) (session (snd (_get P remote_filename local_path l))).
Proof.
  unfold _get, on_session, open_wb, write_file, get_self. run. simpl.
  pose proof (request_sends "GET" (directory (self (session l)) +:+ remote_filename)
                None 0 (session l)) as H.
  destruct (request P "GET" _ None 0 (session l)) as [[response|e] s1]; simpl in *;
    [|exact H].
  now destruct (status response =? 200).
Qed.

Lemma _put_sends (source_path : Path) (remote_filename : string) (l : Local) :
  sends_only ["PUT"] (session l) (session (snd (_put P source_path remote_filename l))).
Proof.
  unfold _put, on_session, read_file, get_self. run. simpl.
  destruct (disk l !! name source_path) as [data|]; simpl; [|apply sends_only_refl].
  pose proof (request_sends "PUT" (directory (self (session l)) +:+ remote_filename)
                (Some data) 0 (session l)) as H.
  destruct (request P "PUT" _ (Some data) 0 (session l)) as [[response|e] s1]; simpl in *;
    [|exact H].
  now destruct ((status response =? 200) || (status response =? 201) || (status response =? 204)).
Qed.

(** X19. Each operation only sends requests of its own kind, and never
    takes a request back from the log: a listing and [makedir] send only
    PROPFIND and MKCOL, so they never upload, download or delete; [_delete]
    sends only DELETE, [_get] only GET and [_put] only PUT. *)
Theorem operations_send_their_own_method :
  (forall s, sends_only ["PROPFIND"; "MKCOL"] s (snd (_list P s)))
  /\ (forall s, sends_only ["PROPFIND"; "MKCOL"] s (snd (makedir P s)))
  /\ (forall filename s, sends_only ["DELETE"] s (snd (_delete P filename s)))
  /\ (forall remote_filename local_path l,
        sends_only ["GET"] (session l) (session (snd (_get P remote_filename local_path l))))
  /\ (forall source_path remote_filename l,
        sends_only ["PUT"] (session l) (session (snd (_put P source_path remote_filename l)))).
Proof.
  split; [exact _list_sends|]. split; [exact makedir_sends|].
  split; [exact _delete_sends|]. split; [exact _get_sends | exact _put_sends].
Qed.

(** X20. [_get] opens the local file for writing before it sends the GET,
    so the file is created or emptied whatever happens next: after a 200
    it holds the body of the response, and after any other status, for
    which [_get] raises a [BackendException], or after an exception of the
    request, it is left empty. *)
Theorem get_truncates_then_writes (remote_filename : string) (local_path : Path)
    (l : Local) (r : result Response) (s1 : State Net) :
  request P "GET" (directory (self (session l)) +:+ remote_filename) None 0 (session l)
  = (r, s1) ->
  let outcome :=
    match r with
    | Ok response =>
        if status response =? 200 then Ok tt
        else Raise (BackendException
               ("WebDAV GET Bad status code " +:+ str_of_Z (status response)
                  +:+ " reason " +:+ reason response +:+ "."))
    | Raise e => Raise e
    end in
  let content :=
    match r with
    | Ok response => if status response =? 200 then body response else EmptyString
    | Raise _ => EmptyString
    end in
  _get P remote_filename local_path l
  = (outcome, {| session := s1; disk := <[name local_path := content]> (disk l) |}).
Proof.
  intros Hreq outcome content. unfold outcome, content.
  unfold _get, on_session, open_wb, write_file, get_self. run. simpl. rewrite Hreq.
  destruct r as [response|e]; [|reflexivity].
  destruct (status response =? 200); [|reflexivity].
  simpl. rewrite lookup_insert_eq, insert_insert_eq. reflexivity.
Qed.

(** X21. [_put] reads the local file before it sends anything: a missing
    file raises [IOError] and leaves everything as it was.  Otherwise the
    content is the body of one PUT to [directory + name]; the statuses 200,
    201 and 204 complete the upload, every other status raises a
    [BackendException], and the local disk is never written. *)
Theorem put_by_status (source_path : Path) (remote_filename : string) (l : Local) :
  match disk l !! name source_path with
  | None =>
      exists msg, _put P source_path remote_filename l = (Raise (IOError msg), l)
  | Some data =>
      forall r s1,
        request P "PUT" (directory (self (session l)) +:+ remote_filename) (Some data) 0
          (session l) = (r, s1) ->
        _put P source_path remote_filename l
        = (match r with
           | Ok response =>
               if (status response =? 200) || (status response =? 201)
                  || (status response =? 204)
               then Ok tt
               else Raise (BackendException
                      ("WebDAV PUT Bad status code " +:+ str_of_Z (status response)
                         +:+ " reason " +:+ reason response +:+ "."))
           | Raise e => Raise e
           end, {| session := s1; disk := disk l |})
  end.
Proof.
  unfold _put, on_session, read_file, get_self. run. simpl.
  destruct (disk l !! name source_path) as [data|].
  - intros r s1 Hreq. simpl. rewrite Hreq. destruct r as [response|e]; [|reflexivity].
    now destruct ((status response =? 200) || (status response =? 201)
                  || (status response =? 204)).
  - eexists. simpl. now destruct l.
Qed.

End Transport.

(** *** The properties at work on the sample servers *)

Lemma retry_cleanup_renews_connection_witness :
  let P := sample_platform dav_server in
  let s' := snd (_retry_cleanup P (sample_state empty_store)) in
  exists c,
    conn (self s') = Some c
    /\ conn_host c = Some "dav.example"
    /\ connect P false s' = (Ok tt, s').
Proof.
  intros P s'.
  destruct (retry_cleanup_renews_connection P (sample_state empty_store) s' eq_refl)
    as (c & Hself & Hhost & _ & _ & _ & _ & Hreuse).
  exists c. split; [now rewrite Hself | split; [exact Hhost | exact Hreuse]].
Defined.

Lemma connect_unknown_scheme_witness :
  request (sample_platform dav_server) "PROPFIND" "/dir/" None 0 ftp_state
  = (Raise (FatalBackendException "WebDAV Unknown URI scheme: ftp"), ftp_state).
Proof.
  exact (proj2 (proj2 (connect_unknown_scheme (sample_platform dav_server) ftp_state eq_refl))
           eq_refl "PROPFIND" "/dir/" None 0).
Defined.

Lemma list_by_status_witness :
  let P := sample_platform fresh_server in
  exists s2, _list P (sample_state (@nil string)) = (Ok [], s2) /\ net s2 = ["/dir/"].
Proof.
  intros P.
  assert (Hreq : request P "PROPFIND" (directory (self (before_listing (sample_state (@nil string)))))
                   (Some listbody) 0 (before_listing (sample_state (@nil string)))
                 = (Ok missing_response, missing_state)) by (vm_compute; reflexivity).
  destruct (list_by_status P (sample_state (@nil string)) _ _ Hreq) as [H404 _].
  exists (snd (makedir P (after_listing missing_state))). split.
  - apply (H404 eq_refl (Ok tt)). vm_compute. reflexivity.
  - vm_compute. reflexivity.
Defined.

Lemma list_returns_names_below_directory_witness :
  _list (listing_platform dav_server) (sample_state empty_store)
  = (Ok ["file1"; "file2"], after_listing local_listed_state).
Proof.
  assert (Hreq : request (listing_platform dav_server) "PROPFIND"
                   (directory (self (before_listing (sample_state empty_store))))
                   (Some listbody) 0 (before_listing (sample_state empty_store))
                 = (Ok listed_response, local_listed_state)) by (vm_compute; reflexivity).
  assert (Hlocal : existsb (foreign (listing_platform dav_server)
                              (self (after_listing local_listed_state)))
                     (d_href local_document ++ D_href local_document) = false)
    by (vm_compute; reflexivity).
  destruct (list_returns_names_below_directory (listing_platform dav_server)
              (sample_state empty_store) listed_response local_listed_state local_document
              Hreq (or_intror eq_refl) eq_refl Hlocal) as [Hlist _].
  exact Hlist.
Defined.

Lemma get_truncates_then_writes_witness :
  _get (sample_platform dav_server) "volume1" {| name := "/tmp/restored" |} sample_local
  = (Ok tt, {| session := fetched_state;
               disk := <["/tmp/restored" := "listing"]> (disk sample_local) |}).
Proof.
  assert (Hreq : request (sample_platform dav_server) "GET"
                   (directory (self (session sample_local)) +:+ "volume1") None 0
                   (session sample_local)
                 = (Ok fetched_response, fetched_state)) by (vm_compute; reflexivity).
  exact (get_truncates_then_writes (sample_platform dav_server) "volume1"
           {| name := "/tmp/restored" |} sample_local (Ok fetched_response) fetched_state Hreq).
Defined.

End WebDAVExtras.

(** ** More of the GnuPG interface: waiting again, exit codes, arguments *)

Module GpgInterfaceExtras.
Import PyStr GpgInterface GpgInterfaceFacts.

Lemma wait_returned (c : Child) (p : Process) (r : Z) :
  returned p = Some r ->
  wait c p
  = (if r =? 0 then Ok tt
     else Raise (IOError ("GnuPG exited non-zero, with code " +:+ str_of_Z (Z.shiftr r 8))),
     p).
Proof.
  intros Hr. unfold wait, get_state, mbind, M_bind, mret, M_ret, raise.
  rewrite Hr. cbn -[Z.shiftr str_of_Z]. rewrite Hr. now destruct r.
Qed.

(** [wait] writes nothing but [returned]. *)
Lemma wait_frame (c : Child) (p : Process) :
  pid (snd (wait c p)) = pid p /\ thread (snd (wait c p)) = thread p.
Proof.
  destruct p as [pid0 [[]|] [r|]];
    unfold wait, thread_join, threaded_waitpid, get_state, mbind, M_bind, mret, M_ret, raise;
    cbn -[Z.shiftr str_of_Z os_waitpid]; try (now destruct r); try (now split).
  destruct (os_waitpid c pid0) as [[? status]|?]; cbn -[Z.shiftr str_of_Z];
    [now destruct status | now split].
Qed.

(** X22. [wait] can be called again: for a process that [GnuPG.run]
    started, a second [wait] neither joins the thread nor asks the system
    about any child; it gives the outcome of the first call again and
    changes nothing, and the first call changes nothing but [returned]. *)
Theorem wait_is_repeatable (c c' : Child) (p : Process) :
  started c p ->
  let p1 := snd (wait c p) in
  wait c' p1 = (fst (wait c p), p1)
  /\ pid p1 = pid p
  /\ thread p1 = thread p
  /\ is_Some (returned p1).
Proof.
  intros Hstarted p1. destruct (wait_started c p Hstarted) as [Hret Hres].
  cbv zeta in Hret, Hres. fold p1 in Hret.
  split; [|split; [|split]].
  - rewrite (wait_returned c' p1 _ Hret), Hres. reflexivity.
  - apply wait_frame.
  - apply wait_frame.
  - rewrite Hret. now eexists.
Qed.

Lemma wait_is_repeatable_witness :
  wait reaped_child (snd (wait failed_child running_process))
  = (fst (wait failed_child running_process), snd (wait failed_child running_process)).
Proof.
  exact (proj1 (wait_is_repeatable failed_child reaped_child running_process
                  running_process_started)).
Defined.

(** X23. The code in the message of [wait] is the high byte of the status
    word, that is the exit code of the child: a child that was collected
    with a status other than 0 makes [wait] raise [IOError] with the status
    divided by 256, so a child that was killed by a signal, whose status is
    below 256, is reported with the code 0. *)
Theorem wait_reports_exit_code (c : Child) (p : Process) :
  started c p ->
  collectable c = true ->
  wait_status c <> 0 ->
  fst (wait c p)
  = Raise (IOError ("GnuPG exited non-zero, with code " +:+ str_of_Z (wait_status c / 256)))
  /\ (0 < wait_status c < 256 ->
      fst (wait c p) = Raise (IOError "GnuPG exited non-zero, with code 0")).
Proof.
  intros Hstarted Hc Hne. destruct (wait_started c p Hstarted) as [_ Hres].
  cbv zeta in Hres. rewrite Hc in Hres.
  apply Z.eqb_neq in Hne. rewrite Hne in Hres.
  rewrite Z.shiftr_div_pow2 in Hres by lia. change (2 ^ 8) with 256 in Hres.
  split; [exact Hres|].
  intros Hsmall. rewrite Hres. now rewrite Z.div_small by lia.
Qed.

Lemma killed_process_started : started killed_child running_process.
Proof. repeat split. now left. Qed.

Lemma wait_reports_exit_code_witness :
  fst (wait killed_child running_process)
  = Raise (IOError "GnuPG exited non-zero, with code 0").
Proof.
  apply (proj2 (wait_reports_exit_code killed_child running_process
                  killed_process_started eq_refl ltac:(discriminate))).
  split; reflexivity.
Defined.

(** *** The arguments generated from the options *)

Lemma extend_each_flat_map (flag : string) (keys args : list string) :
  extend_each flag keys args = (args ++ flat_map (fun r => [flag; r]) keys)%list.
Proof.
  unfold extend_each. revert args. induction keys as [|r keys IH]; intros args.
  - simpl. now rewrite app_nil_r.
  - cbn [fold_left flat_map]. rewrite IH. now rewrite <- app_assoc.
Qed.

(** The keys of [get_standard_args], each behind its flag. *)
Lemma get_standard_args_keys (o : Options) :
  exists switches,
    get_standard_args o
    = (switches
       ++ flat_map (fun r => ["--recipient"; r]) (recipients o)
       ++ flat_map (fun r => ["--hidden-recipient"; r]) (hidden_recipients o)
       ++ flat_map (fun r => ["--encrypt-to"; r]) (encrypt_to o))%list.
Proof.
  unfold get_standard_args. cbv zeta. rewrite !extend_each_flat_map.
  rewrite <- !app_assoc. eexists. reflexivity.
Qed.

(** X24. The argument list that [Options.get_args] builds for GnuPG ends
    with every recipient, every hidden recipient and every encrypt-to key,
    each right behind its own flag and in the order given, followed by the
    extra arguments as they are.  For an object as [Options()] creates it,
    with only [armor], [recipients] and [extra_args] assigned as in the
    example of the documentation, the list is [--armor] when [armor] is
    set, the recipients and the extra arguments, and nothing else; so a new
    object adds no argument. *)
Theorem get_args_passes_every_key :
  (forall o, exists front,
      get_args o
      = (front
         ++ flat_map (fun r => ["--recipient"; r]) (recipients o)
         ++ flat_map (fun r => ["--hidden-recipient"; r]) (hidden_recipients o)
         ++ flat_map (fun r => ["--encrypt-to"; r]) (encrypt_to o)
         ++ extra_args o)%list)
  /\ (forall armored keys extra,
        get_args (example_options armored keys extra)
        = ((if armored then ["--armor"] else [])
           ++ flat_map (fun r => ["--recipient"; r]) keys ++ extra)%list)
  /\ get_args (example_options true ["Alice"; "Bob"] ["--no-secmem-warning"])
     = ["--armor"; "--recipient"; "Alice"; "--recipient"; "Bob"; "--no-secmem-warning"]
  /\ get_args new_Options = [].
Proof.
  split; [|split; [|split; reflexivity]].
  - intros o. destruct (get_standard_args_keys o) as [switches Hs].
    exists (get_meta_args o ++ switches)%list.
    unfold get_args. rewrite Hs. now rewrite <- !app_assoc.
  - intros armored keys extra. unfold get_args, get_standard_args, get_meta_args.
    cbn [example_options armor no_greeting verbose no_verbose quiet batch always_trust
         rfc1991 openpgp force_v3_sigs no_options textmode meta_pgp_5_compatible
         meta_pgp_2_compatible meta_interactive homedir default_key comment compress_algo
         options encrypt_to recipients hidden_recipients extra_args
         extend_if_set append_if negb app].
    rewrite !extend_each_flat_map. cbn [flat_map]. rewrite !app_nil_r, <- app_assoc.
    now destruct armored.
Qed.

End GpgInterfaceExtras.

(** ** The authorization headers *)

Module WebDAVAuthExtras.
Import PyStr PyStrFacts WebDAV WebDAVAuth.

(** [s.split(sep, 1)] has one field when [sep] does not occur in [s], and
    two, the text before the first [sep] and the rest, when it does. *)
Lemma split_once_fields (sep : ascii) (s : string) :
  if has_char sep s
  then exists before rest,
         split_once sep s = [before; rest]
         /\ s = before +:+ String sep rest /\ has_char sep before = false
  else split_once sep s = [s].
Proof.
  induction s as [|c s IH]; [reflexivity|].
  cbn [has_char split_once]. destruct (Ascii.eqb_spec c sep) as [->|Hne].
  - simpl. exists EmptyString, s. repeat split.
  - simpl. destruct (has_char sep s).
    + destruct IH as (before & rest & -> & -> & Hfree).
      exists (String c before), rest. repeat split.
      simpl. rewrite Hfree. now destruct (Ascii.eqb_spec c sep).
    + now rewrite IH.
Qed.

Section Authorization.
Context (L : Library).

(** X25. How [get_authorization] answers a challenge.  A
    [www-authenticate] header without a space, an absent one included,
    gives [None] and changes nothing.  A Negotiate token gives the Kerberos
    header, and the Basic one, built from the user name and the password,
    whenever anything goes wrong with Kerberos; a Basic token gives the
    Basic header; neither raises nor changes the instance.  Every other
    token is taken as a digest challenge, outside any [try]: when its
    parsing raises, the exception leaves the method and the instance is
    unchanged; otherwise the parsed challenge is stored in the instance, and
    the result is the Digest header, or the exception of the digest handler,
    which leaves the method with the challenge stored. *)
Theorem authorization_by_scheme (o : Backend) (response : Response) (path : string) :
  let auth_hdr := default EmptyString (getheader response "www-authenticate") in
  let outcome := get_authorization L o response path in
  (scheme_token response = None <-> has_char " " auth_hdr = false)
  /\ match scheme_token response with
     | None => outcome = (Ok None, o)
     | Some token =>
         (is_negotiate token = true ->
          snd outcome = o
          /\ (forall h, get_kerberos_authorization L o = Ok h -> fst outcome = Ok (Some h))
          /\ (forall e, get_kerberos_authorization L o = Raise e ->
                        fst outcome = Ok (Some (get_basic_authorization L o))))
         /\ (is_negotiate token = false -> is_basic token = true ->
             outcome = (Ok (Some (get_basic_authorization L o)), o))
         /\ (is_negotiate token = false -> is_basic token = false ->
             exists challenge,
               auth_hdr = token +:+ String " " challenge
               /\ match parse_digest_challenge L challenge with
                  | Raise e => outcome = (Raise e, o)
                  | Ok parsed =>
                      snd outcome = set_digest_challenge (Some parsed) o
                      /\ fst outcome
                         = (hdr ← get_digest_authorization L (snd outcome) path;
                            Ok (Some hdr))
                  end)
     end.
Proof.
  intros auth_hdr outcome. unfold outcome, get_authorization, scheme_token.
  fold auth_hdr. pose proof (split_once_fields " " auth_hdr) as Hsplit.
  destruct (has_char " " auth_hdr).
  - destruct Hsplit as (token & challenge & -> & Heq & _).
    split; [split; discriminate|].
    fold (is_negotiate token). fold (is_basic token).
    destruct (is_negotiate token) eqn:Hneg.
    + split; [|split; discriminate].
      intros _. destruct (get_kerberos_authorization L o) as [h|e] eqn:Hk.
      * split; [reflexivity|]. split; [now intros h' [= <-] | discriminate].
      * split; [reflexivity|]. split; [discriminate | reflexivity].
    + destruct (is_basic token) eqn:Hbasic.
      * split; [discriminate|]. split; [reflexivity | discriminate].
      * split; [discriminate|]. split; [discriminate|].
        intros _ _. exists challenge. split; [exact Heq|].
        destruct (parse_digest_challenge L challenge) as [parsed|e]; [|reflexivity].
        destruct (get_digest_authorization L (set_digest_challenge (Some parsed) o) path)
          as [hdr|e] eqn:Hdigest; simpl; rewrite Hdigest; split; reflexivity.
  - rewrite Hsplit. split; [now split | reflexivity].
Qed.

End Authorization.

(** Without the kerberos module a Negotiate challenge is answered with the
    Basic header. *)
Example negotiate_falls_back_to_basic :
  get_authorization sample_library sample_user negotiate_response "/dir/"
  = (Ok (Some "Basic user:secret"), sample_user).
Proof. vm_compute. reflexivity. Qed.

(** A digest challenge that the handler rejects: the exception leaves
    [get_authorization], and the challenge is stored all the same. *)
Example digest_failure_keeps_challenge :
  get_authorization strict_library sample_user digest_response "/dir/"
  = (Raise (OtherError "URLError"),
     set_digest_challenge (Some "qop=x") sample_user).
Proof. vm_compute. reflexivity. Qed.

End WebDAVAuthExtras.

(** ** Starting GnuPG: handle names, handles, and the caller's containers *)

Module GnuPGRunExtras.
Import PyStr GpgInterface GpgInterfaceFacts.

(** *** The caller's containers *)

Lemma defaults_loop (stds : list string) (s : RunState) :
  for_each stds (fun std =>
      s ← get_state;
      if negb (in_attach std s) && negb (in_create std s)
      then put_state (set_attach_fhs (<[std := sys_file std]> (attach_fhs s)) s)
      else mret tt) s
  = (Ok tt,
     set_attach_fhs
       (fold_left (fun attach std =>
                     if negb (bool_decide (is_Some (attach !! std)))
                        && negb (bool_decide (std ∈ create_fhs s))
                     then <[std := sys_file std]> attach else attach)
                  stds (attach_fhs s)) s).
Proof.
  revert s. induction stds as [|std stds IH]; intros s.
  - destruct s. reflexivity.
  - cbn [for_each fold_left]. run. unfold in_attach, in_create.
    destruct (negb (bool_decide (is_Some (attach_fhs s !! std)))
              && negb (bool_decide (std ∈ create_fhs s))).
    + rewrite IH. reflexivity.
    + rewrite IH. reflexivity.
Qed.

Lemma defaults_lookup (create stds : list string) (attach : gmap string File) (k : string) :
  fold_left (fun attach std =>
               if negb (bool_decide (is_Some (attach !! std)))
                  && negb (bool_decide (std ∈ create))
               then <[std := sys_file std]> attach else attach)
            stds attach !! k
  = match attach !! k with
    | Some f => Some f
    | None => if bool_decide (k ∈ stds) && negb (bool_decide (k ∈ create))
              then Some (sys_file k) else None
    end.
Proof.
  revert attach. induction stds as [|std stds IH]; intros attach.
  - simpl. now destruct (attach !! k).
  - cbn [fold_left]. rewrite IH. clear IH.
    destruct (decide (k = std)) as [->|Hne].
    + rewrite (bool_decide_eq_true_2 (std ∈ std :: stds)) by apply list_elem_of_here.
      destruct (attach !! std) as [f|] eqn:Hk.
      * rewrite (bool_decide_eq_true_2 (is_Some (Some f))) by (now eexists).
        simpl. now rewrite Hk.
      * rewrite (bool_decide_eq_false_2 (is_Some None)) by (now intros [? ?]).
        simpl. destruct (bool_decide (std ∈ create)); simpl.
        -- rewrite Hk. now rewrite andb_false_r.
        -- now rewrite lookup_insert_eq.
    + assert (Hsame : forall m : gmap string File,
                 (if negb (bool_decide (is_Some (attach !! std)))
                     && negb (bool_decide (std ∈ create))
                  then <[std := sys_file std]> attach else attach) !! k = attach !! k).
      { intros _. destruct (_ && _); [now apply lookup_insert_ne | reflexivity]. }
      rewrite (Hsame ∅).
      assert (Hmem : bool_decide (k ∈ std :: stds) = bool_decide (k ∈ stds)).
      { apply bool_decide_ext. rewrite elem_of_cons.
        split; [intros [?|?]; [congruence | assumption] | intros ?; now right]. }
      now rewrite Hmem.
Qed.

Lemma defaulted_lookup (create : list string) (attach : gmap string File) (k : string) :
  defaulted create attach !! k
  = match attach !! k with
    | Some f => Some f
    | None => if bool_decide (k ∈ _stds) && negb (bool_decide (k ∈ create))
              then Some (sys_file k) else None
    end.
Proof. apply defaults_lookup. Qed.

(** [run] up to the call of [_attach_fork_exec]. *)
Lemma run_prepared (self : GnuPG) (gnupg_commands args : list string) (s : RunState) :
  run self gnupg_commands args s
  = match _attach_fork_exec self gnupg_commands args (prepared self s) with
    | (Raise e, s') => (Raise e, s')
    | (Ok process, s') =>
        if handle_passphrase self s then
          match handles process !! "passphrase", passphrase self with
          | Some passphrase_fh, Some text =>
              (_ ← syscall (sys_write (fileno passphrase_fh) text);
               _ ← os_close (fileno passphrase_fh);
               mret {| base := base process; _pipes := _pipes process;
                       handles := delete "passphrase" (handles process) |}) s'
          | _, _ => (Raise (OtherError "KeyError"), s')
          end
        else (Ok process, s')
    end.
Proof.
  unfold run. unfold mbind at 1, M_bind at 1. rewrite defaults_loop. cbv iota beta.
  fold (defaulted (create_fhs s) (attach_fhs s)).
  set (s1 := set_attach_fhs (defaulted (create_fhs s) (attach_fhs s)) s).
  assert (Hhp : match passphrase self with
                | Some _ => negb (in_attach "passphrase" s1) && negb (in_create "passphrase" s1)
                | None => false
                end = handle_passphrase self s).
  { unfold handle_passphrase. destruct (passphrase self); [|reflexivity].
    unfold in_attach, in_create, s1. cbn [attach_fhs create_fhs set_attach_fhs].
    rewrite defaulted_lookup.
    destruct (attach_fhs s !! "passphrase"); reflexivity. }
  unfold mbind at 1, M_bind at 1, get_state at 1. cbv iota beta zeta. rewrite Hhp.
  assert (Hprep : (if handle_passphrase self s
                   then put_state (set_create_fhs (create_fhs s1 ++ ["passphrase"]) s1)
                   else mret tt) s1 = (Ok tt, prepared self s)).
  { unfold prepared. destruct (handle_passphrase self s); reflexivity. }
  unfold mbind at 1, M_bind at 1. rewrite Hprep. cbv iota beta.
  unfold mbind at 1, M_bind at 1.
  destruct (_attach_fork_exec self gnupg_commands args (prepared self s)) as [[process|e] s'];
    [|reflexivity].
  destruct (handle_passphrase self s); [|reflexivity].
  destruct (handles process !! "passphrase"); [|reflexivity].
  destruct (passphrase self); reflexivity.
Qed.

(** *** The loops of [_attach_fork_exec] and [_as_parent] *)

Lemma check_names_spec (names : list string) (s : RunState) :
  check_names names s
  = (if forallb known names then Ok tt else Raise (OtherError "KeyError"), s).
Proof.
  unfold check_names. induction names as [|k names IH]; [reflexivity|].
  cbn [for_each forallb]. unfold mbind, M_bind. unfold known at 1.
  destruct (_fd_modes !! k) as [m|].
  - rewrite (bool_decide_eq_true_2 (is_Some (Some m))) by (now eexists).
    unfold mret, M_ret. exact IH.
  - now rewrite (bool_decide_eq_false_2 (is_Some None)) by (now intros [? ?]).
Qed.

Lemma forks_app (a b : list Syscall) : forks (a ++ b) = (forks a ++ forks b)%list.
Proof. unfold forks. apply omap_app. Qed.

Lemma quiet_refl (s : RunState) : quiet_step s s.
Proof. now repeat split. Qed.

Lemma quiet_trans (a b c : RunState) : quiet_step a b -> quiet_step b c -> quiet_step a c.
Proof. unfold quiet_step. intros (?&?&?&?&?) (?&?&?&?&?). repeat split; congruence. Qed.

Lemma os_pipe_quiet (s : RunState) : quiet_step s (snd (os_pipe s)).
Proof.
  unfold quiet_step, os_pipe. simpl. repeat split.
  rewrite forks_app. simpl. apply app_nil_r.
Qed.

Lemma syscall_quiet (c : Syscall) (s : RunState) :
  (forall pid, c <> sys_fork pid) -> quiet_step s (snd (syscall c s)).
Proof.
  intros Hc. unfold quiet_step, syscall. simpl. repeat split.
  rewrite forks_app. destruct c as [r w|pid0|fd|fd m|fd d]; simpl; try apply app_nil_r.
  now destruct (Hc pid0).
Qed.

Lemma known_mode (k : string) : known k = true -> exists m, _fd_modes !! k = Some m.
Proof. unfold known. intros H. apply bool_decide_eq_true_1 in H. exact H. Qed.

Lemma create_pipes_ok (names : list string) (pipes : gmap string Pipe) (s : RunState) :
  forallb known names = true ->
  (forall k, k ∈ names -> attach_fhs s !! k = None) ->
  exists pipes' s',
    create_pipes names pipes s = (Ok pipes', s')
    /\ quiet_step s s'
    /\ (forall k, k ∈ names -> exists p, pipes' !! k = Some p /\ direct p = false)
    /\ (forall k, k ∉ names -> pipes' !! k = pipes !! k).
Proof.
  revert pipes s. induction names as [|k names IH]; intros pipes s Hknown Hfree.
  - exists pipes, s. split; [reflexivity|]. split; [apply quiet_refl|].
    split; [intros k Hk; now apply elem_of_nil in Hk | reflexivity].
  - cbn [forallb] in Hknown. apply andb_true_iff in Hknown as [Hk Hknown].
    destruct (known_mode k Hk) as [m Hm].
    cbn [create_pipes]. unfold mbind at 1, M_bind at 1, get_state at 1. cbv iota beta.
    unfold in_attach. rewrite (Hfree k) by apply list_elem_of_here.
    rewrite (bool_decide_eq_false_2 (is_Some None)) by (now intros [? ?]).
    unfold mbind at 1, M_bind at 1.
    pose proof (os_pipe_quiet s) as Hq.
    destruct (os_pipe s) as [[[r w]|e] s1] eqn:Hpipe; [|discriminate].
    simpl in Hq. rewrite Hm.
    match goal with |- context [create_pipes names ?pp s1] => set (pipes1 := pp) end.
    destruct (IH pipes1 s1 Hknown) as (pipes' & s' & Hrun & Hq' & Hin & Hout).
    { intros k' Hk'. destruct Hq as (_ & -> & _). apply Hfree. now apply list_elem_of_further. }
    exists pipes', s'. split; [exact Hrun|]. split; [now apply (quiet_trans s s1 s')|].
    split.
    + intros k' Hk'. destruct (decide (k' ∈ names)) as [Hn|Hn]; [now apply Hin|].
      apply elem_of_cons in Hk' as [->|Hk']; [|contradiction].
      rewrite (Hout k Hn). unfold pipes1. rewrite lookup_insert_eq. now eexists.
    + intros k' Hk'. rewrite Hout.
      * unfold pipes1. apply lookup_insert_ne. intros ->. apply Hk'. apply list_elem_of_here.
      * intros Hn. apply Hk'. now apply list_elem_of_further.
Qed.

Lemma create_pipes_overlap (names : list string) (pipes : gmap string Pipe)
    (s : RunState) :
  forallb known names = true ->
  (exists k, k ∈ names /\ is_Some (attach_fhs s !! k)) ->
  exists s',
    create_pipes names pipes s = (Raise (OtherError "ValueError"), s')
    /\ quiet_step s s'.
Proof.
  revert pipes s. induction names as [|k names IH]; intros pipes s Hknown (k0 & Hk0 & Hatt).
  - now apply elem_of_nil in Hk0.
  - cbn [forallb] in Hknown. apply andb_true_iff in Hknown as [Hk Hknown].
    destruct (known_mode k Hk) as [m Hm].
    cbn [create_pipes]. unfold mbind at 1, M_bind at 1, get_state at 1. cbv iota beta.
    unfold in_attach.
    destruct (bool_decide_reflect (is_Some (attach_fhs s !! k))) as [Hyes|Hno].
    + exists s. split; [reflexivity | apply quiet_refl].
    + unfold mbind at 1, M_bind at 1.
      pose proof (os_pipe_quiet s) as Hq.
      destruct (os_pipe s) as [[[r w]|e] s1] eqn:Hpipe; [|discriminate].
      simpl in Hq. rewrite Hm.
      match goal with |- context [create_pipes names ?pp s1] => set (pipes1 := pp) end.
      destruct (IH pipes1 s1 Hknown) as (s' & Hrun & Hq').
      { exists k0. split.
        - apply elem_of_cons in Hk0 as [->|Hk0]; [contradiction | exact Hk0].
        - destruct Hq as (_ & -> & _). exact Hatt. }
      exists s'. split; [exact Hrun | now apply (quiet_trans s s1 s')].
Qed.

Lemma attach_pipes_items (items : list (string * File)) (pipes : gmap string Pipe)
    (k : string) :
  NoDup items.*1 ->
  attach_pipes items pipes !! k
  = match (list_to_map items : gmap string File) !! k with
    | Some fh => Some {| parent := fileno fh; child := fileno fh; direct := true |}
    | None => pipes !! k
    end.
Proof.
  unfold attach_pipes. revert pipes.
  induction items as [|[k0 f0] items IH]; intros pipes Hnd; [reflexivity|].
  apply NoDup_cons in Hnd as [Hk0 Hnd]. cbn [fold_left list_to_map foldr fst snd].
  rewrite IH by exact Hnd. destruct (decide (k = k0)) as [->|Hne].
  - rewrite (not_elem_of_list_to_map_1 (M := gmap string) items k0 Hk0).
    now rewrite !lookup_insert_eq.
  - rewrite !lookup_insert_ne by congruence. reflexivity.
Qed.

Lemma attach_pipes_lookup (attach : gmap string File) (pipes : gmap string Pipe)
    (k : string) :
  attach_pipes (map_to_list attach) pipes !! k
  = match attach !! k with
    | Some fh => Some {| parent := fileno fh; child := fileno fh; direct := true |}
    | None => pipes !! k
    end.
Proof.
  rewrite attach_pipes_items by apply NoDup_fst_map_to_list.
  now rewrite list_to_map_to_list.
Qed.

Lemma open_handles_ok (items : list (string * Pipe)) (handles : gmap string File)
    (s : RunState) :
  NoDup items.*1 ->
  (forall k p, (k, p) ∈ items -> direct p = false -> known k = true) ->
  exists handles' s',
    open_handles items handles s = (Ok handles', s')
    /\ quiet_step s s'
    /\ forall k,
         handles' !! k
         = match (list_to_map items : gmap string Pipe) !! k with
           | Some p => if direct p then handles !! k else Some (handle_of k p)
           | None => handles !! k
           end.
Proof.
  revert handles s. induction items as [|[k0 p0] items IH]; intros handles s Hnd Hknown.
  - exists handles, s. split; [reflexivity|]. split; [apply quiet_refl | reflexivity].
  - apply NoDup_cons in Hnd as [Hk0 Hnd].
    assert (Hrest : forall k p, (k, p) ∈ items -> direct p = false -> known k = true).
    { intros k p Hin. apply Hknown. now apply list_elem_of_further. }
    assert (Hnone : (list_to_map items : gmap string Pipe) !! k0 = None)
      by now apply not_elem_of_list_to_map_1.
    cbn [open_handles list_to_map foldr fst snd].
    destruct (direct p0) eqn:Hd.
    + destruct (IH handles s Hnd Hrest) as (handles' & s' & Hrun & Hq & Hlook).
      exists handles', s'. split; [exact Hrun|]. split; [exact Hq|].
      intros k. rewrite Hlook. destruct (decide (k = k0)) as [->|Hne].
      * rewrite lookup_insert_eq, Hnone, Hd. reflexivity.
      * rewrite lookup_insert_ne by congruence. reflexivity.
    + destruct (known_mode k0 (Hknown k0 p0 (list_elem_of_here _ _) Hd)) as [m Hm].
      unfold mbind at 1, M_bind at 1, os_close.
      pose proof (syscall_quiet (sys_close (child p0)) s ltac:(discriminate)) as Hq1.
      destruct (syscall (sys_close (child p0)) s) as [[[]|e] s1] eqn:Hc; [|discriminate].
      simpl in Hq1. rewrite Hm. unfold os_fdopen.
      unfold mbind at 1, M_bind at 1. unfold mbind at 1, M_bind at 1.
      pose proof (syscall_quiet (sys_fdopen (parent p0) m) s1 ltac:(discriminate)) as Hq2.
      destruct (syscall (sys_fdopen (parent p0) m) s1) as [[[]|e] s2] eqn:Hf; [|discriminate].
      simpl in Hq2. unfold mret at 1, M_ret at 1.
      destruct (IH (<[k0 := {| fileno := parent p0; mode := m |}]> handles) s2 Hnd Hrest)
        as (handles' & s' & Hrun & Hq & Hlook).
      exists handles', s'. split; [exact Hrun|].
      split; [apply (quiet_trans s s1 s'); [exact Hq1 | now apply (quiet_trans s1 s2 s')]|].
      intros k. rewrite Hlook. destruct (decide (k = k0)) as [->|Hne].
      * rewrite lookup_insert_eq, Hnone, lookup_insert_eq, Hd.
        unfold handle_of. now rewrite Hm.
      * rewrite !lookup_insert_ne by congruence. reflexivity.
Qed.

(** *** The containers are only changed by [run] itself *)

Lemma same_containers_trans (a b c : RunState) :
  same_containers a b -> same_containers b c -> same_containers a c.
Proof. unfold same_containers. intros [? ?] [? ?]. split; congruence. Qed.

Lemma create_pipes_containers (names : list string) (pipes : gmap string Pipe)
    (s : RunState) :
  same_containers s (snd (create_pipes names pipes s)).
Proof.
  revert pipes s. induction names as [|k names IH]; intros pipes s; [now split|].
  cbn [create_pipes]. unfold mbind at 1, M_bind at 1, get_state at 1. cbv iota beta.
  destruct (in_attach k s); [now split|].
  unfold mbind at 1, M_bind at 1, os_pipe. cbv iota beta zeta.
  destruct (_fd_modes !! k) as [m|]; [|now split].
  match goal with |- context [create_pipes names ?pp ?s1] =>
    destruct (IH pp s1) as [H1 H2] end.
  split; [rewrite H1 | rewrite H2]; reflexivity.
Qed.

Lemma open_handles_containers (items : list (string * Pipe)) (handles : gmap string File)
    (s : RunState) :
  same_containers s (snd (open_handles items handles s)).
Proof.
  revert handles s. induction items as [|[k p] items IH]; intros handles s; [now split|].
  cbn [open_handles]. destruct (direct p); [apply IH|].
  unfold mbind at 1, M_bind at 1, os_close, syscall. cbv iota beta.
  destruct (_fd_modes !! k) as [m|]; [|now split].
  unfold os_fdopen, syscall. unfold mbind at 1, M_bind at 1. unfold mbind at 1, M_bind at 1.
  cbv iota beta. unfold mret at 1, M_ret at 1. cbv iota beta.
  match goal with |- context [open_handles items ?hh ?s1] =>
    destruct (IH hh s1) as [H1 H2] end.
  split; [rewrite H1 | rewrite H2]; reflexivity.
Qed.

Lemma _attach_fork_exec_containers (self : GnuPG) (gnupg_commands args : list string)
    (s : RunState) :
  same_containers s (snd (_attach_fork_exec self gnupg_commands args s)).
Proof.
  unfold _attach_fork_exec. unfold mbind at 1, M_bind at 1, get_state at 1. cbv iota beta.
  unfold mbind at 1, M_bind at 1. rewrite check_names_spec.
  destruct (forallb known _); [|now split]. cbv iota beta.
  unfold mbind at 1, M_bind at 1.
  pose proof (create_pipes_containers (create_fhs s) ∅ s) as H1.
  destruct (create_pipes (create_fhs s) ∅ s) as [[pipes|e] s1]; simpl in H1; [|exact H1].
  unfold os_fork, start_thread, _as_parent, syscall, get_state. run. cbv iota beta zeta.
  cbn [_pipes handles].
  match goal with |- context [open_handles ?it ?hh ?s2] =>
    pose proof (open_handles_containers it hh s2) as H2;
    destruct (open_handles it hh s2) as [[handles'|e] s3] end; simpl in H2 |- *;
    (eapply same_containers_trans; [exact H1 | exact H2]).
Qed.

(** *** [_attach_fork_exec] *)

Lemma elem_of_keys (attach : gmap string File) (k : string) :
  k ∈ map fst (map_to_list attach) <-> is_Some (attach !! k).
Proof.
  rewrite list_elem_of_fmap. split.
  - intros ([k' f] & -> & Hin). apply elem_of_map_to_list in Hin. now exists f.
  - intros [f Hf]. exists (k, f). split; [reflexivity | now apply elem_of_map_to_list].
Qed.

Lemma names_known (s : RunState) :
  forallb known (create_fhs s ++ map fst (map_to_list (attach_fhs s))) = true
  <-> all_known s.
Proof.
  rewrite forallb_forall. unfold all_known. split.
  - intros H k Hk. apply H. apply list_elem_of_In, elem_of_app.
    destruct Hk as [Hk|Hk]; [now left | right; now apply elem_of_keys].
  - intros H k Hk. apply list_elem_of_In, elem_of_app in Hk.
    apply H. destruct Hk as [Hk|Hk]; [now left | right; now apply elem_of_keys].
Qed.

Lemma created_known (s : RunState) :
  all_known s -> forallb known (create_fhs s) = true.
Proof.
  intros H. apply forallb_forall. intros k Hk. apply H. left. now apply list_elem_of_In.
Qed.

Lemma _attach_fork_exec_unknown (self : GnuPG) (gnupg_commands args : list string)
    (s : RunState) :
  ~ all_known s ->
  _attach_fork_exec self gnupg_commands args s = (Raise (OtherError "KeyError"), s).
Proof.
  intros Hno. unfold _attach_fork_exec.
  unfold mbind at 1, M_bind at 1, get_state at 1. cbv iota beta.
  unfold mbind at 1, M_bind at 1. rewrite check_names_spec.
  destruct (forallb known _) eqn:Hk; [|reflexivity].
  now apply names_known in Hk.
Qed.

Lemma _attach_fork_exec_overlap (self : GnuPG) (gnupg_commands args : list string)
    (s : RunState) :
  all_known s ->
  (exists k, k ∈ create_fhs s /\ is_Some (attach_fhs s !! k)) ->
  exists s',
    _attach_fork_exec self gnupg_commands args s = (Raise (OtherError "ValueError"), s')
    /\ quiet_step s s'.
Proof.
  intros Hknown Hover. unfold _attach_fork_exec.
  unfold mbind at 1, M_bind at 1, get_state at 1. cbv iota beta.
  unfold mbind at 1, M_bind at 1. rewrite check_names_spec.
  rewrite (proj2 (names_known s) Hknown). cbv iota beta.
  destruct (create_pipes_overlap (create_fhs s) ∅ s (created_known s Hknown) Hover)
    as (s' & Hrun & Hq).
  exists s'. unfold mbind at 1, M_bind at 1. rewrite Hrun. now split.
Qed.

Lemma started_thread (c : Child) (ran : bool) :
  let p := {| pid := Some (child_pid c); thread := Some tt; returned := None |} in
  started c (if ran then threaded_waitpid c p else p).
Proof.
  intros p. destruct ran; [|repeat split; now left].
  unfold started, threaded_waitpid, os_waitpid, p. simpl. rewrite Z.eqb_refl. simpl.
  destruct (collectable c); simpl; rewrite Z.eqb_refl; simpl; repeat split; now right.
Qed.

Lemma _attach_fork_exec_ok (self : GnuPG) (gnupg_commands args : list string)
    (s : RunState) :
  all_known s -> disjoint s ->
  exists process s',
    _attach_fork_exec self gnupg_commands args s = (Ok process, s')
    /\ same_containers s s'
    /\ forks (trace (os s')) = (forks (trace (os s)) ++ [child_pid (forked (os s))])%list
    /\ _pipes process = None
    /\ started (forked (os s)) (base process)
    /\ (forall k, is_Some (handles process !! k) <-> k ∈ create_fhs s)
    /\ (forall k f, handles process !! k = Some f -> _fd_modes !! k = Some (mode f)).
Proof.
  intros Hknown Hdisj. unfold _attach_fork_exec.
  unfold mbind at 1, M_bind at 1, get_state at 1. cbv iota beta.
  unfold mbind at 1, M_bind at 1. rewrite check_names_spec.
  rewrite (proj2 (names_known s) Hknown). cbv iota beta.
  destruct (create_pipes_ok (create_fhs s) ∅ s (created_known s Hknown) Hdisj)
    as (pipes' & s1 & Hrun & Hq1 & Hin & Hout).
  unfold mbind at 1, M_bind at 1. rewrite Hrun. cbv iota beta zeta.
  set (pipes := attach_pipes (map_to_list (attach_fhs s)) pipes').
  assert (Hpipes : forall k,
             pipes !! k
             = match attach_fhs s !! k with
               | Some fh => Some {| parent := fileno fh; child := fileno fh; direct := true |}
               | None => pipes' !! k
               end) by (intros k; apply attach_pipes_lookup).
  unfold os_fork. unfold mbind at 1, M_bind at 1. unfold mbind at 1, M_bind at 1.
  unfold get_state at 1. cbv iota beta zeta. unfold mbind at 1, M_bind at 1.
  set (s2 := snd (syscall (sys_fork (child_pid (forked (os s1)))) s1)).
  change (syscall (sys_fork (child_pid (forked (os s1)))) s1) with (Ok tt, s2).
  cbv iota beta. unfold mret at 1, M_ret at 1. cbv iota beta.
  unfold start_thread. unfold mbind at 1, M_bind at 1. unfold mbind at 1, M_bind at 1.
  unfold get_state at 1. cbv iota beta zeta. unfold mret at 1, M_ret at 1. cbv iota beta.
  unfold _as_parent. cbn [_pipes handles base new_Process pid thread returned].
  destruct Hq1 as (Hc1 & Ha1 & Hf1 & Ht1 & Hk1).
  destruct (open_handles_ok (map_to_list pipes) ∅ s2 (NoDup_fst_map_to_list pipes))
    as (handles' & s3 & Hopen & Hq3 & Hlook).
  { intros k p Hkp Hd. apply elem_of_map_to_list in Hkp. rewrite Hpipes in Hkp.
    destruct (attach_fhs s !! k) as [fh|] eqn:Hatt.
    - injection Hkp as <-. discriminate.
    - apply Hknown. left. destruct (decide (k ∈ create_fhs s)) as [Hyes|Hno]; [exact Hyes|].
      rewrite (Hout k Hno), lookup_empty in Hkp. discriminate. }
  unfold mbind at 1, M_bind at 1. rewrite Hopen. cbv iota beta. unfold mret, M_ret.
  eexists. exists s3. split; [reflexivity|].
  destruct Hq3 as (Hc3 & Ha3 & Hf3 & Ht3 & Hk3).
  assert (Hhandles : forall k,
             handles' !! k
             = match pipes !! k with
               | Some p => if direct p then None else Some (handle_of k p)
               | None => None
               end).
  { intros k. rewrite Hlook, list_to_map_to_list, lookup_empty.
    now destruct (pipes !! k) as [[? ? []]|]. }
  split; [split; [now rewrite Hc3 | now rewrite Ha3]|].
  split.
  { rewrite Hk3. unfold s2, syscall. simpl. rewrite forks_app, Hk1, Hf1. reflexivity. }
  split; [reflexivity|].
  split.
  { simpl. rewrite Ht1, Hf1. apply started_thread. }
  split.
  - intros k. simpl. rewrite Hhandles, Hpipes. split.
    + destruct (attach_fhs s !! k) as [fh|] eqn:Hatt; [now intros [? [=]]|].
      intros Hsome. destruct (decide (k ∈ create_fhs s)) as [Hyes|Hno]; [exact Hyes|].
      rewrite (Hout k Hno), lookup_empty in Hsome. now destruct Hsome.
    + intros Hk. rewrite (Hdisj k Hk). destruct (Hin k Hk) as (p & -> & ->). now eexists.
  - intros k f. simpl. rewrite Hhandles.
    destruct (pipes !! k) as [p|] eqn:Hp; [|discriminate].
    destruct (direct p) eqn:Hd; [discriminate|]. intros [= <-].
    unfold handle_of. simpl.
    assert (Hkn : known k = true).
    { rewrite Hpipes in Hp. destruct (attach_fhs s !! k) as [fh|] eqn:Hatt.
      - injection Hp as <-. discriminate.
      - apply Hknown. left. destruct (decide (k ∈ create_fhs s)) as [Hyes|Hno]; [exact Hyes|].
        rewrite (Hout k Hno), lookup_empty in Hp. discriminate. }
    destruct (known_mode k Hkn) as [m ->]. reflexivity.
Qed.

(** *** The prepared containers *)

Lemma known_std (k : string) : k ∈ _stds -> known k = true.
Proof.
  unfold _stds. rewrite !elem_of_cons, elem_of_nil.
  intros [->|[->|[->|[]]]]; reflexivity.
Qed.

Lemma prepared_create (self : GnuPG) (s : RunState) (k : string) :
  k ∈ create_fhs (prepared self s)
  <-> k ∈ create_fhs s \/ (handle_passphrase self s = true /\ k = "passphrase").
Proof.
  unfold prepared. simpl. destruct (handle_passphrase self s).
  - rewrite elem_of_app, list_elem_of_singleton. split.
    + intros [H|H]; [now left | right; now split].
    + intros [H|[_ H]]; [now left | now right].
  - split; [now left | now intros [H|[[=] _]]].
Qed.

Lemma handle_passphrase_free (self : GnuPG) (s : RunState) :
  handle_passphrase self s = true ->
  attach_fhs s !! "passphrase" = None /\ ("passphrase" ∉ create_fhs s)
  /\ is_Some (passphrase self).
Proof.
  unfold handle_passphrase, in_attach, in_create.
  destruct (passphrase self) as [text|]; [|discriminate].
  intros H. apply andb_true_iff in H as [Ha Hc].
  apply negb_true_iff in Ha, Hc.
  apply bool_decide_eq_false_1 in Ha, Hc. split; [|split; [exact Hc | now eexists]].
  destruct (attach_fhs s !! "passphrase"); [|reflexivity]. destruct Ha. now eexists.
Qed.

Lemma prepared_all_known (self : GnuPG) (s : RunState) :
  all_known (prepared self s) <-> all_known s.
Proof.
  unfold all_known. split.
  - intros H k Hk. apply H. destruct Hk as [Hk|[f Hf]].
    + left. apply prepared_create. now left.
    + right. unfold prepared. simpl. rewrite defaulted_lookup, Hf. now eexists.
  - intros H k [Hk|Hk].
    + apply prepared_create in Hk as [Hk|[_ ->]]; [apply H; now left | reflexivity].
    + unfold prepared in Hk. simpl in Hk. rewrite defaulted_lookup in Hk.
      destruct (attach_fhs s !! k) as [f|] eqn:Hf.
      * apply H. right. rewrite Hf. now eexists.
      * destruct (bool_decide_reflect (k ∈ _stds)) as [Hstd|Hno]; [now apply known_std|].
        simpl in Hk. now destruct Hk.
Qed.

Lemma prepared_disjoint (self : GnuPG) (s : RunState) :
  disjoint s -> disjoint (prepared self s).
Proof.
  unfold disjoint. intros H k Hk. unfold prepared. simpl. rewrite defaulted_lookup.
  apply prepared_create in Hk as [Hk|[Hhp ->]].
  - rewrite (H k Hk). rewrite (bool_decide_eq_true_2 (k ∈ create_fhs s) Hk).
    now rewrite andb_false_r.
  - destruct (handle_passphrase_free self s Hhp) as (-> & _ & _). reflexivity.
Qed.

Lemma prepared_overlap (self : GnuPG) (s : RunState) :
  (exists k, k ∈ create_fhs s /\ is_Some (attach_fhs s !! k)) ->
  exists k, k ∈ create_fhs (prepared self s) /\ is_Some (attach_fhs (prepared self s) !! k).
Proof.
  intros (k & Hk & [f Hf]). exists k. split; [apply prepared_create; now left|].
  unfold prepared. simpl. rewrite defaulted_lookup, Hf. now eexists.
Qed.

Lemma run_containers (self : GnuPG) (gnupg_commands args : list string) (s : RunState) :
  same_containers (prepared self s) (snd (run self gnupg_commands args s)).
Proof.
  rewrite run_prepared.
  pose proof (_attach_fork_exec_containers self gnupg_commands args (prepared self s)) as H.
  destruct (_attach_fork_exec self gnupg_commands args (prepared self s))
    as [[process|e] s']; simpl in H; [|exact H].
  destruct (handle_passphrase self s); [|exact H].
  destruct (handles process !! "passphrase") as [fh|]; [|exact H].
  destruct (passphrase self) as [text|]; [|exact H].
  unfold os_close, syscall. run. simpl. exact H.
Qed.

(** *** The three outcomes of [run] *)

(** X26. [run] checks the handle names before it creates anything.  When a
    name that the caller asks for or attaches is not one of the seven of
    [_fd_modes], [run] raises [KeyError]: no pipe has been opened and no
    process started, but the caller's containers have their additions
    already.  When all names are known and one is both asked for and
    attached, [run] raises [ValueError] without having started a process.
    In every other case [run] returns a process. *)
Theorem run_checks_handle_names (self : GnuPG) (gnupg_commands args : list string)
    (s : RunState) :
  ((exists k, (k ∈ create_fhs s \/ is_Some (attach_fhs s !! k)) /\ known k = false) ->
   run self gnupg_commands args s = (Raise (OtherError "KeyError"), prepared self s)
   /\ os (prepared self s) = os s)
  /\ (all_known s ->
      (exists k, k ∈ create_fhs s /\ is_Some (attach_fhs s !! k)) ->
      exists s',
        run self gnupg_commands args s = (Raise (OtherError "ValueError"), s')
        /\ forks (trace (os s')) = forks (trace (os s)))
  /\ (all_known s -> disjoint s ->
      exists process s', run self gnupg_commands args s = (Ok process, s')).
Proof.
  split; [|split].
  - intros (k & Hk & Hunknown). split; [|reflexivity].
    rewrite run_prepared, _attach_fork_exec_unknown; [reflexivity|].
    rewrite prepared_all_known. intros Hall. rewrite (Hall k Hk) in Hunknown. discriminate.
  - intros Hknown Hover. rewrite run_prepared.
    destruct (_attach_fork_exec_overlap self gnupg_commands args (prepared self s))
      as (s' & -> & Hq).
    + now apply prepared_all_known.
    + now apply prepared_overlap.
    + exists s'. split; [reflexivity|]. now destruct Hq as (_ & _ & _ & _ & ->).
  - intros Hknown Hdisj.
    destruct (_attach_fork_exec_ok self gnupg_commands args (prepared self s))
      as (process & s' & Hrun & _ & _ & _ & _ & Hhandles & _).
    + now apply prepared_all_known.
    + now apply prepared_disjoint.
    + rewrite run_prepared, Hrun.
      destruct (handle_passphrase self s) eqn:Hhp; [|now eexists; eexists].
      destruct (handle_passphrase_free self s Hhp) as (_ & _ & [text Htext]).
      destruct (proj2 (Hhandles "passphrase")) as [fh Hfh].
      { apply prepared_create. right. now split. }
      rewrite Hfh, Htext. eexists. eexists. reflexivity.
Qed.

Lemma run_ok (self : GnuPG) (gnupg_commands args : list string) (s : RunState) :
  all_known s -> disjoint s ->
  exists process s',
    run self gnupg_commands args s = (Ok process, s')
    /\ (forall k, is_Some (handles process !! k) <-> k ∈ create_fhs s)
    /\ (forall k f, handles process !! k = Some f -> _fd_modes !! k = Some (mode f))
    /\ _pipes process = None
    /\ started (forked (os s)) (base process)
    /\ forks (trace (os s')) = (forks (trace (os s)) ++ [child_pid (forked (os s))])%list
    /\ (forall text,
          passphrase self = Some text -> handle_passphrase self s = true ->
          exists calls fd,
            trace (os s') = (calls ++ [sys_write fd text; sys_close fd])%list).
Proof.
  intros Hknown Hdisj.
  destruct (_attach_fork_exec_ok self gnupg_commands args (prepared self s))
    as (process & s' & Hrun & _ & Hforks & Hpipes & Hstarted & Hhandles & Hmodes).
  { now apply prepared_all_known. }
  { now apply prepared_disjoint. }
  rewrite run_prepared, Hrun.
  destruct (handle_passphrase self s) eqn:Hhp.
  - destruct (handle_passphrase_free self s Hhp) as (_ & Hfree & [text Htext]).
    destruct (proj2 (Hhandles "passphrase")) as [fh Hfh].
    { apply prepared_create. right. now split. }
    rewrite Hfh, Htext. unfold os_close, syscall. run. cbv iota beta.
    eexists. eexists. split; [reflexivity|]. cbn [handles _pipes base os trace].
    split; [|split; [|split; [exact Hpipes|split; [exact Hstarted|split]]]].
    + intros k. destruct (decide (k = "passphrase")) as [->|Hne].
      * rewrite lookup_delete_eq. split; [now intros [? [=]] | contradiction].
      * rewrite lookup_delete_ne by congruence. rewrite Hhandles, prepared_create.
        split; [intros [H|[_ H]]; [exact H | contradiction] | now left].
    + intros k f Hf. apply Hmodes. destruct (decide (k = "passphrase")) as [->|Hne].
      * now rewrite lookup_delete_eq in Hf.
      * now rewrite lookup_delete_ne in Hf by congruence.
    + rewrite !forks_app, Hforks. simpl. now rewrite !app_nil_r.
    + intros text' [= <-] _. exists (trace (os s')), (fileno fh).
      now rewrite <- app_assoc.
  - exists process, s'. split; [reflexivity|].
    split; [|split; [exact Hmodes|split; [exact Hpipes|split; [exact Hstarted|split]]]].
    + intros k. rewrite Hhandles, prepared_create.
      split; [intros [H|[Hf _]]; [exact H | congruence] | now left].
    + exact Hforks.
    + intros text _ [=].
Qed.

(** X27. A call of [run] with known names, none of them both asked for and
    attached, starts one process and returns it with exactly the handles
    that the caller asked for in [create_fhs], each opened in the mode that
    [_fd_modes] gives its name; the pipes are deleted from the object, the
    pid is the one of the child and the waiting thread is started.  When
    [run] takes care of the passphrase itself, it writes the passphrase to
    the handle of its own and closes it, as its last two calls, and the
    caller gets no passphrase handle. *)
Theorem run_opens_requested_handles (self : GnuPG) (gnupg_commands args : list string)
    (s : RunState) :
  all_known s -> disjoint s ->
  exists process s',
    run self gnupg_commands args s = (Ok process, s')
    /\ (forall k, is_Some (handles process !! k) <-> k ∈ create_fhs s)
    /\ (forall k f, handles process !! k = Some f -> _fd_modes !! k = Some (mode f))
    /\ _pipes process = None
    /\ started (forked (os s)) (base process)
    /\ forks (trace (os s')) = (forks (trace (os s)) ++ [child_pid (forked (os s))])%list
    /\ (forall text,
          passphrase self = Some text -> handle_passphrase self s = true ->
          handles process !! "passphrase" = None
          /\ exists calls fd,
               trace (os s') = (calls ++ [sys_write fd text; sys_close fd])%list).
Proof.
  intros Hknown Hdisj.
  destruct (run_ok self gnupg_commands args s Hknown Hdisj)
    as (process & s' & Hrun & Hhandles & Hmodes & Hpipes & Hstarted & Hforks & Hpass).
  exists process, s'. split; [exact Hrun|]. split; [exact Hhandles|].
  split; [exact Hmodes|]. split; [exact Hpipes|]. split; [exact Hstarted|].
  split; [exact Hforks|].
  intros text Htext Hhp. split; [|now apply Hpass].
  destruct (handle_passphrase_free self s Hhp) as (_ & Hfree & _).
  destruct (handles process !! "passphrase") as [fh|] eqn:Hfh; [|reflexivity].
  destruct Hfree. apply Hhandles. rewrite Hfh. now eexists.
Qed.

Lemma sample_call_known : all_known sample_call.
Proof. apply names_known. vm_compute. reflexivity. Qed.

Lemma sample_call_disjoint : disjoint sample_call.
Proof. intros k _. apply lookup_empty. Qed.

Lemma run_opens_requested_handles_witness :
  exists process s',
    run sample_gnupg ["--symmetric"] [] sample_call = (Ok process, s')
    /\ is_Some (handles process !! "stdin")
    /\ handles process !! "passphrase" = None
    /\ started failed_child (base process).
Proof.
  destruct (run_opens_requested_handles sample_gnupg ["--symmetric"] [] sample_call
              sample_call_known sample_call_disjoint)
    as (process & s' & Hrun & Hhandles & _ & _ & Hstarted & _ & Hpass).
  exists process, s'. split; [exact Hrun|]. split; [|split; [|exact Hstarted]].
  - apply Hhandles. apply list_elem_of_here.
  - exact (proj1 (Hpass "passphrase" eq_refl eq_refl)).
Defined.

(** X28. [run] changes the containers of its caller, whatever its outcome:
    [attach_fhs] gets each standard stream that the caller neither asked
    for nor attached, and [create_fhs] gets the name [passphrase] appended
    when [run] takes care of the passphrase.  So [run] never takes care of
    the passphrase on the same containers again: a second successful call
    returns a passphrase handle to the caller instead of writing the
    passphrase. *)
Theorem run_changes_callers_containers (self : GnuPG) (gnupg_commands args : list string)
    (s : RunState) :
  let s' := snd (run self gnupg_commands args s) in
  create_fhs s'
  = (if handle_passphrase self s then create_fhs s ++ ["passphrase"] else create_fhs s)%list
  /\ (forall k,
        attach_fhs s' !! k
        = match attach_fhs s !! k with
          | Some f => Some f
          | None => if bool_decide (k ∈ _stds) && negb (bool_decide (k ∈ create_fhs s))
                    then Some (sys_file k) else None
          end)
  /\ handle_passphrase self s' = false
  /\ (all_known s -> disjoint s -> handle_passphrase self s = true ->
      exists process2 s2,
        run self gnupg_commands args s' = (Ok process2, s2)
        /\ is_Some (handles process2 !! "passphrase")).
Proof.
  intros s'. destruct (run_containers self gnupg_commands args s) as [Hc Ha].
  fold s' in Hc, Ha.
  assert (Hcreate : create_fhs s'
            = (if handle_passphrase self s then create_fhs s ++ ["passphrase"]
               else create_fhs s)%list) by exact Hc.
  assert (Hattach : forall k,
            attach_fhs s' !! k
            = match attach_fhs s !! k with
              | Some f => Some f
              | None => if bool_decide (k ∈ _stds) && negb (bool_decide (k ∈ create_fhs s))
                        then Some (sys_file k) else None
              end).
  { intros k. rewrite Ha. unfold prepared. simpl. apply defaulted_lookup. }
  assert (Hnot : handle_passphrase self s' = false).
  { destruct (handle_passphrase self s') eqn:Hhp'; [|reflexivity].
    destruct (handle_passphrase_free self s' Hhp') as (Hatt' & Hcr' & _).
    destruct (handle_passphrase self s) eqn:Hhp.
    - destruct Hcr'. rewrite Hcreate. apply elem_of_app. right. apply list_elem_of_here.
    - unfold handle_passphrase in Hhp, Hhp'. destruct (passphrase self); [|discriminate].
      unfold in_attach, in_create in Hhp.
      apply andb_false_iff in Hhp as [Hin|Hin]; apply negb_false_iff in Hin;
        apply bool_decide_eq_true_1 in Hin.
      + destruct Hin as [f Hf]. rewrite Hattach, Hf in Hatt'. discriminate.
      + destruct Hcr'. now rewrite Hcreate. }
  split; [exact Hcreate|]. split; [exact Hattach|]. split; [exact Hnot|].
  intros Hknown Hdisj Hhp.
  assert (Hknown' : all_known s').
  { intros k Hk. apply (proj2 (prepared_all_known self s) Hknown k).
    now rewrite <- Hc, <- Ha. }
  assert (Hdisj' : disjoint s').
  { intros k Hk. rewrite Ha. apply (prepared_disjoint self s Hdisj). now rewrite <- Hc. }
  destruct (run_ok self gnupg_commands args s' Hknown' Hdisj')
    as (process2 & s2 & Hrun & Hhandles & _).
  exists process2, s2. split; [exact Hrun|]. apply Hhandles.
  rewrite Hcreate, Hhp. apply elem_of_app. right. apply list_elem_of_here.
Qed.

(** The name [passphase], as the documentation of [run] spells it, is not
    a handle name; and a stream cannot be asked for and attached at once. *)
Example run_rejects_sample_calls :
  fst (run sample_gnupg ["--symmetric"] [] misspelt_call) = Raise (OtherError "KeyError")
  /\ fst (run sample_gnupg ["--symmetric"] [] doubled_call) = Raise (OtherError "ValueError").
Proof. split; vm_compute; reflexivity. Qed.

(** The calls of the parent for [sample_call], and the containers after
    it. *)
Example run_sample_trace :
  let s' := snd (run sample_gnupg ["--symmetric"] [] sample_call) in
  trace (os s')
  = [sys_pipe 3 4; sys_pipe 5 6; sys_pipe 7 8; sys_fork 4242;
     sys_close 6; sys_fdopen 5 "r"; sys_close 3; sys_fdopen 4 "w";
     sys_close 7; sys_fdopen 8 "w"; sys_write 8 "passphrase"; sys_close 8]
  /\ create_fhs s' = ["stdin"; "stdout"; "passphrase"]
  /\ map_to_list (attach_fhs s') = [("stderr", sys_file "stderr")].
Proof. vm_compute. repeat split. Qed.

End GnuPGRunExtras.
